(** * Address derivation (functions/addresses.py)

    A shallow embedding of the address builders of the bitcoin transaction
    tutorial: public-key compression, Base58Check, the legacy builders
    (P2PKH, P2SH), the native segwit builders (P2WPKH, P2WSH) and the nested
    builder (P2SH-P2WPKH), together with the library routines they call
    (hashlib, base58, bech32), followed by the properties of the builders. *)

From Stdlib Require Import ZArith Strings.String Strings.Ascii Strings.Byte Bool Lia List.
Import ListNotations.

Open Scope Z_scope.

(* ===================================================================== *)
(** * Python values and control flow                                      *)
(* ===================================================================== *)

(** A Python [bytes] object. *)
Definition bytes := list byte.

(** A Python [int] is a [Z]; an item of a [bytes] object is an int in
    [0, 256). *)
Definition int_of_byte (b : byte) : Z := Z.of_N (Byte.to_N b).

Definition byte_of_int (z : Z) : byte :=
  match Byte.of_N (Z.to_N (z mod 256)) with
  | Some b => b
  | None => x00
  end.

(** The exceptions the modelled code can raise. *)
Inductive exn : Type :=
| ValueError
| IndexError
| TypeError
| OverflowError
| UnicodeEncodeError
| UnboundLocalError.

(** What a call produces: a returned value or a raised exception. *)
Inductive outcome (A : Type) : Type :=
| Returned (a : A)
| Raised (e : exn).
Arguments Returned {A} a.
Arguments Raised {A} e.

(** A statement sequence inside a function whose result type is [R]: it
    goes on to the next statement with a value, executes [return], or
    raises. *)
Inductive flow (R A : Type) : Type :=
| Next (a : A)
| Return (r : R)
| Raise (e : exn).
Arguments Next {R A} a.
Arguments Return {R A} r.
Arguments Raise {R A} e.

Definition bind {R A B : Type} (m : flow R A) (k : A -> flow R B) : flow R B :=
  match m with
  | Next a => k a
  | Return r => Return r
  | Raise e => Raise e
  end.

Notation "x <- m ;; k" := (bind m (fun x => k))
  (at level 61, m at next level, right associativity).

(** The value of a call expression used inside a body. *)
Definition lift {R A : Type} (o : outcome A) : flow R A :=
  match o with
  | Returned a => Next a
  | Raised e => Raise e
  end.

(** A function body all of whose paths end in [return] or in an exception:
    no value of type [False] lets control fall off the end. *)
Definition call {R : Type} (body : flow R False) : outcome R :=
  match body with
  | Next f => match f with end
  | Return r => Returned r
  | Raise e => Raised e
  end.

(** Reading a local variable that may not have been assigned. *)
Definition local {R A : Type} (v : option A) : flow R A :=
  match v with
  | Some a => Next a
  | None => Raise UnboundLocalError
  end.

(** [seq[i]] for a Python sequence, negative indices counted from the end. *)
Definition getitem {A : Type} (l : list A) (i : Z) : outcome A :=
  let n := Z.of_nat (length l) in
  let j := if i <? 0 then i + n else i in
  if (0 <=? j) && (j <? n) then
    match nth_error l (Z.to_nat j) with
    | Some a => Returned a
    | None => Raised IndexError
    end
  else Raised IndexError.

(** [int.from_bytes(b, byteorder="big")]. *)
Definition from_bytes_big (b : bytes) : Z :=
  fold_left (fun acc x => acc * 256 + int_of_byte x) b 0.

(** [int.from_bytes(b, byteorder="big", signed=True)]: two's complement. *)
Definition from_bytes_big_signed (b : bytes) : Z :=
  let u := from_bytes_big b in
  let bits := 8 * Z.of_nat (length b) in
  if (0 <? bits) && Z.testbit u (bits - 1) then u - 2 ^ bits else u.

(** [n.bit_length()]. *)
Definition bit_length (n : Z) : Z :=
  if n =? 0 then 0 else Z.log2 (Z.abs n) + 1.

Fixpoint be_digits (len : nat) (n : Z) : bytes :=
  match len with
  | O => []
  | S l => be_digits l (n / 256) ++ [byte_of_int n]
  end.

(** [n.to_bytes(size, 'big')]; [size] is a Python int. *)
Definition to_bytes_big (n : Z) (size : Z) : outcome bytes :=
  if size <? 0 then Raised ValueError
  else if (n <? 0) || (256 ^ size <=? n) then Raised OverflowError
  else Returned (be_digits (Z.to_nat size) n).

(** Hexadecimal digits. *)
Definition hexdigit (n : Z) : ascii :=
  if n <? 10 then ascii_of_N (Z.to_N (48 + n)) else ascii_of_N (Z.to_N (87 + n)).

Definition hexval (c : ascii) : option Z :=
  let n := Z.of_N (N_of_ascii c) in
  if (48 <=? n) && (n <=? 57) then Some (n - 48)
  else if (97 <=? n) && (n <=? 102) then Some (n - 87)
  else if (65 <=? n) && (n <=? 70) then Some (n - 55)
  else None.

(** [b.hex()]: two lower-case digits per byte. *)
Fixpoint hex (b : bytes) : string :=
  match b with
  | [] => EmptyString
  | x :: rest =>
      String (hexdigit (int_of_byte x / 16))
        (String (hexdigit (int_of_byte x mod 16)) (hex rest))
  end.

(** ASCII white space, as [bytes.fromhex], [bytes.rstrip] see it. *)
Definition ascii_space (n : Z) : bool :=
  (n =? 32) || ((9 <=? n) && (n <=? 13)).

(** White space of [str.rstrip] among the code points below 256. *)
Definition str_space (n : Z) : bool :=
  ascii_space n || ((28 <=? n) && (n <=? 31)) || (n =? 133) || (n =? 160).

(** [bytes.fromhex(s)]: white space is skipped between bytes, every byte is
    two hexadecimal digits, anything else is a ValueError. *)
Fixpoint fromhex (s : string) : outcome bytes :=
  match s with
  | EmptyString => Returned []
  | String c rest =>
      if ascii_space (Z.of_N (N_of_ascii c)) then fromhex rest
      else
        match rest with
        | EmptyString => Raised ValueError
        | String d rest' =>
            match hexval c, hexval d with
            | Some h, Some l =>
                match fromhex rest' with
                | Returned b => Returned (byte_of_int (16 * h + l) :: b)
                | Raised e => Raised e
                end
            | _, _ => Raised ValueError
            end
        end
  end.

(** Bytes written as a hexadecimal literal; a malformed literal reads as
    empty. *)
Definition unhex (s : string) : bytes :=
  match fromhex s with Returned b => b | Raised _ => [] end.

(** A [str] whose code points are all below 128, as the bytes of its ASCII
    (equally UTF-8) encoding, and back. *)
Definition str_of_ascii_bytes (b : bytes) : string := string_of_list_byte b.

(** [s.encode('ascii')]. *)
Definition encode_ascii (s : string) : outcome bytes :=
  if forallb (fun c => Z.of_N (N_of_ascii c) <? 128) (list_ascii_of_string s)
  then Returned (list_byte_of_string s)
  else Raised UnicodeEncodeError.

(** [b.lstrip(chars)] for a one-byte [chars]. *)
Fixpoint lstrip (x : byte) (b : bytes) : bytes :=
  match b with
  | y :: rest => if Byte.eqb x y then lstrip x rest else b
  | [] => []
  end.

(** [seq.rstrip()]: drop the trailing items that are white space. *)
Fixpoint rstrip_with {A : Type} (space : A -> bool) (l : list A) : list A :=
  match l with
  | [] => []
  | x :: rest =>
      match rstrip_with space rest with
      | [] => if space x then [] else [x]
      | kept => x :: kept
      end
  end.

Definition bytes_rstrip (b : bytes) : bytes :=
  rstrip_with (fun x => ascii_space (int_of_byte x)) b.

Definition str_rstrip (s : string) : string :=
  string_of_list_ascii
    (rstrip_with (fun c => str_space (Z.of_N (N_of_ascii c)))
       (list_ascii_of_string s)).

(** A [str] in general: the list of its Unicode code points, each below
    0x110000.  A [string] is a [str] whose code points are all below 256;
    [text_of_string] gives its code points. *)
Definition text := list N.

Definition text_of_string (s : string) : text :=
  map N_of_ascii (list_ascii_of_string s).

(** White space of [str.rstrip] among all code points: the characters
    [str.isspace] accepts. *)
Definition unicode_space (n : Z) : bool :=
  str_space n || (n =? 0x1680) || ((0x2000 <=? n) && (n <=? 0x200a))
  || (n =? 0x2028) || (n =? 0x2029) || (n =? 0x202f) || (n =? 0x205f)
  || (n =? 0x3000).

Definition text_rstrip (s : text) : text :=
  rstrip_with (fun c => unicode_space (Z.of_N c)) s.

(** The byte of a code point below 256. *)
Definition byte_of_point (c : N) : byte := byte_of_int (Z.of_N c).

(** [s.encode('ascii')] on any [str]. *)
Definition text_encode_ascii (s : text) : outcome bytes :=
  if forallb (fun c => Z.of_N c <? 128) s
  then Returned (map byte_of_point s)
  else Raised UnicodeEncodeError.

(* ===================================================================== *)
(** * hashlib                                                             *)
(* ===================================================================== *)

Module Hashlib.

(** 32-bit words are ints reduced modulo 2^32. *)
Definition mask32 : Z := 0xffffffff.
Definition w32 (x : Z) : Z := Z.land x mask32.
Definition add32 (x y : Z) : Z := w32 (x + y).
Definition not32 (x : Z) : Z := Z.lxor x mask32.
Definition rotr32 (n x : Z) : Z :=
  Z.lor (Z.shiftr x n) (w32 (Z.shiftl x (32 - n))).
Definition rotl32 (n x : Z) : Z :=
  Z.lor (w32 (Z.shiftl x n)) (Z.shiftr x (32 - n)).

(** Split a padded message into blocks of [n] bytes. *)
Fixpoint chunks (fuel : nat) (n : nat) (l : bytes) : list bytes :=
  match fuel with
  | O => []
  | S f =>
      match l with
      | [] => []
      | _ => firstn n l :: chunks f n (skipn n l)
      end
  end.

Definition word_be (b : bytes) : Z := from_bytes_big (firstn 4 b).

Definition word_le (b : bytes) : Z := from_bytes_big (rev (firstn 4 b)).

Fixpoint words (fuel : nat) (rd : bytes -> Z) (b : bytes) : list Z :=
  match fuel with
  | O => []
  | S f => rd b :: words f rd (skipn 4 b)
  end.

Definition bytes_be32 (x : Z) : bytes :=
  [byte_of_int (Z.shiftr x 24); byte_of_int (Z.shiftr x 16);
   byte_of_int (Z.shiftr x 8); byte_of_int x].

Definition bytes_le32 (x : Z) : bytes :=
  [byte_of_int x; byte_of_int (Z.shiftr x 8);
   byte_of_int (Z.shiftr x 16); byte_of_int (Z.shiftr x 24)].

(** Merkle-Damgard padding to a multiple of 64 bytes: 0x80, zero bytes, and
    the bit length in 8 bytes written by [len8]. *)
Definition pad (len8 : Z -> bytes) (msg : bytes) : bytes :=
  let l := Z.of_nat (length msg) in
  let k := (55 - l) mod 64 in
  msg ++ [x80] ++ repeat x00 (Z.to_nat k) ++ len8 (8 * l).

Definition len8_be (bits : Z) : bytes := be_digits 8 bits.
Definition len8_le (bits : Z) : bytes := rev (be_digits 8 bits).

(** ** SHA-256 (FIPS 180-4) *)

Definition Ch (x y z : Z) : Z := Z.lxor (Z.land x y) (Z.land (not32 x) z).
Definition Maj (x y z : Z) : Z :=
  Z.lxor (Z.lxor (Z.land x y) (Z.land x z)) (Z.land y z).
Definition Sigma0 (x : Z) : Z :=
  Z.lxor (Z.lxor (rotr32 2 x) (rotr32 13 x)) (rotr32 22 x).
Definition Sigma1 (x : Z) : Z :=
  Z.lxor (Z.lxor (rotr32 6 x) (rotr32 11 x)) (rotr32 25 x).
Definition sigma0 (x : Z) : Z :=
  Z.lxor (Z.lxor (rotr32 7 x) (rotr32 18 x)) (Z.shiftr x 3).
Definition sigma1 (x : Z) : Z :=
  Z.lxor (Z.lxor (rotr32 17 x) (rotr32 19 x)) (Z.shiftr x 10).

(** The round constants, as FIPS 180-4 prints them. *)
Definition K256 : list Z :=
  map (fun s => from_bytes_big (unhex s))
  [
    "428a2f98"; "71374491"; "b5c0fbcf"; "e9b5dba5";
    "3956c25b"; "59f111f1"; "923f82a4"; "ab1c5ed5";
    "d807aa98"; "12835b01"; "243185be"; "550c7dc3";
    "72be5d74"; "80deb1fe"; "9bdc06a7"; "c19bf174";
    "e49b69c1"; "efbe4786"; "0fc19dc6"; "240ca1cc";
    "2de92c6f"; "4a7484aa"; "5cb0a9dc"; "76f988da";
    "983e5152"; "a831c66d"; "b00327c8"; "bf597fc7";
    "c6e00bf3"; "d5a79147"; "06ca6351"; "14292967";
    "27b70a85"; "2e1b2138"; "4d2c6dfc"; "53380d13";
    "650a7354"; "766a0abb"; "81c2c92e"; "92722c85";
    "a2bfe8a1"; "a81a664b"; "c24b8b70"; "c76c51a3";
    "d192e819"; "d6990624"; "f40e3585"; "106aa070";
    "19a4c116"; "1e376c08"; "2748774c"; "34b0bcb5";
    "391c0cb3"; "4ed8aa4a"; "5b9cca4f"; "682e6ff3";
    "748f82ee"; "78a5636f"; "84c87814"; "8cc70208";
    "90befffa"; "a4506ceb"; "bef9a3f7"; "c67178f2" ]%string.

Record state256 : Type := mk256 {
  s_a : Z; s_b : Z; s_c : Z; s_d : Z; s_e : Z; s_f : Z; s_g : Z; s_h : Z
}.

Definition init256 : state256 :=
  mk256 0x6a09e667 0xbb67ae85 0x3c6ef372 0xa54ff53a
        0x510e527f 0x9b05688c 0x1f83d9ab 0x5be0cd19.

(** The message schedule, newest word first: [recent] holds W[t-1], W[t-2],
    ... and the function returns W[63] ... W[0]. *)
Fixpoint schedule (fuel : nat) (recent : list Z) : list Z :=
  match fuel with
  | O => recent
  | S f =>
      let w :=
        add32 (add32 (add32 (sigma1 (nth 1 recent 0)) (nth 6 recent 0))
                 (sigma0 (nth 14 recent 0)))
          (nth 15 recent 0) in
      schedule f (w :: recent)
  end.

Definition round256 (s : state256) (kw : Z * Z) : state256 :=
  let '(k, w) := kw in
  let t1 :=
    add32 (add32 (add32 (add32 (s_h s) (Sigma1 (s_e s)))
                    (Ch (s_e s) (s_f s) (s_g s))) k) w in
  let t2 := add32 (Sigma0 (s_a s)) (Maj (s_a s) (s_b s) (s_c s)) in
  mk256 (add32 t1 t2) (s_a s) (s_b s) (s_c s)
        (add32 (s_d s) t1) (s_e s) (s_f s) (s_g s).

Definition compress256 (h : state256) (block : bytes) : state256 :=
  let w := rev (schedule 48 (rev (words 16 word_be block))) in
  let s := fold_left round256 (combine K256 w) h in
  mk256 (add32 (s_a h) (s_a s)) (add32 (s_b h) (s_b s))
        (add32 (s_c h) (s_c s)) (add32 (s_d h) (s_d s))
        (add32 (s_e h) (s_e s)) (add32 (s_f h) (s_f s))
        (add32 (s_g h) (s_g s)) (add32 (s_h h) (s_h s)).

Definition digest256 (s : state256) : bytes :=
  bytes_be32 (s_a s) ++ bytes_be32 (s_b s) ++ bytes_be32 (s_c s) ++
  bytes_be32 (s_d s) ++ bytes_be32 (s_e s) ++ bytes_be32 (s_f s) ++
  bytes_be32 (s_g s) ++ bytes_be32 (s_h s).

(** [hashlib.sha256(msg).digest()]. *)
Definition sha256 (msg : bytes) : bytes :=
  let padded := pad len8_be msg in
  digest256 (fold_left compress256 (chunks (length padded) 64 padded) init256).

(** ** RIPEMD-160 *)

Definition f160 (j x y z : Z) : Z :=
  if j <? 16 then Z.lxor (Z.lxor x y) z
  else if j <? 32 then Z.lor (Z.land x y) (Z.land (not32 x) z)
  else if j <? 48 then Z.lxor (Z.lor x (not32 y)) z
  else if j <? 64 then Z.lor (Z.land x z) (Z.land y (not32 z))
  else Z.lxor x (Z.lor y (not32 z)).

Definition K160_left : list Z :=
  [0x00000000; 0x5a827999; 0x6ed9eba1; 0x8f1bbcdc; 0xa953fd4e].

Definition K160_right : list Z :=
  [0x50a28be6; 0x5c4dd124; 0x6d703ef3; 0x7a6d76e9; 0x00000000].

Definition r160_left : list Z :=
  [ 0; 1; 2; 3; 4; 5; 6; 7; 8; 9; 10; 11; 12; 13; 14; 15;
    7; 4; 13; 1; 10; 6; 15; 3; 12; 0; 9; 5; 2; 14; 11; 8;
    3; 10; 14; 4; 9; 15; 8; 1; 2; 7; 0; 6; 13; 11; 5; 12;
    1; 9; 11; 10; 0; 8; 12; 4; 13; 3; 7; 15; 14; 5; 6; 2;
    4; 0; 5; 9; 7; 12; 2; 10; 14; 1; 3; 8; 11; 6; 15; 13 ].

Definition r160_right : list Z :=
  [ 5; 14; 7; 0; 9; 2; 11; 4; 13; 6; 15; 8; 1; 10; 3; 12;
    6; 11; 3; 7; 0; 13; 5; 10; 14; 15; 8; 12; 4; 9; 1; 2;
    15; 5; 1; 3; 7; 14; 6; 9; 11; 8; 12; 2; 10; 0; 4; 13;
    8; 6; 4; 1; 3; 11; 15; 0; 5; 12; 2; 13; 9; 7; 10; 14;
    12; 15; 10; 4; 1; 5; 8; 7; 6; 2; 13; 14; 0; 3; 9; 11 ].

Definition s160_left : list Z :=
  [ 11; 14; 15; 12; 5; 8; 7; 9; 11; 13; 14; 15; 6; 7; 9; 8;
    7; 6; 8; 13; 11; 9; 7; 15; 7; 12; 15; 9; 11; 7; 13; 12;
    11; 13; 6; 7; 14; 9; 13; 15; 14; 8; 13; 6; 5; 12; 7; 5;
    11; 12; 14; 15; 14; 15; 9; 8; 9; 14; 5; 6; 8; 6; 5; 12;
    9; 15; 5; 11; 6; 8; 13; 12; 5; 12; 13; 14; 11; 8; 5; 6 ].

Definition s160_right : list Z :=
  [ 8; 9; 9; 11; 13; 15; 15; 5; 7; 7; 8; 11; 14; 14; 12; 6;
    9; 13; 15; 7; 12; 8; 9; 11; 7; 7; 12; 7; 6; 15; 13; 11;
    9; 7; 15; 11; 8; 6; 6; 14; 12; 13; 5; 14; 13; 13; 7; 5;
    15; 5; 8; 11; 14; 14; 6; 14; 6; 9; 12; 9; 12; 5; 15; 8;
    8; 5; 12; 9; 12; 5; 14; 6; 8; 13; 6; 5; 15; 13; 11; 11 ].

Record state160 : Type := mk160 {
  r_a : Z; r_b : Z; r_c : Z; r_d : Z; r_e : Z
}.

Definition init160 : state160 :=
  mk160 0x67452301 0xefcdab89 0x98badcfe 0x10325476 0xc3d2e1f0.

Definition at_ (tbl : list Z) (j : Z) : Z := nth (Z.to_nat j) tbl 0.

(** One step of a line: [fj] selects the boolean function, [k] is the
    round constant, [x] the message word and [s] the rotation. *)
Definition step160 (fj k x s : Z) (st : state160) : state160 :=
  let t :=
    add32 (rotl32 s (add32 (add32 (add32 (r_a st)
                                     (f160 fj (r_b st) (r_c st) (r_d st))) x) k))
      (r_e st) in
  mk160 (r_e st) t (r_b st) (rotl32 10 (r_c st)) (r_d st).

Definition left160 (x : list Z) (st : state160) (j : Z) : state160 :=
  step160 j (at_ K160_left (j / 16)) (at_ x (at_ r160_left j))
    (at_ s160_left j) st.

Definition right160 (x : list Z) (st : state160) (j : Z) : state160 :=
  step160 (79 - j) (at_ K160_right (j / 16)) (at_ x (at_ r160_right j))
    (at_ s160_right j) st.

Definition steps80 : list Z := map Z.of_nat (seq 0 80).

Definition compress160 (h : state160) (block : bytes) : state160 :=
  let x := words 16 word_le block in
  let l := fold_left (left160 x) steps80 h in
  let r := fold_left (right160 x) steps80 h in
  mk160 (add32 (add32 (r_b h) (r_c l)) (r_d r))
        (add32 (add32 (r_c h) (r_d l)) (r_e r))
        (add32 (add32 (r_d h) (r_e l)) (r_a r))
        (add32 (add32 (r_e h) (r_a l)) (r_b r))
        (add32 (add32 (r_a h) (r_b l)) (r_c r)).

Definition digest160 (s : state160) : bytes :=
  bytes_le32 (r_a s) ++ bytes_le32 (r_b s) ++ bytes_le32 (r_c s) ++
  bytes_le32 (r_d s) ++ bytes_le32 (r_e s).

(** [hashlib.new('ripemd160', msg).digest()]. *)
Definition ripemd160 (msg : bytes) : bytes :=
  let padded := pad len8_le msg in
  digest160 (fold_left compress160 (chunks (length padded) 64 padded) init160).

End Hashlib.

(* ===================================================================== *)
(** * functions/hashfunctions.py                                          *)
(* ===================================================================== *)

Module HashFunctions.

(** Modelled from the spec: functions/hashfunctions.py, which
    functions/addresses.py imports with [from functions.hashfunctions import *],
    is not among the sources.  The spec gives [double_hash] as two sequential
    SHA-256 passes returning 32 bytes. *)
Definition hash256 (data : bytes) : bytes :=
  Hashlib.sha256 (Hashlib.sha256 data).

(** Modelled from the spec: functions/hashfunctions.py is not among the
    sources.  The spec gives HASH160 as the SHA-256 digest followed by the
    RIPEMD-160 digest, returning 20 bytes. *)
Definition hash160 (data : bytes) : bytes :=
  Hashlib.ripemd160 (Hashlib.sha256 data).

End HashFunctions.

Definition bytes_of_string (s : string) : bytes := list_byte_of_string s.

(** Python truth value of an int. *)
Definition truthy (n : Z) : bool := negb (n =? 0).

(** [seq * n]: [n] copies of [seq], none when [n] is not positive. *)
Definition times {A : Type} (l : list A) (n : Z) : list A :=
  concat (repeat l (Z.to_nat n)).

(** Index of the first occurrence of [x], as [bytes.find] and the items of
    [enumerate] give it. *)
Fixpoint index_of {A : Type} (eqb : A -> A -> bool) (x : A) (l : list A)
  : option Z :=
  match l with
  | [] => None
  | y :: rest =>
      if eqb x y then Some 0
      else match index_of eqb x rest with
           | Some i => Some (i + 1)
           | None => None
           end
  end.

(* ===================================================================== *)
(** * base58 (the PyPI package, release 2.1)                              *)
(* ===================================================================== *)

Module Base58.

Definition BITCOIN_ALPHABET : bytes :=
  bytes_of_string "123456789ABCDEFGHJKLMNPQRSTUVWXYZabcdefghijkmnopqrstuvwxyz".

Definition alphabet : bytes := BITCOIN_ALPHABET.

Definition base : Z := Z.of_nat (length alphabet).

(** The [while i:] loop of [b58encode_int]. *)
Fixpoint b58encode_loop (fuel : nat) (i : Z) (string : bytes) : bytes :=
  match fuel with
  | O => string
  | S f =>
      if truthy i then
        let idx := i mod base in
        b58encode_loop f (i / base)
          (firstn 1 (skipn (Z.to_nat idx) alphabet) ++ string)
      else string
  end.

Definition b58encode_int (i : Z) (default_one : bool) : bytes :=
  if negb (truthy i) && default_one then firstn 1 alphabet
  else b58encode_loop (Z.to_nat (bit_length i)) i [].

Definition b58encode (v : bytes) : bytes :=
  let origlen := Z.of_nat (length v) in
  let v := lstrip x00 v in
  let newlen := Z.of_nat (length v) in
  let acc := from_bytes_big v in
  let result := b58encode_int acc false in
  times (firstn 1 alphabet) (origlen - newlen) ++ result.

(** [scrub_input] on a [str]. *)
Definition scrub_input (v : string) : outcome bytes := encode_ascii v.

(** [map[char]] in [b58decode_int]; a missing key becomes a ValueError. *)
Definition decode_map (char : byte) : outcome Z :=
  match index_of Byte.eqb char alphabet with
  | Some i => Returned i
  | None => Raised ValueError
  end.

Fixpoint b58decode_loop (v : bytes) (decimal : Z) : outcome Z :=
  match v with
  | [] => Returned decimal
  | char :: rest =>
      match decode_map char with
      | Returned d => b58decode_loop rest (decimal * base + d)
      | Raised e => Raised e
      end
  end.

Definition b58decode_int (v : bytes) : outcome Z :=
  let v := if existsb (Byte.eqb " "%byte) alphabet then v else bytes_rstrip v in
  b58decode_loop v 0.

Definition b58decode (v : string) : outcome bytes :=
  call (
    let v := str_rstrip v in
    v <- lift (scrub_input v) ;;
    let origlen := Z.of_nat (length v) in
    let v := lstrip (hd x00 (firstn 1 alphabet)) v in
    let newlen := Z.of_nat (length v) in
    acc <- lift (b58decode_int v) ;;
    r <- lift (to_bytes_big acc (origlen - newlen + (bit_length acc + 7) / 8)) ;;
    Return r).

(** [scrub_input] and [b58decode] on any [str], given by its code points:
    the same statements, with [str.rstrip] and [str.encode] on all of
    Unicode. *)
Definition scrub_text (v : text) : outcome bytes := text_encode_ascii v.

Definition b58decode_text (v : text) : outcome bytes :=
  call (
    let v := text_rstrip v in
    v <- lift (scrub_text v) ;;
    let origlen := Z.of_nat (length v) in
    let v := lstrip (hd x00 (firstn 1 alphabet)) v in
    let newlen := Z.of_nat (length v) in
    acc <- lift (b58decode_int v) ;;
    r <- lift (to_bytes_big acc (origlen - newlen + (bit_length acc + 7) / 8)) ;;
    Return r).

End Base58.

(* ===================================================================== *)
(** * bech32 (the PyPI package, the BIP 173 reference code)               *)
(* ===================================================================== *)

Module Bech32.

Definition CHARSET : string := "qpzry9x8gf2tvdw0s3jn54khce6mua7l".

Definition ord (c : ascii) : Z := Z.of_N (N_of_ascii c).

Definition generator : list Z :=
  [0x3b6a57b2; 0x26508e6d; 0x1ea119fa; 0x3d4233dd; 0x2a1462b3].

Definition polymod_step (chk value : Z) : Z :=
  let top := Z.shiftr chk 25 in
  let chk := Z.lxor (Z.shiftl (Z.land chk 0x1ffffff) 5) value in
  fold_left
    (fun chk i =>
       Z.lxor chk
         (if truthy (Z.land (Z.shiftr top (Z.of_nat i)) 1)
          then nth i generator 0 else 0))
    (seq 0 5) chk.

Definition bech32_polymod (values : list Z) : Z :=
  fold_left polymod_step values 1.

Definition bech32_hrp_expand (hrp : string) : list Z :=
  map (fun x => Z.shiftr (ord x) 5) (list_ascii_of_string hrp) ++ [0] ++
  map (fun x => Z.land (ord x) 31) (list_ascii_of_string hrp).

Definition bech32_verify_checksum (hrp : string) (data : list Z) : bool :=
  bech32_polymod (bech32_hrp_expand hrp ++ data) =? 1.

Definition bech32_create_checksum (hrp : string) (data : list Z) : list Z :=
  let values := bech32_hrp_expand hrp ++ data in
  let polymod := Z.lxor (bech32_polymod (values ++ [0; 0; 0; 0; 0; 0])) 1 in
  map (fun i => Z.land (Z.shiftr polymod (5 * (5 - Z.of_nat i))) 31) (seq 0 6).

(** [[CHARSET[d] for d in combined]]. *)
Fixpoint charset_of (combined : list Z) : outcome (list ascii) :=
  match combined with
  | [] => Returned []
  | d :: rest =>
      match getitem (list_ascii_of_string CHARSET) d with
      | Returned c =>
          match charset_of rest with
          | Returned cs => Returned (c :: cs)
          | Raised e => Raised e
          end
      | Raised e => Raised e
      end
  end.

Definition bech32_encode (hrp : string) (data : list Z) : outcome string :=
  let combined := data ++ bech32_create_checksum hrp data in
  match charset_of combined with
  | Returned cs => Returned (hrp ++ "1" ++ string_of_list_ascii cs)%string
  | Raised e => Raised e
  end.

(** [str.lower] and [str.upper] on printable ASCII, where [bech32_decode]
    applies them. *)
Definition lower (c : ascii) : ascii :=
  if (65 <=? ord c) && (ord c <=? 90) then ascii_of_N (Z.to_N (ord c + 32))
  else c.

Definition upper (c : ascii) : ascii :=
  if (97 <=? ord c) && (ord c <=? 122) then ascii_of_N (Z.to_N (ord c - 32))
  else c.

Definition ascii_list_eqb (a b : list ascii) : bool :=
  String.eqb (string_of_list_ascii a) (string_of_list_ascii b).

(** [s.rfind(c)], or -1. *)
Fixpoint rfind (c : ascii) (s : list ascii) : Z :=
  match s with
  | [] => -1
  | x :: rest =>
      let r := rfind c rest in
      if 0 <=? r then r + 1
      else if Ascii.eqb x c then 0 else -1
  end.

Definition charset_find (x : ascii) : Z :=
  match index_of Ascii.eqb x (list_ascii_of_string CHARSET) with
  | Some i => i
  | None => -1
  end.

(** [bech32_decode]: [None] stands for the pair [(None, None)].  The
    package tests [pos < 1 or pos + 7 > len(bech)] only; the limit of 90
    characters of BIP 173 is commented out in it. *)
Definition bech32_decode (bech : string) : option (string * list Z) :=
  let b := list_ascii_of_string bech in
  if existsb (fun x => (ord x <? 33) || (126 <? ord x)) b then None
  else if negb (ascii_list_eqb (map lower b) b)
          && negb (ascii_list_eqb (map upper b) b) then None
  else
    let b := map lower b in
    let pos := rfind "1"%char b in
    let n := Z.of_nat (length b) in
    if (pos <? 1) || (n <? pos + 7) then None
    else
      let rest := skipn (Z.to_nat (pos + 1)) b in
      if negb (forallb (fun x => 0 <=? charset_find x) rest) then None
      else
        let hrp := string_of_list_ascii (firstn (Z.to_nat pos) b) in
        let data := map charset_find rest in
        if negb (bech32_verify_checksum hrp data) then None
        else Some (hrp, firstn (length data - 6) data).

(** The inner [while bits >= tobits] loop of [convertbits]. *)
Fixpoint drain (fuel : nat) (tobits maxv acc bits : Z) (ret : list Z)
  : Z * list Z :=
  match fuel with
  | O => (bits, ret)
  | S f =>
      if tobits <=? bits then
        let bits := bits - tobits in
        drain f tobits maxv acc bits (ret ++ [Z.land (Z.shiftr acc bits) maxv])
      else (bits, ret)
  end.

(** The [for value in data] loop of [convertbits]; [None] is its
    [return None]. *)
Fixpoint convert_loop (frombits tobits : Z) (data : list Z)
    (acc bits : Z) (ret : list Z) : option (Z * Z * list Z) :=
  match data with
  | [] => Some (acc, bits, ret)
  | value :: rest =>
      if (value <? 0) || truthy (Z.shiftr value frombits) then None
      else
        let maxv := Z.shiftl 1 tobits - 1 in
        let max_acc := Z.shiftl 1 (frombits + tobits - 1) - 1 in
        let acc := Z.land (Z.lor (Z.shiftl acc frombits) value) max_acc in
        let bits := bits + frombits in
        let '(bits, ret) := drain (Z.to_nat bits) tobits maxv acc bits ret in
        convert_loop frombits tobits rest acc bits ret
  end.

Definition convertbits (data : list Z) (frombits tobits : Z) (pad : bool)
  : option (list Z) :=
  let maxv := Z.shiftl 1 tobits - 1 in
  match convert_loop frombits tobits data 0 0 [] with
  | None => None
  | Some (acc, bits, ret) =>
      if pad then
        if truthy bits
        then Some (ret ++ [Z.land (Z.shiftl acc (tobits - bits)) maxv])
        else Some ret
      else if (frombits <=? bits)
              || truthy (Z.land (Z.shiftl acc (tobits - bits)) maxv)
      then None
      else Some ret
  end.

(** [decode(hrp, addr)]: [None] stands for the pair [(None, None)]. *)
Definition decode (hrp : string) (addr : string) : outcome (option (Z * list Z)) :=
  call (
    match bech32_decode addr with
    | None => Return None
    | Some (hrpgot, data) =>
        if negb (String.eqb hrpgot hrp) then Return None
        else
          match convertbits (skipn 1 data) 5 8 false with
          | None => Return None
          | Some decoded =>
              let n := Z.of_nat (length decoded) in
              if (n <? 2) || (40 <? n) then Return None
              else
                d0 <- lift (getitem data 0) ;;
                if 16 <? d0 then Return None
                else if (d0 =? 0) && negb (n =? 20) && negb (n =? 32)
                then Return None
                else Return (Some (d0, decoded))
          end
    end).

(** [encode(hrp, witver, witprog)]: the address, or [None]. *)
Definition encode (hrp : string) (witver : Z) (witprog : bytes)
  : outcome (option string) :=
  call (
    conv <- match convertbits (map int_of_byte witprog) 8 5 true with
            | Some c => Next c
            | None => Raise TypeError
            end ;;
    ret <- lift (bech32_encode hrp ([witver] ++ conv)) ;;
    d <- lift (decode hrp ret) ;;
    match d with
    | None => Return None
    | Some _ => Return (Some ret)
    end).

End Bech32.

(* ===================================================================== *)
(** * functions/addresses.py                                              *)
(* ===================================================================== *)

Module Addresses.
Import HashFunctions.

Section KeyProvider.

(** [ecdsa.SigningKey.from_string(privkey, curve=ecdsa.SECP256k1)
    .get_verifying_key().to_string()]: the raw x ‖ y encoding of the public
    point, or the library's exception for a malformed private key. *)
Variable verifying_key_string : bytes -> outcome bytes.

(** Lines 12 to 18: from the raw public key to the compressed one. *)
Definition compress_pubkey (raw : bytes) : flow bytes bytes :=
  xs <- lift (fromhex (hex raw)) ;;
  let x_cor := firstn 32 xs in
  ys <- lift (fromhex (hex raw)) ;;
  let y_cor := skipn 32 ys in
  if from_bytes_big_signed y_cor mod 2 =? 0 then
    p <- lift (fromhex "02") ;; Next (p ++ x_cor)
  else
    p <- lift (fromhex "03") ;; Next (p ++ x_cor).

Definition privkey_to_pubkey (privkey : bytes) : outcome bytes :=
  call (
    uncompressed_pubkey <- lift (verifying_key_string privkey) ;;
    compressed_pubkey <- compress_pubkey uncompressed_pubkey ;;
    Return compressed_pubkey).

End KeyProvider.

(** ** Base58 *)

Definition encode_base58_checksum (b : bytes) : string :=
  str_of_ascii_bytes (Base58.b58encode (b ++ firstn 4 (hash256 b))).

Definition decode_base58 (s : string) : outcome bytes :=
  Base58.b58decode s.

(** [decode_base58] on any [str], given by its code points; on a [string]
    it is [decode_base58] (lemma [decode_base58_text_of_string]). *)
Definition decode_base58_text (s : text) : outcome bytes :=
  Base58.b58decode_text s.

Definition pk_to_p2pkh (compressed : bytes) (network : string) : outcome string :=
  call (
    let pk_hash := hash160 compressed in
    prefix <-
      (if (network =? "regtest")%string || (network =? "testnet")%string then
         lift (fromhex "6f")
       else if (network =? "mainnet")%string then
         lift (fromhex "00")
       else Return "Enter the network: testnet/regtest/mainnet"%string) ;;
    Return (encode_base58_checksum (prefix ++ pk_hash))).

Definition script_to_p2sh (redeemScript : bytes) (network : string)
  : outcome string :=
  call (
    let rs_hash := hash160 redeemScript in
    prefix <-
      (if (network =? "regtest")%string || (network =? "testnet")%string then
         lift (fromhex "c4")
       else if (network =? "mainnet")%string then
         lift (fromhex "05")
       else Return "Enter the network: tesnet/regtest/mainnet"%string) ;;
    Return (encode_base58_checksum (prefix ++ rs_hash))).

(** ** Segwit *)

(** The arguments of the call [bech32.encode(prefix, version, program)]. *)
Record encode_args : Type := mk_args {
  arg_hrp : string;
  arg_witver : Z;
  arg_witprog : bytes
}.

(** [version = spk[0] - 0x50 if spk[0] else 0]. *)
Definition version_of (spk : bytes) : outcome Z :=
  match getitem spk 0 with
  | Returned c =>
      if truthy (int_of_byte c) then
        match getitem spk 0 with
        | Returned s0 => Returned (int_of_byte s0 - 0x50)
        | Raised e => Raised e
        end
      else Returned 0
  | Raised e => Raised e
  end.

(** Lines 59 to 66, shared word for word by the two native builders: the
    local [prefix] is unassigned ([None]) at first; the first [if] stands
    alone, the [elif] and the [else] belong to the second. *)
Definition select_hrp (network : string) : flow (option string) string :=
  let prefix : option string := None in
  let prefix := if (network =? "testnet")%string then Some "tb"%string else prefix in
  prefix <-
    (if (network =? "regtest")%string then Next (Some "bcrt"%string)
     else if (network =? "mainnet")%string then Next (Some "bc"%string)
     else Return (Some "Enter the network: testnet/regtest/mainnet"%string)) ;;
  local prefix.

(** Lines 55 to 66 of [pk_to_p2wpkh]: everything before the final call. *)
Definition pk_to_p2wpkh_args (compressed : bytes) (network : string)
  : flow (option string) encode_args :=
  let pk_hash := hash160 compressed in
  op <- lift (fromhex "0014") ;;
  let spk := op ++ pk_hash in
  version <- lift (version_of spk) ;;
  let program := skipn 2 spk in
  prefix <- select_hrp network ;;
  Next (mk_args prefix version program).

Definition pk_to_p2wpkh (compressed : bytes) (network : string)
  : outcome (option string) :=
  call (
    a <- pk_to_p2wpkh_args compressed network ;;
    r <- lift (Bech32.encode (arg_hrp a) (arg_witver a) (arg_witprog a)) ;;
    Return r).

(** Lines 71 to 82 of [script_to_p2wsh]: everything before the final call. *)
Definition script_to_p2wsh_args (redeemScript : bytes) (network : string)
  : flow (option string) encode_args :=
  let script_hash := Hashlib.sha256 redeemScript in
  op <- lift (fromhex "0020") ;;
  let spk := op ++ script_hash in
  version <- lift (version_of spk) ;;
  let program := skipn 2 spk in
  prefix <- select_hrp network ;;
  Next (mk_args prefix version program).

Definition script_to_p2wsh (redeemScript : bytes) (network : string)
  : outcome (option string) :=
  call (
    a <- script_to_p2wsh_args redeemScript network ;;
    r <- lift (Bech32.encode (arg_hrp a) (arg_witver a) (arg_witprog a)) ;;
    Return r).

Definition pk_to_p2sh_p2wpkh (compressed : bytes) (network : string)
  : outcome string :=
  call (
    let pk_hash := hash160 compressed in
    redeemScript <- lift (fromhex ("0014" ++ hex pk_hash)) ;;
    let rs_hash := hash160 redeemScript in
    prefix <-
      (if (network =? "regtest")%string || (network =? "testnet")%string then
         Next [xc4]
       else if (network =? "mainnet")%string then
         Next [x05]
       else Return "Enter the network: tesnet/regtest/mainnet"%string) ;;
    Return (encode_base58_checksum (prefix ++ rs_hash))).

End Addresses.

(* ===================================================================== *)
(** * Definitions used by the statements and proofs                     *)
(* ===================================================================== *)

Import Addresses HashFunctions.

(** The compressed and the raw encoding of the secp256k1 generator, the
    public key of the private key 1. *)
Definition generator_pubkey : bytes :=
  unhex "0279be667ef9dcbbac55a06295ce870b07029bfcdb2dce28d959f2815b16f81798".

Definition generator_raw : bytes :=
  unhex ("79be667ef9dcbbac55a06295ce870b07029bfcdb2dce28d959f2815b16f81798" ++
         "483ada7726a3c4655da4fbfc0e1108a8fd17b448a68554199c47d08ffb10d4b8").

(** The symbol [alphabet[d:d+1]] of a base-58 digit, and what the proofs
    check of every symbol: it decodes to its digit, and only the digit 0 is
    written 1. *)
Definition symbol (d : Z) : bytes :=
  firstn 1 (skipn (Z.to_nat d) Base58.alphabet).

Definition symbol_ok (d : Z) : bool :=
  match symbol d with
  | [c] =>
      match Base58.decode_map c with
      | Returned d' => d' =? d
      | Raised _ => false
      end
      && (if d =? 0 then true else negb (Byte.eqb "1"%byte c))
  | _ => false
  end.

(** A byte that is neither white space nor outside ASCII. *)
Definition plain (c : byte) : bool :=
  negb (ascii_space (int_of_byte c))
  && negb (str_space (Z.of_N (N_of_ascii (ascii_of_byte c))))
  && (Z.of_N (N_of_ascii (ascii_of_byte c)) <? 128).

(** The two replies by which the builders report a network they do not
    know. *)
Definition prompt : string := "Enter the network: testnet/regtest/mainnet".
Definition prompt_p2sh : string := "Enter the network: tesnet/regtest/mainnet".

Definition UnknownNetwork (reply : string) : Prop :=
  reply = prompt \/ reply = prompt_p2sh.

(** A string that no encoder of the module produces. *)
Definition no_address (reply : string) : Prop :=
  (forall payload, reply <> encode_base58_checksum payload) /\
  (forall hrp witver witprog,
      Bech32.encode hrp witver witprog <> Returned (Some reply)).

(** A network name the legacy builders know. *)
Definition known_network (network : string) : Prop :=
  network = "mainnet"%string \/ network = "testnet"%string \/
  network = "regtest"%string.

(** The version bytes the legacy builders put before the hash. *)
Definition p2pkh_version (network : string) : byte :=
  if (network =? "mainnet")%string then x00 else x6f.

Definition p2sh_version (network : string) : byte :=
  if (network =? "mainnet")%string then x05 else xc4.

(** Membership in the base-58 alphabet, and what the proofs check of every
    member: it has a digit, the digit's symbol is the member itself, and only
    the symbol 1 has digit 0. *)
Definition in_alphabet (c : byte) : bool :=
  existsb (Byte.eqb c) Base58.alphabet.

Definition member_ok (c : byte) : bool :=
  match Base58.decode_map c with
  | Returned d =>
      (0 <=? d) && (d <? 58)
      && match symbol d with
         | [c'] => Byte.eqb c c'
         | _ => false
         end
      && (if d =? 0 then Byte.eqb c "1"%byte else true)
  | Raised _ => false
  end.

(** A code point of ASCII, and the code point of a base-58 symbol. *)
Definition point_is_ascii (c : N) : bool := Z.of_N c <? 128.

Definition point_is_symbol (c : N) : bool :=
  existsb (N.eqb c) (map Byte.to_N Base58.alphabet).

(** What [b58decode] does with the bytes of the scrubbed text. *)
Definition b58decode_bytes (v : bytes) : outcome bytes :=
  match Base58.b58decode_loop (lstrip "1"%byte v) 0 with
  | Returned acc =>
      to_bytes_big acc
        (Z.of_nat (length v) - Z.of_nat (length (lstrip "1"%byte v)) +
         (bit_length acc + 7) / 8)
  | Raised e => Raised e
  end.

(** Following the spec (4.2 and 6): the base-58 encoding is the standard
    Bitcoin scheme, a big integer written over the alphabet below, leading
    zero bytes kept.  A character stands for its position in the alphabet,
    a text for the number its characters write in base 58, most significant
    first. *)
Definition spec_base58_alphabet : string :=
  "123456789ABCDEFGHJKLMNPQRSTUVWXYZabcdefghijkmnopqrstuvwxyz".

Definition spec_base58_digit (c : ascii) : option Z :=
  index_of Ascii.eqb c (list_ascii_of_string spec_base58_alphabet).

Fixpoint spec_base58_number (t : list ascii) (acc : Z) : option Z :=
  match t with
  | [] => Some acc
  | c :: rest =>
      match spec_base58_digit c with
      | Some d => spec_base58_number rest (acc * 58 + d)
      | None => None
      end
  end.

(** How many times [x] stands at the head of [l]. *)
Fixpoint leading {A : Type} (eqb : A -> A -> bool) (x : A) (l : list A) : nat :=
  match l with
  | y :: rest => if eqb x y then S (leading eqb x rest) else O
  | [] => O
  end.

(** Following the spec: [t] is the base-58 encoding of the bytes [v] when it
    writes the big-endian number of [v] and starts with one 1, the digit
    zero, for each leading zero byte of [v], and no more. *)
Definition spec_base58_encoding (v : bytes) (t : string) : bool :=
  let chars := list_ascii_of_string t in
  Nat.eqb (leading Ascii.eqb "1"%char chars) (leading Byte.eqb x00 v)
  && match spec_base58_number chars 0 with
     | Some n => n =? from_bytes_big v
     | None => false
     end.

(** The integer a list of [w]-bit groups writes, most significant group
    first. *)
Definition groups_value (w : Z) (l : list Z) : Z :=
  fold_left (fun a v => a * 2 ^ w + v) l 0.

Definition groups_ok (w : Z) (l : list Z) : Prop :=
  Forall (fun v => 0 <= v < 2 ^ w) l.

(** The generators selected by the low five bits of [top], combined. *)
Definition selected (top : Z) : Z :=
  fold_left
    (fun chk i =>
       Z.lxor chk
         (if truthy (Z.land (Z.shiftr top (Z.of_nat i)) 1)
          then nth i Bech32.generator 0 else 0))
    (seq 0 5) 0.

(** The character of a five-bit group, and what the proofs check of each
    of the 32 groups: [CHARSET.find] gives the group back, the character is
    printable, lower case and not the separator. *)
Definition charset_char (d : Z) : ascii :=
  nth (Z.to_nat d) (list_ascii_of_string Bech32.CHARSET) "q"%char.

Definition group_ok (d : Z) : bool :=
  let c := charset_char d in
  (Bech32.charset_find c =? d)
  && negb ((Bech32.ord c <? 33) || (126 <? Bech32.ord c))
  && Ascii.eqb (Bech32.lower c) c
  && negb (Ascii.eqb c "1"%char).

(** A human-readable part [bech32_decode] accepts unchanged: not empty,
    printable and lower case. *)
Definition hrp_ok (hrp : string) : bool :=
  let h := list_ascii_of_string hrp in
  negb (Nat.eqb (length h) 0)
  && forallb (fun x => negb ((Bech32.ord x <? 33) || (126 <? Bech32.ord x))) h
  && forallb (fun x => Ascii.eqb (Bech32.lower x) x) h.

(** The human-readable part of a network, for the native segwit
    builders. *)
Definition segwit_hrp (network : string) : string :=
  if (network =? "regtest")%string then "bcrt" else "bc".

(** A network on which the native segwit builders reach the encoder. *)
Definition segwit_network (network : string) : Prop :=
  network = "regtest"%string \/ network = "mainnet"%string.

(* ===================================================================== *)
(** * Python values                                                     *)
(* ===================================================================== *)

(** ** Bytes and ints *)

Lemma int_of_byte_range (b : byte) : 0 <= int_of_byte b < 256.
Proof.
  unfold int_of_byte. pose proof (Byte.to_N_bounded b). lia.
Qed.

Lemma byte_of_int_of_byte (b : byte) : byte_of_int (int_of_byte b) = b.
Proof.
  unfold byte_of_int.
  rewrite Z.mod_small by apply int_of_byte_range.
  unfold int_of_byte. rewrite N2Z.id, Byte.of_to_N. reflexivity.
Qed.

Lemma int_of_byte_of_int (z : Z) : int_of_byte (byte_of_int z) = z mod 256.
Proof.
  unfold byte_of_int, int_of_byte.
  pose proof (Z.mod_pos_bound z 256 ltac:(lia)) as Hz.
  destruct (Byte.of_N (Z.to_N (z mod 256))) as [b|] eqn:E.
  - apply Byte.to_of_N in E. rewrite E. lia.
  - apply Byte.of_N_None_iff in E. lia.
Qed.

Lemma byte_of_int_mod (z : Z) : byte_of_int (z mod 256) = byte_of_int z.
Proof. unfold byte_of_int. rewrite Z.mod_mod by lia. reflexivity. Qed.

Lemma byte_of_int_low (a x : Z) :
  0 <= x < 256 -> byte_of_int (a * 256 + x) = byte_of_int x.
Proof.
  intros Hx. unfold byte_of_int.
  replace ((a * 256 + x) mod 256) with (x mod 256); [reflexivity|].
  rewrite Z.add_comm, Z.mod_add by lia. reflexivity.
Qed.

(** ** Hexadecimal round trip *)

Lemma hexdigit_inv (n : Z) :
  0 <= n < 16 ->
  ascii_space (Z.of_N (N_of_ascii (hexdigit n))) = false /\
  hexval (hexdigit n) = Some n.
Proof.
  intros H.
  assert (E : In n (map Z.of_nat (seq 0 16))).
  { apply in_map_iff. exists (Z.to_nat n). split; [lia|].
    apply in_seq. lia. }
  simpl in E.
  repeat (destruct E as [<- | E]; [split; reflexivity|]).
  destruct E.
Qed.

Lemma fromhex_hex (b : bytes) : fromhex (hex b) = Returned b.
Proof.
  induction b as [|x rest IH]; [reflexivity|].
  pose proof (int_of_byte_range x) as Hx.
  assert (Hhi : 0 <= int_of_byte x / 16 < 16).
  { split; [apply Z.div_pos; lia | apply Z.div_lt_upper_bound; lia]. }
  assert (Hlo : 0 <= int_of_byte x mod 16 < 16) by (apply Z.mod_pos_bound; lia).
  destruct (hexdigit_inv _ Hhi) as [S1 V1].
  destruct (hexdigit_inv _ Hlo) as [_ V2].
  cbn [hex fromhex]. rewrite S1, V1, V2, IH.
  f_equal. f_equal.
  rewrite <- (byte_of_int_of_byte x) at 3. f_equal.
  pose proof (Z.div_mod (int_of_byte x) 16). lia.
Qed.

Lemma fromhex_script_0014 (h : bytes) :
  fromhex ("0014" ++ hex h) = Returned (x00 :: x14 :: h).
Proof.
  cbn [append fromhex]. 
  change (ascii_space (Z.of_N (N_of_ascii "0"))) with false.
  change (ascii_space (Z.of_N (N_of_ascii "1"))) with false.
  cbn [hexval]. rewrite fromhex_hex. reflexivity.
Qed.

(** ** Digest sizes *)

Lemma sha256_length (msg : bytes) : length (Hashlib.sha256 msg) = 32%nat.
Proof. reflexivity. Qed.

Lemma ripemd160_length (msg : bytes) : length (Hashlib.ripemd160 msg) = 20%nat.
Proof. reflexivity. Qed.

Lemma hash256_length (data : bytes) : length (HashFunctions.hash256 data) = 32%nat.
Proof. apply sha256_length. Qed.

Lemma hash160_length (data : bytes) : length (HashFunctions.hash160 data) = 20%nat.
Proof. apply ripemd160_length. Qed.

(** ** Big-endian integers *)

Lemma from_bytes_big_fold (l : bytes) (a : Z) :
  fold_left (fun acc x => acc * 256 + int_of_byte x) l a =
  a * 256 ^ Z.of_nat (length l) + from_bytes_big l.
Proof.
  unfold from_bytes_big. revert a.
  induction l as [|x l IH]; intros a.
  - simpl. lia.
  - cbn [fold_left length]. rewrite IH, (IH (0 * 256 + int_of_byte x)).
    rewrite Nat2Z.inj_succ, Z.pow_succ_r by lia. ring.
Qed.

Lemma from_bytes_big_cons (x : byte) (l : bytes) :
  from_bytes_big (x :: l) =
  int_of_byte x * 256 ^ Z.of_nat (length l) + from_bytes_big l.
Proof.
  unfold from_bytes_big at 1. cbn [fold_left].
  rewrite from_bytes_big_fold. ring.
Qed.

Lemma from_bytes_big_snoc (l : bytes) (x : byte) :
  from_bytes_big (l ++ [x]) = from_bytes_big l * 256 + int_of_byte x.
Proof. unfold from_bytes_big. rewrite fold_left_app. reflexivity. Qed.

Lemma from_bytes_big_range (l : bytes) :
  0 <= from_bytes_big l < 256 ^ Z.of_nat (length l).
Proof.
  induction l as [|x l IH].
  - cbn. lia.
  - rewrite from_bytes_big_cons. cbn [length].
    rewrite Nat2Z.inj_succ, Z.pow_succ_r by lia.
    pose proof (int_of_byte_range x). nia.
Qed.

Lemma from_bytes_big_zeros (k : nat) (l : bytes) :
  from_bytes_big (repeat x00 k ++ l) = from_bytes_big l.
Proof.
  induction k as [|k IH]; [reflexivity|].
  cbn [repeat app]. rewrite from_bytes_big_cons, IH.
  change (int_of_byte x00) with 0. lia.
Qed.

(** The signed reading has the parity of the unsigned one. *)
Lemma from_bytes_big_signed_parity (b : bytes) :
  from_bytes_big_signed b mod 2 = from_bytes_big b mod 2.
Proof.
  unfold from_bytes_big_signed.
  destruct ((0 <? 8 * Z.of_nat (length b)) &&
            Z.testbit (from_bytes_big b) (8 * Z.of_nat (length b) - 1)) eqn:E;
    [|reflexivity].
  apply andb_prop in E as [Hpos _]. apply Z.ltb_lt in Hpos.
  replace (2 ^ (8 * Z.of_nat (length b)))
    with (2 ^ (8 * Z.of_nat (length b) - 1) * 2).
  - replace (from_bytes_big b - 2 ^ (8 * Z.of_nat (length b) - 1) * 2)
      with (from_bytes_big b + (- 2 ^ (8 * Z.of_nat (length b) - 1)) * 2) by ring.
    apply Z.mod_add. lia.
  - rewrite Z.mul_comm, <- Z.pow_succ_r by lia. f_equal. lia.
Qed.

Lemma be_digits_zero (k : nat) : be_digits k 0 = repeat x00 k.
Proof.
  induction k as [|k IH]; [reflexivity|].
  cbn [be_digits]. change (0 / 256) with 0. rewrite IH.
  change [byte_of_int 0] with [x00]. symmetry. apply repeat_cons.
Qed.

Lemma be_digits_from_bytes (l : bytes) :
  be_digits (length l) (from_bytes_big l) = l.
Proof.
  induction l as [|x l IH] using rev_ind; [reflexivity|].
  rewrite length_app, Nat.add_comm. cbn [length Nat.add be_digits].
  rewrite from_bytes_big_snoc.
  pose proof (int_of_byte_range x) as Hx.
  rewrite Z.div_add_l by lia. rewrite Z.div_small by lia.
  rewrite Z.add_0_r, IH, byte_of_int_low by lia.
  rewrite byte_of_int_of_byte. reflexivity.
Qed.

Lemma be_digits_pad (k n : nat) (m : Z) :
  0 <= m < 256 ^ Z.of_nat n ->
  be_digits (k + n) m = repeat x00 k ++ be_digits n m.
Proof.
  revert m. induction n as [|n IH]; intros m Hm.
  - cbn in Hm. assert (m = 0) by lia. subst m.
    rewrite Nat.add_0_r, be_digits_zero. cbn. rewrite app_nil_r. reflexivity.
  - rewrite Nat.add_succ_r. cbn [be_digits].
    rewrite IH, app_assoc; [reflexivity|].
    rewrite Nat2Z.inj_succ, Z.pow_succ_r in Hm by lia.
    split; [apply Z.div_pos; lia | apply Z.div_lt_upper_bound; lia].
Qed.

(** ** Stripping *)

Lemma lstrip_split (x : byte) (v : bytes) :
  v = repeat x (length v - length (lstrip x v)) ++ lstrip x v /\
  (length (lstrip x v) <= length v)%nat /\
  (forall y rest, lstrip x v = y :: rest -> y <> x).
Proof.
  induction v as [|y v IH].
  - cbn. repeat split; auto. discriminate.
  - cbn [lstrip]. destruct (Byte.eqb x y) eqn:E.
    + apply Byte.byte_dec_bl in E. subst y.
      destruct IH as (IH1 & IH2 & IH3).
      repeat split.
      * cbn [length]. replace (S (length v) - length (lstrip x v))%nat
          with (S (length v - length (lstrip x v))) by lia.
        cbn [repeat app]. f_equal. exact IH1.
      * cbn [length]. lia.
      * exact IH3.
    + repeat split.
      * rewrite Nat.sub_diag. reflexivity.
      * lia.
      * intros y' rest Heq Hyx. injection Heq as Hy _.
        rewrite Byte.byte_dec_lb in E by congruence. discriminate.
Qed.

(* ===================================================================== *)
(** * The base-58 codec                                                 *)
(* ===================================================================== *)

Lemma rstrip_with_id {A : Type} (space : A -> bool) (l : list A) :
  forallb (fun x => negb (space x)) l = true -> rstrip_with space l = l.
Proof.
  induction l as [|x l IH]; [reflexivity|].
  cbn [forallb rstrip_with]. intros H. apply andb_prop in H as [Hx Hl].
  rewrite (IH Hl). destruct l; [|reflexivity].
  destruct (space x); [discriminate|reflexivity].
Qed.

Lemma lstrip_repeat (x : byte) (k : nat) (l : bytes) :
  lstrip x l = l -> lstrip x (repeat x k ++ l) = l.
Proof.
  intros H. induction k as [|k IH]; [exact H|].
  cbn [repeat app lstrip]. rewrite Byte.byte_dec_lb by reflexivity. exact IH.
Qed.

Lemma lstrip_app (x : byte) (l m : bytes) :
  l <> [] -> lstrip x l = l -> lstrip x (l ++ m) = l ++ m.
Proof.
  destruct l as [|y l]; [congruence|]. intros _.
  cbn [lstrip app]. destruct (Byte.eqb x y); [|reflexivity].
  intros H. apply (f_equal (@length byte)) in H.
  destruct (lstrip_split x l) as (_ & Hlen & _). cbn [length] in H. lia.
Qed.

Lemma times_single {A : Type} (a : A) (n : Z) :
  times [a] n = repeat a (Z.to_nat n).
Proof.
  unfold times. induction (Z.to_nat n) as [|k IH]; [reflexivity|].
  cbn [repeat concat app]. f_equal. exact IH.
Qed.

Lemma In_slice {A : Type} (c : A) (m n : nat) (l : list A) :
  In c (firstn m (skipn n l)) -> In c l.
Proof.
  intros H. rewrite <- (firstn_skipn n l). apply in_or_app. right.
  rewrite <- (firstn_skipn m (skipn n l)). apply in_or_app. left. exact H.
Qed.

(** ** The base-58 alphabet *)

Lemma base_58 : Base58.base = 58.
Proof. reflexivity. Qed.

Lemma symbols_ok : forallb symbol_ok (map Z.of_nat (seq 0 58)) = true.
Proof. vm_compute. reflexivity. Qed.

Lemma alphabet_plain : forallb plain Base58.alphabet = true.
Proof. vm_compute. reflexivity. Qed.

Lemma symbol_inv (d : Z) :
  0 <= d < 58 ->
  exists c, symbol d = [c] /\ In c Base58.alphabet /\
            Base58.decode_map c = Returned d /\
            (d <> 0 -> c <> "1"%byte).
Proof.
  intros Hd.
  assert (Hin : In d (map Z.of_nat (seq 0 58))).
  { apply in_map_iff. exists (Z.to_nat d). split; [lia|]. apply in_seq. lia. }
  pose proof (proj1 (forallb_forall _ _) symbols_ok d Hin) as Hok.
  unfold symbol_ok in Hok.
  destruct (symbol d) as [|c [|? ?]] eqn:Es; try discriminate.
  exists c. apply andb_prop in Hok as [Hdec Hone].
  destruct (Base58.decode_map c) as [d'|] eqn:Ed; [|discriminate].
  apply Z.eqb_eq in Hdec. subst d'.
  repeat split; auto.
  - unfold symbol in Es.
    assert (In c (firstn 1 (skipn (Z.to_nat d) Base58.alphabet)))
      by (rewrite Es; left; reflexivity).
    eapply In_slice; eassumption.
  - intros Hnz ->. destruct (d =? 0) eqn:E0; [apply Z.eqb_eq in E0; lia|].
    discriminate.
Qed.

(** ** Encoding an integer *)

Lemma b58encode_loop_inv (fuel : nat) :
  forall (i : Z) (s : bytes),
    0 <= i < 2 ^ Z.of_nat fuel ->
    exists ds,
      Base58.b58encode_loop fuel i s = ds ++ s /\
      Forall (fun c => In c Base58.alphabet) ds /\
      lstrip "1"%byte ds = ds /\
      (forall rest,
          Base58.b58decode_loop (ds ++ rest) 0 = Base58.b58decode_loop rest i).
Proof.
  induction fuel as [|fuel IH]; intros i s Hi.
  - cbn in Hi. assert (i = 0) by lia. subst i.
    exists []. cbn. auto.
  - cbn [Base58.b58encode_loop]. unfold truthy.
    destruct (i =? 0) eqn:E0; cbn [negb].
    + apply Z.eqb_eq in E0. subst i. exists []. cbn. auto.
    + apply Z.eqb_neq in E0. rewrite base_58.
      assert (Hq : 0 <= i / 58 < 2 ^ Z.of_nat fuel).
      { rewrite Nat2Z.inj_succ, Z.pow_succ_r in Hi by lia.
        split; [apply Z.div_pos; lia | apply Z.div_lt_upper_bound; lia]. }
      pose proof (Z.mod_pos_bound i 58 ltac:(lia)) as Hr.
      destruct (symbol_inv (i mod 58) Hr) as (c & Hc & Hin & Hdec & Hone).
      fold (symbol (i mod 58)). rewrite Hc.
      destruct (IH (i / 58) ([c] ++ s) Hq) as (ds & Hds & Hall & Hstrip & Hval).
      exists (ds ++ [c]). repeat split.
      * rewrite Hds, <- app_assoc. reflexivity.
      * apply Forall_app. split; [exact Hall | constructor; [exact Hin | constructor]].
      * destruct ds as [|y ds].
        -- cbn [app lstrip].
           assert (Hq0 : i / 58 = 0).
           { specialize (Hval []). cbn in Hval. congruence. }
           assert (i mod 58 <> 0) by (pose proof (Z.div_mod i 58); lia).
           destruct (Byte.eqb "1" c) eqn:Ec; [|reflexivity].
           apply Byte.byte_dec_bl in Ec. symmetry in Ec. tauto.
        -- apply lstrip_app; [discriminate | exact Hstrip].
      * intros rest. rewrite <- app_assoc, Hval.
        cbn [app Base58.b58decode_loop]. rewrite Hdec, base_58.
        f_equal. pose proof (Z.div_mod i 58). lia.
Qed.

Lemma bit_length_bound (i : Z) :
  0 <= i -> i < 2 ^ Z.of_nat (Z.to_nat (bit_length i)).
Proof.
  intros Hi. unfold bit_length.
  destruct (i =? 0) eqn:E0.
  - apply Z.eqb_eq in E0. subst. cbn. lia.
  - apply Z.eqb_neq in E0. rewrite Z.abs_eq by lia.
    pose proof (Z.log2_nonneg i).
    rewrite Z2Nat.id by lia.
    replace (Z.log2 i + 1) with (Z.succ (Z.log2 i)) by lia.
    apply Z.log2_spec. lia.
Qed.

Lemma b58encode_int_inv (i : Z) :
  0 <= i ->
  exists ds,
    Base58.b58encode_int i false = ds /\
    Forall (fun c => In c Base58.alphabet) ds /\
    lstrip "1"%byte ds = ds /\
    Base58.b58decode_loop ds 0 = Returned i.
Proof.
  intros Hi. unfold Base58.b58encode_int. rewrite andb_false_r.
  destruct (b58encode_loop_inv _ i [] (conj Hi (bit_length_bound i Hi)))
    as (ds & Hds & Hall & Hstrip & Hval).
  exists ds. rewrite app_nil_r in Hds.
  repeat split; auto.
  specialize (Hval []). rewrite app_nil_r in Hval. exact Hval.
Qed.

(** ** Encoding bytes *)

Lemma b58encode_inv (v : bytes) :
  exists (k : nat) (v' ds : bytes),
    v = repeat x00 k ++ v' /\
    (forall y rest, v' = y :: rest -> y <> x00) /\
    Base58.b58encode v = repeat "1"%byte k ++ ds /\
    Forall (fun c => In c Base58.alphabet) ds /\
    lstrip "1"%byte ds = ds /\
    Base58.b58decode_loop ds 0 = Returned (from_bytes_big v').
Proof.
  destruct (lstrip_split x00 v) as (Hv & Hlen & Hhd).
  destruct (b58encode_int_inv (from_bytes_big (lstrip x00 v))
              (proj1 (from_bytes_big_range _)))
    as (ds & Hds & Hall & Hstrip & Hval).
  exists (length v - length (lstrip x00 v))%nat, (lstrip x00 v), ds.
  repeat split; auto.
  unfold Base58.b58encode. rewrite Hds.
  change (firstn 1 Base58.alphabet) with ["1"%byte].
  rewrite times_single. f_equal. f_equal. lia.
Qed.

Lemma b58encode_alphabet (v : bytes) :
  Forall (fun c => In c Base58.alphabet) (Base58.b58encode v).
Proof.
  destruct (b58encode_inv v) as (k & v' & ds & _ & _ & -> & Hall & _).
  apply Forall_app. split; [|exact Hall].
  apply Forall_forall. intros c Hc. apply repeat_spec in Hc. subst c.
  left. reflexivity.
Qed.

Lemma b58encode_plain (v : bytes) :
  forallb plain (Base58.b58encode v) = true.
Proof.
  apply forallb_forall. intros c Hc.
  pose proof (b58encode_alphabet v) as Hall.
  rewrite Forall_forall in Hall.
  exact (proj1 (forallb_forall _ _) alphabet_plain c (Hall c Hc)).
Qed.

(** ** The size computed by [b58decode] *)

Lemma int_of_byte_nonzero (y : byte) : y <> x00 -> 1 <= int_of_byte y.
Proof.
  intros Hy. pose proof (int_of_byte_range y).
  destruct (Z.eq_dec (int_of_byte y) 0) as [E|E]; [|lia].
  exfalso. apply Hy. rewrite <- (byte_of_int_of_byte y), E. reflexivity.
Qed.

Lemma bit_length_bytes (v : bytes) :
  (forall y rest, v = y :: rest -> y <> x00) ->
  (bit_length (from_bytes_big v) + 7) / 8 = Z.of_nat (length v).
Proof.
  intros Hhd. destruct v as [|y rest]; [reflexivity|].
  pose proof (int_of_byte_nonzero y (Hhd y rest eq_refl)) as Hy.
  pose proof (from_bytes_big_range (y :: rest)) as Hr.
  pose proof (from_bytes_big_range rest) as Hr'.
  assert (Hlow : 256 ^ Z.of_nat (length rest) <= from_bytes_big (y :: rest)).
  { rewrite from_bytes_big_cons. nia. }
  set (n := Z.of_nat (length rest)) in *.
  assert (Hn : 0 <= n) by lia.
  cbn [length] in *. rewrite Nat2Z.inj_succ in *. fold n in Hr |- *.
  set (a := from_bytes_big (y :: rest)) in *.
  assert (Ha : 0 < a) by (pose proof (Z.pow_pos_nonneg 256 n); lia).
  unfold bit_length. destruct (a =? 0) eqn:E0; [apply Z.eqb_eq in E0; lia|].
  rewrite Z.abs_eq by lia.
  change 256 with (2 ^ 8) in Hlow, Hr. rewrite <- !Z.pow_mul_r in Hlow, Hr by lia.
  apply Z.log2_le_pow2 in Hlow; [|lia].
  destruct Hr as [_ Hup]. apply Z.log2_lt_pow2 in Hup; [|lia].
  Z.div_mod_to_equations. lia.
Qed.

(** ** Strings of plain bytes *)

Lemma list_ascii_of_bytes (b : bytes) :
  list_ascii_of_string (str_of_ascii_bytes b) = map ascii_of_byte b.
Proof.
  unfold str_of_ascii_bytes, string_of_list_byte.
  apply list_ascii_of_string_of_list_ascii.
Qed.

Lemma forallb_plain_and (b : bytes) :
  forallb plain b = true ->
  forallb (fun x => negb (ascii_space (int_of_byte x))) b = true /\
  forallb (fun c => negb (str_space (Z.of_N (N_of_ascii c))))
    (map ascii_of_byte b) = true /\
  forallb (fun c => Z.of_N (N_of_ascii c) <? 128) (map ascii_of_byte b) = true.
Proof.
  induction b as [|x b IH]; [cbn; auto|].
  cbn [forallb map]. intros H. apply andb_prop in H as [Hx Hb].
  destruct (IH Hb) as (I1 & I2 & I3). rewrite I1, I2, I3.
  unfold plain in Hx.
  apply andb_prop in Hx as [Hx H3]. apply andb_prop in Hx as [H1 H2].
  rewrite H1, H2, H3. auto.
Qed.

Lemma str_rstrip_plain (b : bytes) :
  forallb plain b = true ->
  str_rstrip (str_of_ascii_bytes b) = str_of_ascii_bytes b.
Proof.
  intros H. destruct (forallb_plain_and b H) as (_ & H2 & _).
  unfold str_rstrip. rewrite list_ascii_of_bytes, rstrip_with_id by exact H2.
  reflexivity.
Qed.

Lemma scrub_input_plain (b : bytes) :
  forallb plain b = true ->
  Base58.scrub_input (str_of_ascii_bytes b) = Returned b.
Proof.
  intros H. destruct (forallb_plain_and b H) as (_ & _ & H3).
  unfold Base58.scrub_input, encode_ascii.
  rewrite list_ascii_of_bytes, H3.
  unfold str_of_ascii_bytes. rewrite list_byte_of_string_of_list_byte.
  reflexivity.
Qed.

Lemma bytes_rstrip_plain (b : bytes) :
  forallb plain b = true -> bytes_rstrip b = b.
Proof.
  intros H. destruct (forallb_plain_and b H) as (H1 & _ & _).
  apply rstrip_with_id. exact H1.
Qed.

(** ** Round trip of the base-58 codec *)

Lemma forallb_app_r {A : Type} (f : A -> bool) (l m : list A) :
  forallb f (l ++ m) = true -> forallb f m = true.
Proof. rewrite forallb_app. intros H. apply andb_prop in H. tauto. Qed.

Lemma b58decode_b58encode (v : bytes) :
  Base58.b58decode (str_of_ascii_bytes (Base58.b58encode v)) = Returned v.
Proof.
  pose proof (b58encode_plain v) as Hplain.
  destruct (b58encode_inv v) as (k & v' & ds & Hv & Hhd & Henc & _ & Hstrip & Hval).
  unfold Base58.b58decode.
  rewrite str_rstrip_plain, scrub_input_plain by exact Hplain.
  cbn [lift bind].
  change (hd x00 (firstn 1 Base58.alphabet)) with "1"%byte.
  rewrite Henc in Hplain |- *.
  rewrite lstrip_repeat by exact Hstrip.
  unfold Base58.b58decode_int.
  change (existsb (Byte.eqb " ") Base58.alphabet) with false. cbv iota.
  rewrite bytes_rstrip_plain by (eapply forallb_app_r; exact Hplain).
  rewrite Hval. cbn [lift bind].
  rewrite bit_length_bytes by exact Hhd.
  rewrite length_app, repeat_length.
  replace (Z.of_nat (k + length ds) - Z.of_nat (length ds) + Z.of_nat (length v'))
    with (Z.of_nat (k + length v')) by lia.
  pose proof (from_bytes_big_range v') as Hr.
  unfold to_bytes_big.
  destruct (Z.of_nat (k + length v') <? 0) eqn:E1; [apply Z.ltb_lt in E1; lia|].
  destruct (from_bytes_big v' <? 0) eqn:E2; [apply Z.ltb_lt in E2; lia|].
  destruct (256 ^ Z.of_nat (k + length v') <=? from_bytes_big v') eqn:E3.
  { apply Z.leb_le in E3. exfalso.
    assert (256 ^ Z.of_nat (length v') <= 256 ^ Z.of_nat (k + length v'))
      by (apply Z.pow_le_mono_r; lia).
    lia. }
  cbn [orb lift bind call].
  rewrite Nat2Z.id, be_digits_pad, be_digits_from_bytes by exact Hr.
  rewrite <- Hv. reflexivity.
Qed.

(* ===================================================================== *)
(** * The builders                                                      *)
(* ===================================================================== *)

(** ** Control flow *)

Lemma call_lift_return {R : Type} (o : outcome R) :
  call (r <- lift o ;; Return r) = o.
Proof. destruct o; reflexivity. Qed.

Lemma getitem_head {A : Type} (x : A) (l : list A) :
  getitem (x :: l) 0 = Returned x.
Proof.
  unfold getitem. cbn [length].
  change (0 <? 0) with false. cbv iota.
  change (0 <=? 0) with true.
  destruct (0 <? Z.of_nat (S (length l))) eqn:E; [reflexivity|].
  apply Z.ltb_ge in E. lia.
Qed.

Lemma version_of_op0 (rest : bytes) : version_of (x00 :: rest) = Returned 0.
Proof. unfold version_of. rewrite getitem_head. reflexivity. Qed.

Ltac network_cases network :=
  destruct (String.eqb_spec network "regtest");
  destruct (String.eqb_spec network "testnet");
  destruct (String.eqb_spec network "mainnet");
  subst; try congruence; try discriminate.

Lemma select_hrp_cases (network : string) :
  select_hrp network =
  if (network =? "regtest")%string then Next "bcrt"%string
  else if (network =? "mainnet")%string then Next "bc"%string
  else Return (Some prompt).
Proof.
  unfold select_hrp.
  destruct (network =? "regtest")%string; [reflexivity|].
  destruct (network =? "mainnet")%string; reflexivity.
Qed.

Lemma pk_to_p2wpkh_args_cases (compressed : bytes) (network : string) :
  pk_to_p2wpkh_args compressed network =
  hrp <- select_hrp network ;; Next (mk_args hrp 0 (hash160 compressed)).
Proof.
  unfold pk_to_p2wpkh_args.
  change (fromhex "0014") with (Returned [x00; x14]).
  cbn [lift bind app]. rewrite version_of_op0. reflexivity.
Qed.

Lemma script_to_p2wsh_args_cases (redeemScript : bytes) (network : string) :
  script_to_p2wsh_args redeemScript network =
  hrp <- select_hrp network ;;
  Next (mk_args hrp 0 (Hashlib.sha256 redeemScript)).
Proof.
  unfold script_to_p2wsh_args.
  change (fromhex "0020") with (Returned [x00; x20]).
  cbn [lift bind app]. rewrite version_of_op0. reflexivity.
Qed.

Lemma pk_to_p2wpkh_else (compressed : bytes) (network : string) :
  network <> "regtest"%string -> network <> "mainnet"%string ->
  pk_to_p2wpkh compressed network = Returned (Some prompt).
Proof.
  intros H1 H2. unfold pk_to_p2wpkh.
  rewrite pk_to_p2wpkh_args_cases, select_hrp_cases.
  apply String.eqb_neq in H1, H2. rewrite H1, H2. reflexivity.
Qed.

Lemma script_to_p2wsh_else (redeemScript : bytes) (network : string) :
  network <> "regtest"%string -> network <> "mainnet"%string ->
  script_to_p2wsh redeemScript network = Returned (Some prompt).
Proof.
  intros H1 H2. unfold script_to_p2wsh.
  rewrite script_to_p2wsh_args_cases, select_hrp_cases.
  apply String.eqb_neq in H1, H2. rewrite H1, H2. reflexivity.
Qed.

Lemma pk_to_p2pkh_cases (compressed : bytes) (network : string) :
  pk_to_p2pkh compressed network =
  if (network =? "regtest")%string || (network =? "testnet")%string then
    Returned (encode_base58_checksum (x6f :: hash160 compressed))
  else if (network =? "mainnet")%string then
    Returned (encode_base58_checksum (x00 :: hash160 compressed))
  else Returned prompt.
Proof.
  unfold pk_to_p2pkh.
  destruct ((network =? "regtest")%string || (network =? "testnet")%string);
    [reflexivity|].
  destruct (network =? "mainnet")%string; reflexivity.
Qed.

Lemma script_to_p2sh_cases (redeemScript : bytes) (network : string) :
  script_to_p2sh redeemScript network =
  if (network =? "regtest")%string || (network =? "testnet")%string then
    Returned (encode_base58_checksum (xc4 :: hash160 redeemScript))
  else if (network =? "mainnet")%string then
    Returned (encode_base58_checksum (x05 :: hash160 redeemScript))
  else Returned prompt_p2sh.
Proof.
  unfold script_to_p2sh.
  destruct ((network =? "regtest")%string || (network =? "testnet")%string);
    [reflexivity|].
  destruct (network =? "mainnet")%string; reflexivity.
Qed.

Lemma pk_to_p2sh_p2wpkh_cases (compressed : bytes) (network : string) :
  pk_to_p2sh_p2wpkh compressed network =
  if (network =? "regtest")%string || (network =? "testnet")%string then
    Returned (encode_base58_checksum
                (xc4 :: hash160 (x00 :: x14 :: hash160 compressed)))
  else if (network =? "mainnet")%string then
    Returned (encode_base58_checksum
                (x05 :: hash160 (x00 :: x14 :: hash160 compressed)))
  else Returned prompt_p2sh.
Proof.
  unfold pk_to_p2sh_p2wpkh. rewrite fromhex_script_0014. cbn [lift bind].
  destruct ((network =? "regtest")%string || (network =? "testnet")%string);
    [reflexivity|].
  destruct (network =? "mainnet")%string; reflexivity.
Qed.

(** ** The replies are not addresses *)

Lemma list_ascii_of_string_app (a b : string) :
  list_ascii_of_string (a ++ b) =
  list_ascii_of_string a ++ list_ascii_of_string b.
Proof. induction a as [|c a IH]; [reflexivity|]. cbn. rewrite IH. reflexivity. Qed.

Lemma bech32_encode_separator (hrp : string) (witver : Z) (witprog : bytes)
    (addr : string) :
  Bech32.encode hrp witver witprog = Returned (Some addr) ->
  In "1"%char (list_ascii_of_string addr).
Proof.
  unfold Bech32.encode.
  destruct (Bech32.convertbits (map int_of_byte witprog) 8 5 true) as [conv|];
    [|discriminate].
  cbn [bind]. unfold Bech32.bech32_encode.
  destruct (Bech32.charset_of _) as [cs|]; [|discriminate].
  cbn [lift bind].
  destruct (Bech32.decode hrp _) as [[d|]|]; cbn [lift bind call]; try discriminate.
  intros [= <-]. rewrite list_ascii_of_string_app.
  apply in_or_app. right. left. reflexivity.
Qed.

Lemma encode_base58_checksum_no_space (payload : bytes) :
  ~ In " "%char (list_ascii_of_string (encode_base58_checksum payload)).
Proof.
  unfold encode_base58_checksum. rewrite list_ascii_of_bytes.
  intros H. apply in_map_iff in H as (c & Hc & Hin).
  pose proof (b58encode_alphabet (payload ++ firstn 4 (hash256 payload))) as Hall.
  rewrite Forall_forall in Hall. specialize (Hall c Hin).
  apply (f_equal byte_of_ascii) in Hc. rewrite byte_of_ascii_of_byte in Hc.
  subst c. revert Hall. vm_compute. intuition discriminate.
Qed.

Lemma unknown_network_no_address (reply : string) :
  UnknownNetwork reply -> no_address reply.
Proof.
  intros H. split.
  - intros payload E.
    apply (encode_base58_checksum_no_space payload). rewrite <- E.
    destruct H as [-> | ->]; vm_compute; tauto.
  - intros hrp witver witprog E.
    apply bech32_encode_separator in E.
    destruct H as [-> | ->]; revert E; vm_compute; intuition discriminate.
Qed.

(* ===================================================================== *)
(** * Known vectors                                                     *)
(* ===================================================================== *)

Example sha256_abc :
  hex (Hashlib.sha256 (bytes_of_string "abc")) =
  "ba7816bf8f01cfea414140de5dae2223b00361a396177a9cb410ff61f20015ad"%string.
Proof. vm_compute. reflexivity. Qed.

Example sha256_empty :
  hex (Hashlib.sha256 []) =
  "e3b0c44298fc1c149afbf4c8996fb92427ae41e4649b934ca495991b7852b855"%string.
Proof. vm_compute. reflexivity. Qed.

Example sha256_two_blocks :
  hex (Hashlib.sha256 (bytes_of_string
    "abcdbcdecdefdefgefghfghighijhijkijkljklmklmnlmnomnopnopq")) =
  "248d6a61d20638b8e5c026930c3e6039a33ce45964ff2167f6ecedd419db06c1"%string.
Proof. vm_compute. reflexivity. Qed.

Example ripemd160_empty :
  hex (Hashlib.ripemd160 []) = "9c1185a5c5e9fc54612808977ee8f548b2258d31"%string.
Proof. vm_compute. reflexivity. Qed.

Example ripemd160_abc :
  hex (Hashlib.ripemd160 (bytes_of_string "abc")) =
  "8eb208f7e05d987a9b044a8e98c6b087f15a0bfc"%string.
Proof. vm_compute. reflexivity. Qed.

Example ripemd160_two_blocks :
  hex (Hashlib.ripemd160 (bytes_of_string
    "abcdbcdecdefdefgefghfghighijhijkijkljklmklmnlmnomnopnopq")) =
  "12a053384a9c0c88e405a06c27dcf49ada62eb2b"%string.
Proof. vm_compute. reflexivity. Qed.

Example hash160_generator :
  hex (Hashlib.ripemd160 (Hashlib.sha256 (unhex
    "0279be667ef9dcbbac55a06295ce870b07029bfcdb2dce28d959f2815b16f81798"))) =
  "751e76e8199196d454941c45d1b3a323f1433bd6"%string.
Proof. vm_compute. reflexivity. Qed.

Example p2wpkh_generator_mainnet :
  Addresses.pk_to_p2wpkh generator_pubkey "mainnet" =
  Returned (Some "bc1qw508d6qejxtdg4y5r3zarvary0c5xw7kv8f3t4"%string).
Proof. vm_compute. reflexivity. Qed.

Example p2wpkh_generator_regtest :
  Addresses.pk_to_p2wpkh generator_pubkey "regtest" =
  Returned (Some "bcrt1qw508d6qejxtdg4y5r3zarvary0c5xw7kygt080"%string).
Proof. vm_compute. reflexivity. Qed.

Example p2sh_p2wpkh_generator_mainnet :
  Addresses.pk_to_p2sh_p2wpkh generator_pubkey "mainnet" =
  Returned "3JvL6Ymt8MVWiCNHC7oWU6nLeHNJKLZGLN"%string.
Proof. vm_compute. reflexivity. Qed.

(* ===================================================================== *)
(** * The properties of the specification                               *)
(* ===================================================================== *)

(** C1. With network "testnet" the native segwit builders take the [else]
    branch: the first [if] assigns 'tb', but the [elif]/[else] pair belongs
    to the "regtest" test alone, so both return the prompt, which is not a
    bech32 address for the human-readable part 'tb' (nor for any other). *)
Theorem segwit_testnet_falls_through (compressed redeemScript : bytes) :
  select_hrp "testnet" = Return (Some prompt) /\
  pk_to_p2wpkh compressed "testnet" = Returned (Some prompt) /\
  script_to_p2wsh redeemScript "testnet" = Returned (Some prompt) /\
  (forall witver witprog,
      pk_to_p2wpkh compressed "testnet" <> Bech32.encode "tb" witver witprog) /\
  (forall witver witprog,
      script_to_p2wsh redeemScript "testnet" <> Bech32.encode "tb" witver witprog).
Proof.
  assert (Hno : no_address prompt)
    by (apply unknown_network_no_address; left; reflexivity).
  split; [reflexivity|].
  rewrite pk_to_p2wpkh_else, script_to_p2wsh_else by discriminate.
  repeat split; intros witver witprog E; symmetry in E;
    exact (proj2 Hno _ _ _ E).
Qed.

(** C2. A network that is none of "mainnet", "testnet", "regtest" makes each
    of the five builders answer with its unknown-network reply; that reply
    is not the encoding of any prefix or human-readable part with any
    payload. *)
Theorem unknown_network_surfaces
    (compressed redeemScript : bytes) (network : string) :
  network <> "mainnet"%string ->
  network <> "testnet"%string ->
  network <> "regtest"%string ->
  exists r1 r2 r3 r4 r5,
    pk_to_p2pkh compressed network = Returned r1 /\
    script_to_p2sh redeemScript network = Returned r2 /\
    pk_to_p2wpkh compressed network = Returned (Some r3) /\
    script_to_p2wsh redeemScript network = Returned (Some r4) /\
    pk_to_p2sh_p2wpkh compressed network = Returned r5 /\
    Forall (fun r => UnknownNetwork r /\ no_address r) [r1; r2; r3; r4; r5].
Proof.
  intros Hm Ht Hr.
  exists prompt, prompt_p2sh, prompt, prompt, prompt_p2sh.
  rewrite pk_to_p2pkh_cases, script_to_p2sh_cases, pk_to_p2sh_p2wpkh_cases.
  rewrite pk_to_p2wpkh_else, script_to_p2wsh_else by assumption.
  apply String.eqb_neq in Hm, Ht, Hr. rewrite Hm, Ht, Hr. cbn [orb].
  assert (H1 : UnknownNetwork prompt) by (left; reflexivity).
  assert (H2 : UnknownNetwork prompt_p2sh) by (right; reflexivity).
  pose proof (unknown_network_no_address _ H1).
  pose proof (unknown_network_no_address _ H2).
  repeat split. repeat (apply Forall_cons; [split; assumption|]).
  apply Forall_nil.
Qed.

Lemma unknown_network_surfaces_witness :
  exists r,
    pk_to_p2sh_p2wpkh generator_pubkey "signet" = Returned r /\
    UnknownNetwork r /\ no_address r.
Proof.
  assert (Hm : "signet"%string <> "mainnet"%string) by discriminate.
  assert (Ht : "signet"%string <> "testnet"%string) by discriminate.
  assert (Hr : "signet"%string <> "regtest"%string) by discriminate.
  destruct (unknown_network_surfaces generator_pubkey [] "signet" Hm Ht Hr)
    as (r1 & r2 & r3 & r4 & r5 & _ & _ & _ & _ & H5 & Hall).
  exists r5. split; [exact H5|].
  rewrite Forall_forall in Hall. apply Hall.
  do 4 right. left. reflexivity.
Defined.

(** C3. Whenever a native segwit builder reaches its [bech32.encode] call,
    the witness version it passes is 0: the first byte of [spk] is the
    literal 0x00, so [spk[0] - 0x50 if spk[0] else 0] takes its [else]. *)
Theorem witness_version_zero
    (compressed redeemScript : bytes) (network : string) (a : encode_args) :
  pk_to_p2wpkh_args compressed network = Next a \/
  script_to_p2wsh_args redeemScript network = Next a ->
  arg_witver a = 0.
Proof.
  rewrite pk_to_p2wpkh_args_cases, script_to_p2wsh_args_cases.
  destruct (select_hrp network) as [hrp| |]; cbn [bind];
    intros [H | H]; try discriminate; injection H as <-; reflexivity.
Qed.

Lemma witness_version_zero_witness :
  exists a,
    pk_to_p2wpkh_args generator_pubkey "mainnet" = Next a /\ arg_witver a = 0.
Proof.
  exists (mk_args "bc" 0 (hash160 generator_pubkey)).
  assert (E : pk_to_p2wpkh_args generator_pubkey "mainnet" =
              Next (mk_args "bc" 0 (hash160 generator_pubkey)))
    by (rewrite pk_to_p2wpkh_args_cases; reflexivity).
  split; [exact E|].
  exact (witness_version_zero generator_pubkey [] "mainnet" _ (or_introl E)).
Defined.

(** C4. The nested builder returns what [script_to_p2sh] returns for the
    redeem script 0x00 0x14 ‖ HASH160(pk), on every network (so in
    particular on those where both succeed). *)
Theorem p2sh_p2wpkh_wraps_as_p2sh (compressed : bytes) (network : string) :
  pk_to_p2sh_p2wpkh compressed network =
  script_to_p2sh (x00 :: x14 :: hash160 compressed) network.
Proof.
  rewrite pk_to_p2sh_p2wpkh_cases, script_to_p2sh_cases. reflexivity.
Qed.

(** C5. Decoding an encoded payload gives the payload followed by its
    four checksum bytes: nothing is stripped, nothing is verified. *)
Theorem decode_encode_keeps_checksum (p : bytes) :
  decode_base58 (encode_base58_checksum p) =
  Returned (p ++ firstn 4 (hash256 p)) /\
  length (p ++ firstn 4 (hash256 p)) = (length p + 4)%nat.
Proof.
  split.
  - apply b58decode_b58encode.
  - rewrite length_app. reflexivity.
Qed.

(** C6. From a 64-byte raw key x ‖ y the compression step returns 33
    bytes: 0x02 when y, read as a big-endian integer, is even and 0x03 when
    it is odd, followed by the first 32 bytes of the input. *)
Theorem compression_correct
    (verifying_key_string : bytes -> outcome bytes) (privkey raw : bytes) :
  verifying_key_string privkey = Returned raw ->
  length raw = 64%nat ->
  exists (p : byte) (x : bytes),
    privkey_to_pubkey verifying_key_string privkey = Returned (p :: x) /\
    length (p :: x) = 33%nat /\
    x = firstn 32 raw /\
    (Z.even (from_bytes_big (skipn 32 raw)) = true -> p = x02) /\
    (Z.odd (from_bytes_big (skipn 32 raw)) = true -> p = x03).
Proof.
  intros Hvk Hlen.
  exists (if Z.even (from_bytes_big (skipn 32 raw)) then x02 else x03),
         (firstn 32 raw).
  repeat split.
  - unfold privkey_to_pubkey, compress_pubkey.
    rewrite Hvk. cbn [lift bind]. rewrite fromhex_hex. cbn [lift bind].
    rewrite from_bytes_big_signed_parity, Zmod_even.
    destruct (Z.even (from_bytes_big (skipn 32 raw))); reflexivity.
  - cbn [length]. rewrite length_firstn, Hlen. reflexivity.
  - intros ->. reflexivity.
  - rewrite <- Z.negb_even. destruct (Z.even _); [discriminate|reflexivity].
Qed.

Lemma compression_correct_witness :
  privkey_to_pubkey (fun _ => Returned generator_raw) [x01] =
  Returned generator_pubkey.
Proof.
  destruct (compression_correct (fun _ => Returned generator_raw) [x01]
              generator_raw eq_refl eq_refl)
    as (p & x & Hrun & _ & Hx & Heven & _).
  rewrite Hrun, Hx, (Heven eq_refl). reflexivity.
Defined.

(** C9. The compressed generator key on mainnet gives the known P2PKH
    address. *)
Theorem p2pkh_known_vector :
  pk_to_p2pkh
    (unhex "0279be667ef9dcbbac55a06295ce870b07029bfcdb2dce28d959f2815b16f81798")
    "mainnet" =
  Returned "1BgGZ9tcN4rm9KBzDn7KprQz87SZ26SAMH"%string.
Proof. vm_compute. reflexivity. Qed.

(** C10. For an unrecognized network every builder returns its prompt as
    an ordinary value, a string like an address, and raises nothing; the
    P2SH-family prompts read "tesnet". *)
Theorem unknown_network_returns_prompt
    (compressed redeemScript : bytes) (network : string) :
  network <> "mainnet"%string ->
  network <> "testnet"%string ->
  network <> "regtest"%string ->
  pk_to_p2pkh compressed network =
    Returned "Enter the network: testnet/regtest/mainnet"%string /\
  script_to_p2sh redeemScript network =
    Returned "Enter the network: tesnet/regtest/mainnet"%string /\
  pk_to_p2wpkh compressed network =
    Returned (Some "Enter the network: testnet/regtest/mainnet"%string) /\
  script_to_p2wsh redeemScript network =
    Returned (Some "Enter the network: testnet/regtest/mainnet"%string) /\
  pk_to_p2sh_p2wpkh compressed network =
    Returned "Enter the network: tesnet/regtest/mainnet"%string.
Proof.
  intros Hm Ht Hr.
  rewrite pk_to_p2pkh_cases, script_to_p2sh_cases, pk_to_p2sh_p2wpkh_cases.
  rewrite pk_to_p2wpkh_else, script_to_p2wsh_else by assumption.
  apply String.eqb_neq in Hm, Ht, Hr. rewrite Hm, Ht, Hr.
  repeat split.
Qed.

Lemma unknown_network_returns_prompt_witness :
  pk_to_p2pkh generator_pubkey "signet" =
  Returned "Enter the network: testnet/regtest/mainnet"%string.
Proof.
  assert (Hm : "signet"%string <> "mainnet"%string) by discriminate.
  assert (Ht : "signet"%string <> "testnet"%string) by discriminate.
  assert (Hr : "signet"%string <> "regtest"%string) by discriminate.
  exact (proj1 (unknown_network_returns_prompt generator_pubkey [] "signet"
                  Hm Ht Hr)).
Defined.

(* ===================================================================== *)
(** * Injectivity and shape of Base58Check texts                        *)
(* ===================================================================== *)

Lemma pk_to_p2pkh_known (pk : bytes) (network : string) :
  known_network network ->
  pk_to_p2pkh pk network =
  Returned (encode_base58_checksum (p2pkh_version network :: hash160 pk)).
Proof.
  intros [-> | [-> | ->]]; rewrite pk_to_p2pkh_cases; reflexivity.
Qed.

Lemma script_to_p2sh_known (rs : bytes) (network : string) :
  known_network network ->
  script_to_p2sh rs network =
  Returned (encode_base58_checksum (p2sh_version network :: hash160 rs)).
Proof.
  intros [-> | [-> | ->]]; rewrite script_to_p2sh_cases; reflexivity.
Qed.

Lemma pk_to_p2sh_p2wpkh_known (pk : bytes) (network : string) :
  known_network network ->
  pk_to_p2sh_p2wpkh pk network =
  Returned (encode_base58_checksum
              (p2sh_version network :: hash160 (x00 :: x14 :: hash160 pk))).
Proof.
  intros [-> | [-> | ->]]; rewrite pk_to_p2sh_p2wpkh_cases; reflexivity.
Qed.

Lemma known_mainnet : known_network "mainnet".
Proof. left. reflexivity. Qed.

Lemma known_testnet : known_network "testnet".
Proof. right. left. reflexivity. Qed.

Lemma known_regtest : known_network "regtest".
Proof. right. right. reflexivity. Qed.

Lemma version_bytes_differ (n1 n2 : string) :
  p2pkh_version n1 <> p2sh_version n2.
Proof.
  unfold p2pkh_version, p2sh_version.
  destruct (n1 =? "mainnet")%string, (n2 =? "mainnet")%string; discriminate.
Qed.

Lemma Returned_inj {A : Type} (a b : A) : Returned a = Returned b -> a = b.
Proof. intros H. inversion H. reflexivity. Qed.

Lemma cons_inj {A : Type} (x y : A) (l m : list A) :
  x :: l = y :: m -> x = y /\ l = m.
Proof. intros H. inversion H. auto. Qed.

(** ** Injectivity of the encoders *)

Lemma str_of_ascii_bytes_inj (a b : bytes) :
  str_of_ascii_bytes a = str_of_ascii_bytes b -> a = b.
Proof.
  intros E. apply (f_equal list_byte_of_string) in E.
  unfold str_of_ascii_bytes in E.
  rewrite !list_byte_of_string_of_list_byte in E. exact E.
Qed.

Lemma b58encode_inj (a b : bytes) :
  Base58.b58encode a = Base58.b58encode b -> a = b.
Proof.
  intros E.
  pose proof (b58decode_b58encode a) as Ha.
  rewrite E, b58decode_b58encode in Ha. congruence.
Qed.

Lemma app_inj_tail_length {A : Type} (p q c d : list A) :
  length c = length d -> p ++ c = q ++ d -> p = q /\ c = d.
Proof.
  intros Hlen E.
  assert (Hp : length p = length q).
  { apply (f_equal (@length A)) in E. rewrite !length_app in E. lia. }
  revert q Hp E. induction p as [|x p IH]; intros [|y q] Hp E;
    try discriminate.
  - auto.
  - cbn in E. injection E as -> E. cbn in Hp.
    destruct (IH q ltac:(lia) E) as [-> ->]. auto.
Qed.

Lemma checksum_length (p : bytes) : length (firstn 4 (hash256 p)) = 4%nat.
Proof. reflexivity. Qed.

Lemma encode_base58_checksum_inj (p q : bytes) :
  encode_base58_checksum p = encode_base58_checksum q -> p = q.
Proof.
  intros E. apply str_of_ascii_bytes_inj, b58encode_inj in E.
  apply app_inj_tail_length in E; [tauto|].
  rewrite !checksum_length. reflexivity.
Qed.

(** X1. Two different payloads never get the same Base58Check text. *)
Theorem encode_base58_checksum_injective (p q : bytes) :
  p <> q -> encode_base58_checksum p <> encode_base58_checksum q.
Proof. intros Hpq E. apply Hpq, encode_base58_checksum_inj, E. Qed.

Lemma encode_base58_checksum_injective_witness :
  encode_base58_checksum [x00] <> encode_base58_checksum [x01].
Proof.
  assert (H : [x00] <> [x01]) by discriminate.
  exact (encode_base58_checksum_injective [x00] [x01] H).
Defined.

(** X2. [decode_base58] checks no checksum: a text whose last four bytes
    are not the checksum of the rest, which no payload encodes to, is
    decoded all the same, the four bytes included. *)
Theorem decode_base58_accepts_bad_checksum (p c : bytes) :
  length c = 4%nat ->
  c <> firstn 4 (hash256 p) ->
  decode_base58 (str_of_ascii_bytes (Base58.b58encode (p ++ c))) =
    Returned (p ++ c) /\
  (forall q, encode_base58_checksum q <>
             str_of_ascii_bytes (Base58.b58encode (p ++ c))).
Proof.
  intros Hlen Hbad. split.
  - apply b58decode_b58encode.
  - intros q E. apply str_of_ascii_bytes_inj, b58encode_inj in E.
    apply app_inj_tail_length in E as [-> E];
      [|rewrite checksum_length; symmetry; exact Hlen].
    apply Hbad. symmetry. exact E.
Qed.

Lemma decode_base58_accepts_bad_checksum_witness :
  decode_base58 (str_of_ascii_bytes (Base58.b58encode ([x00] ++ [x00; x00; x00; x00]))) =
  Returned ([x00] ++ [x00; x00; x00; x00]).
Proof.
  assert (Hbad : [x00; x00; x00; x00] <> firstn 4 (hash256 [x00]))
    by (vm_compute; discriminate).
  pose proof (decode_base58_accepts_bad_checksum [x00] [x00; x00; x00; x00]
                eq_refl Hbad) as H.
  destruct H as [H _]. exact H.
Defined.

(** X3. Legacy addresses keep networks and formats apart: the test
    networks share their addresses, mainnet never shares one with them, and
    on known networks a key-hash address is never a script-hash address. *)
Theorem legacy_addresses_distinct
    (pk rs : bytes) (n1 n2 : string) :
  known_network n1 -> known_network n2 ->
  pk_to_p2pkh pk "testnet" = pk_to_p2pkh pk "regtest" /\
  script_to_p2sh rs "testnet" = script_to_p2sh rs "regtest" /\
  pk_to_p2sh_p2wpkh pk "testnet" = pk_to_p2sh_p2wpkh pk "regtest" /\
  pk_to_p2pkh pk "mainnet" <> pk_to_p2pkh pk "testnet" /\
  script_to_p2sh rs "mainnet" <> script_to_p2sh rs "testnet" /\
  pk_to_p2sh_p2wpkh pk "mainnet" <> pk_to_p2sh_p2wpkh pk "testnet" /\
  pk_to_p2pkh pk n1 <> script_to_p2sh rs n2 /\
  pk_to_p2pkh pk n1 <> pk_to_p2sh_p2wpkh pk n2.
Proof.
  intros H1 H2.
  rewrite (pk_to_p2pkh_known pk n1 H1), (script_to_p2sh_known rs n2 H2),
    (pk_to_p2sh_p2wpkh_known pk n2 H2).
  rewrite !(pk_to_p2pkh_known pk _ known_testnet),
    !(pk_to_p2pkh_known pk _ known_regtest),
    !(pk_to_p2pkh_known pk _ known_mainnet),
    !(script_to_p2sh_known rs _ known_testnet),
    !(script_to_p2sh_known rs _ known_regtest),
    !(script_to_p2sh_known rs _ known_mainnet),
    !(pk_to_p2sh_p2wpkh_known pk _ known_testnet),
    !(pk_to_p2sh_p2wpkh_known pk _ known_regtest),
    !(pk_to_p2sh_p2wpkh_known pk _ known_mainnet).
  change (p2pkh_version "testnet") with x6f.
  change (p2pkh_version "regtest") with x6f.
  change (p2pkh_version "mainnet") with x00.
  change (p2sh_version "testnet") with xc4.
  change (p2sh_version "regtest") with xc4.
  change (p2sh_version "mainnet") with x05.
  split; [reflexivity|]. split; [reflexivity|]. split; [reflexivity|].
  repeat split;
    intros E; apply Returned_inj, encode_base58_checksum_inj, cons_inj in E;
    destruct E as [Hv _];
    try (exact (version_bytes_differ _ _ Hv)); discriminate Hv.
Qed.

Lemma legacy_addresses_distinct_witness :
  pk_to_p2pkh generator_pubkey "mainnet" <>
  script_to_p2sh generator_pubkey "mainnet".
Proof.
  pose proof (legacy_addresses_distinct generator_pubkey generator_pubkey
                "mainnet" "mainnet" known_mainnet known_mainnet) as H.
  destruct H as (_ & _ & _ & _ & _ & _ & H & _). exact H.
Defined.

(** X4. On a known network the P2PKH address of a key depends on the key
    through HASH160 alone and determines that hash; likewise the P2SH
    address of a script. *)
Theorem legacy_address_determines_hash
    (a b : bytes) (network : string) :
  known_network network ->
  (pk_to_p2pkh a network = pk_to_p2pkh b network <-> hash160 a = hash160 b) /\
  (script_to_p2sh a network = script_to_p2sh b network <->
   hash160 a = hash160 b).
Proof.
  intros H.
  rewrite (pk_to_p2pkh_known a _ H), (pk_to_p2pkh_known b _ H),
    (script_to_p2sh_known a _ H), (script_to_p2sh_known b _ H).
  split; split;
    try (intros E; apply Returned_inj, encode_base58_checksum_inj, cons_inj in E;
         exact (proj2 E));
    intros ->; reflexivity.
Qed.

Lemma legacy_address_determines_hash_witness :
  pk_to_p2pkh generator_pubkey "mainnet" = pk_to_p2pkh generator_pubkey "mainnet"
  <-> hash160 generator_pubkey = hash160 generator_pubkey.
Proof.
  pose proof (legacy_address_determines_hash generator_pubkey
                generator_pubkey "mainnet" known_mainnet) as H.
  destruct H as [H _]. exact H.
Defined.

(** ** Leading symbol and number of symbols *)

Lemma b58encode_loop_leading (k : nat) :
  forall (fuel : nat) (i d : Z) (s : bytes),
    1 <= d < 58 ->
    d * 58 ^ Z.of_nat k <= i < (d + 1) * 58 ^ Z.of_nat k ->
    i < 2 ^ Z.of_nat fuel ->
    exists c rest,
      symbol d = [c] /\
      Base58.b58encode_loop fuel i s = c :: rest ++ s /\
      length rest = k.
Proof.
  induction k as [|k IH]; intros fuel i d s Hd Hi Hfuel.
  - cbn in Hi. assert (i = d) by lia. subst i.
    destruct fuel as [|fuel]; [cbn in Hfuel; lia|].
    destruct (symbol_inv d ltac:(lia)) as (c & Hc & _).
    exists c, []. split; [exact Hc|]. split; [|reflexivity].
    cbn [Base58.b58encode_loop]. unfold truthy.
    destruct (d =? 0) eqn:E0; [apply Z.eqb_eq in E0; lia|]. cbn [negb].
    rewrite base_58, Z.mod_small, Z.div_small by lia.
    fold (symbol d). rewrite Hc.
    destruct fuel; reflexivity.
  - rewrite Nat2Z.inj_succ, Z.pow_succ_r in Hi by lia.
    assert (Hpos : 0 < 58 ^ Z.of_nat k) by (apply Z.pow_pos_nonneg; lia).
    destruct fuel as [|fuel]; [cbn in Hfuel; nia|].
    rewrite Nat2Z.inj_succ, Z.pow_succ_r in Hfuel by lia.
    assert (Hq : d * 58 ^ Z.of_nat k <= i / 58 < (d + 1) * 58 ^ Z.of_nat k).
    { split.
      - apply Z.div_le_lower_bound; lia.
      - apply Z.div_lt_upper_bound; lia. }
    assert (Hqf : i / 58 < 2 ^ Z.of_nat fuel).
    { apply Z.div_lt_upper_bound; lia. }
    pose proof (Z.mod_pos_bound i 58 ltac:(lia)) as Hr.
    destruct (symbol_inv (i mod 58) Hr) as (c0 & Hc0 & _).
    destruct (IH fuel (i / 58) d ([c0] ++ s) Hd Hq Hqf)
      as (c & rest & Hc & Hloop & Hlen).
    exists c, (rest ++ [c0]). split; [exact Hc|]. split.
    + cbn [Base58.b58encode_loop]. unfold truthy.
      destruct (i =? 0) eqn:E0; [apply Z.eqb_eq in E0; nia|]. cbn [negb].
      rewrite base_58. fold (symbol (i mod 58)). rewrite Hc0, Hloop.
      rewrite <- app_assoc. reflexivity.
    + rewrite length_app, Hlen. cbn. lia.
Qed.

Lemma b58encode_leading (y : byte) (t : bytes) (d : Z) (k : nat) :
  y <> x00 ->
  1 <= d < 58 ->
  d * 58 ^ Z.of_nat k <= from_bytes_big (y :: t) < (d + 1) * 58 ^ Z.of_nat k ->
  exists c rest,
    symbol d = [c] /\ Base58.b58encode (y :: t) = c :: rest /\ length rest = k.
Proof.
  intros Hy Hd Hi.
  pose proof (from_bytes_big_range (y :: t)) as Hr.
  destruct (b58encode_loop_leading k _ _ d [] Hd Hi
              (bit_length_bound _ (proj1 Hr)))
    as (c & rest & Hc & Hloop & Hlen).
  exists c, rest. split; [exact Hc|]. split; [|exact Hlen].
  unfold Base58.b58encode. cbn [lstrip].
  destruct (Byte.eqb x00 y) eqn:E;
    [apply Byte.byte_dec_bl in E; congruence|].
  rewrite Z.sub_diag. unfold Base58.b58encode_int.
  rewrite andb_false_r, Hloop, app_nil_r. reflexivity.
Qed.

Lemma b58encode_zero_head (v : bytes) :
  Base58.b58encode (x00 :: v) = "1"%byte :: Base58.b58encode v.
Proof.
  unfold Base58.b58encode. cbn [lstrip Byte.eqb].
  change (Byte.eqb x00 x00) with true. cbv iota.
  destruct (lstrip_split x00 v) as (_ & Hlen & _).
  change (firstn 1 Base58.alphabet) with ["1"%byte].
  rewrite !times_single. cbn [length].
  replace (Z.to_nat (Z.of_nat (S (length v)) - Z.of_nat (length (lstrip x00 v))))
    with (S (Z.to_nat (Z.of_nat (length v) - Z.of_nat (length (lstrip x00 v)))))
    by lia.
  reflexivity.
Qed.

Lemma str_of_ascii_bytes_cons (c : byte) (l : bytes) :
  str_of_ascii_bytes (c :: l) = String (ascii_of_byte c) (str_of_ascii_bytes l).
Proof. reflexivity. Qed.

Lemma str_of_ascii_bytes_length (l : bytes) :
  String.length (str_of_ascii_bytes l) = length l.
Proof.
  induction l as [|c l IH]; [reflexivity|].
  rewrite str_of_ascii_bytes_cons. cbn [String.length length]. rewrite IH.
  reflexivity.
Qed.

(** The integer written by a version byte, a 20-byte hash and the
    checksum. *)
Lemma payload_range (ver : byte) (h : bytes) :
  length h = 20%nat ->
  int_of_byte ver * 256 ^ 24 <=
    from_bytes_big ((ver :: h) ++ firstn 4 (hash256 (ver :: h)))
  < (int_of_byte ver + 1) * 256 ^ 24.
Proof.
  intros Hh. cbn [app]. rewrite from_bytes_big_cons.
  pose proof (from_bytes_big_range (h ++ firstn 4 (hash256 (ver :: h)))) as Hr.
  rewrite length_app, Hh, checksum_length in *.
  change (Z.of_nat (20 + 4)) with 24 in *. lia.
Qed.

Lemma base58check_leading (ver : byte) (h : bytes) (d : Z) (k : nat) :
  length h = 20%nat ->
  ver <> x00 ->
  1 <= d < 58 ->
  d * 58 ^ Z.of_nat k <=
    from_bytes_big ((ver :: h) ++ firstn 4 (hash256 (ver :: h)))
  < (d + 1) * 58 ^ Z.of_nat k ->
  exists c rest,
    symbol d = [c] /\
    encode_base58_checksum (ver :: h) = String (ascii_of_byte c) rest /\
    String.length rest = k.
Proof.
  intros Hh Hver Hd Hi. cbn [app] in Hi.
  destruct (b58encode_leading ver _ d k Hver Hd Hi) as (c & rest & Hc & He & Hl).
  exists c, (str_of_ascii_bytes rest). split; [exact Hc|].
  unfold encode_base58_checksum. cbn [app]. rewrite He.
  rewrite str_of_ascii_bytes_cons, str_of_ascii_bytes_length. auto.
Qed.

Lemma p2sh_mainnet_shape (h : bytes) :
  length h = 20%nat ->
  exists rest,
    encode_base58_checksum (x05 :: h) = String "3" rest /\
    String.length rest = 33%nat.
Proof.
  intros Hh. pose proof (payload_range x05 h Hh) as Hr.
  change (int_of_byte x05) with 5 in Hr.
  assert (B1 : 2 * 58 ^ 33 <= 5 * 256 ^ 24) by (vm_compute; discriminate).
  assert (B2 : (5 + 1) * 256 ^ 24 <= (2 + 1) * 58 ^ 33)
    by (vm_compute; discriminate).
  destruct (base58check_leading x05 h 2 33 Hh ltac:(discriminate) ltac:(lia))
    as (c & rest & Hc & He & Hl).
  { change (Z.of_nat 33) with 33. lia. }
  exists rest. injection Hc as <-. auto.
Qed.

Lemma p2sh_testnet_shape (h : bytes) :
  length h = 20%nat ->
  exists rest,
    encode_base58_checksum (xc4 :: h) = String "2" rest /\
    String.length rest = 34%nat.
Proof.
  intros Hh. pose proof (payload_range xc4 h Hh) as Hr.
  change (int_of_byte xc4) with 196 in Hr.
  assert (B1 : 1 * 58 ^ 34 <= 196 * 256 ^ 24) by (vm_compute; discriminate).
  assert (B2 : (196 + 1) * 256 ^ 24 <= (1 + 1) * 58 ^ 34)
    by (vm_compute; discriminate).
  destruct (base58check_leading xc4 h 1 34 Hh ltac:(discriminate) ltac:(lia))
    as (c & rest & Hc & He & Hl).
  { change (Z.of_nat 34) with 34. lia. }
  exists rest. injection Hc as <-. auto.
Qed.

Lemma p2pkh_testnet_shape (h : bytes) :
  length h = 20%nat ->
  exists c rest,
    encode_base58_checksum (x6f :: h) = String c rest /\
    (c = "m"%char \/ c = "n"%char) /\
    String.length rest = 33%nat.
Proof.
  intros Hh. pose proof (payload_range x6f h Hh) as Hr.
  change (int_of_byte x6f) with 111 in Hr.
  assert (B1 : 44 * 58 ^ 33 <= 111 * 256 ^ 24) by (vm_compute; discriminate).
  assert (B2 : (111 + 1) * 256 ^ 24 <= (45 + 1) * 58 ^ 33)
    by (vm_compute; discriminate).
  set (acc := from_bytes_big ((x6f :: h) ++ firstn 4 (hash256 (x6f :: h)))) in *.
  destruct (Z_lt_le_dec acc (45 * 58 ^ 33)) as [Hlt | Hge].
  - destruct (base58check_leading x6f h 44 33 Hh ltac:(discriminate) ltac:(lia))
      as (c & rest & Hc & He & Hl).
    { change (Z.of_nat 33) with 33. fold acc. lia. }
    exists (ascii_of_byte c), rest. injection Hc as <-. auto.
  - destruct (base58check_leading x6f h 45 33 Hh ltac:(discriminate) ltac:(lia))
      as (c & rest & Hc & He & Hl).
    { change (Z.of_nat 33) with 33. fold acc. lia. }
    exists (ascii_of_byte c), rest. injection Hc as <-. auto.
Qed.

Lemma p2pkh_mainnet_shape (h : bytes) :
  exists rest, encode_base58_checksum (x00 :: h) = String "1" rest.
Proof.
  unfold encode_base58_checksum. cbn [app].
  rewrite b58encode_zero_head, str_of_ascii_bytes_cons.
  eexists. reflexivity.
Qed.

(** X5. Mainnet addresses show their format in their first character: a
    P2PKH address starts with 1; a P2SH and a P2SH-P2WPKH address start with
    3 and have 34 characters. *)
Theorem mainnet_leading_characters (pk rs : bytes) :
  (exists rest, pk_to_p2pkh pk "mainnet" = Returned (String "1" rest)) /\
  (exists rest,
      script_to_p2sh rs "mainnet" = Returned (String "3" rest) /\
      String.length rest = 33%nat) /\
  (exists rest,
      pk_to_p2sh_p2wpkh pk "mainnet" = Returned (String "3" rest) /\
      String.length rest = 33%nat).
Proof.
  rewrite (pk_to_p2pkh_known pk _ known_mainnet),
    (script_to_p2sh_known rs _ known_mainnet),
    (pk_to_p2sh_p2wpkh_known pk _ known_mainnet).
  change (p2pkh_version "mainnet") with x00.
  change (p2sh_version "mainnet") with x05.
  split; [|split].
  - destruct (p2pkh_mainnet_shape (hash160 pk)) as (rest & ->). eauto.
  - destruct (p2sh_mainnet_shape (hash160 rs) (hash160_length _))
      as (rest & -> & Hl). eauto.
  - destruct (p2sh_mainnet_shape _ (hash160_length (x00 :: x14 :: hash160 pk)))
      as (rest & -> & Hl). eauto.
Qed.

(** X6. On testnet and regtest a P2PKH address starts with m or n and has
    34 characters; a P2SH and a P2SH-P2WPKH address start with 2 and have 35
    characters. *)
Theorem testnet_leading_characters (pk rs : bytes) (network : string) :
  network = "testnet"%string \/ network = "regtest"%string ->
  (exists c rest,
      pk_to_p2pkh pk network = Returned (String c rest) /\
      (c = "m"%char \/ c = "n"%char) /\ String.length rest = 33%nat) /\
  (exists rest,
      script_to_p2sh rs network = Returned (String "2" rest) /\
      String.length rest = 34%nat) /\
  (exists rest,
      pk_to_p2sh_p2wpkh pk network = Returned (String "2" rest) /\
      String.length rest = 34%nat).
Proof.
  intros Hn.
  assert (Hk : known_network network) by (unfold known_network; tauto).
  rewrite (pk_to_p2pkh_known pk _ Hk), (script_to_p2sh_known rs _ Hk),
    (pk_to_p2sh_p2wpkh_known pk _ Hk).
  assert (E1 : p2pkh_version network = x6f) by (destruct Hn as [-> | ->]; reflexivity).
  assert (E2 : p2sh_version network = xc4) by (destruct Hn as [-> | ->]; reflexivity).
  rewrite E1, E2.
  split; [|split].
  - destruct (p2pkh_testnet_shape (hash160 pk) (hash160_length _))
      as (c & rest & -> & Hc & Hl). eauto.
  - destruct (p2sh_testnet_shape (hash160 rs) (hash160_length _))
      as (rest & -> & Hl). eauto.
  - destruct (p2sh_testnet_shape _ (hash160_length (x00 :: x14 :: hash160 pk)))
      as (rest & -> & Hl). eauto.
Qed.

Lemma testnet_leading_characters_witness :
  exists rest,
    script_to_p2sh generator_pubkey "regtest" = Returned (String "2" rest) /\
    String.length rest = 34%nat.
Proof.
  pose proof (testnet_leading_characters generator_pubkey generator_pubkey
                "regtest" (or_intror eq_refl)) as H.
  destruct H as (_ & H & _). exact H.
Defined.

(** X7. A Base58Check text uses the 58 symbols of the alphabet only. *)
Theorem encode_base58_checksum_alphabet (b : bytes) :
  Forall (fun c => In c Base58.BITCOIN_ALPHABET)
    (list_byte_of_string (encode_base58_checksum b)).
Proof.
  unfold encode_base58_checksum, str_of_ascii_bytes.
  rewrite list_byte_of_string_of_list_byte. apply b58encode_alphabet.
Qed.

(* ===================================================================== *)
(** * Decoding base-58 texts                                            *)
(* ===================================================================== *)

(** ** Trailing white space *)

Lemma rstrip_with_tail {A : Type} (sp : A -> bool) (x : A) (l : list A) :
  rstrip_with sp (x :: l) = x :: l -> rstrip_with sp l = l.
Proof.
  cbn [rstrip_with]. destruct (rstrip_with sp l) as [|y k] eqn:E.
  - destruct (sp x); intros H; [discriminate|].
    injection H as <-. reflexivity.
  - intros H. injection H as <-. reflexivity.
Qed.

Lemma rstrip_with_idem {A : Type} (sp : A -> bool) (l : list A) :
  rstrip_with sp (rstrip_with sp l) = rstrip_with sp l.
Proof.
  induction l as [|x l IH]; [reflexivity|].
  cbn [rstrip_with]. destruct (rstrip_with sp l) as [|y k] eqn:E.
  - destruct (sp x) eqn:Ex; [reflexivity|]. cbn. rewrite Ex. reflexivity.
  - cbn [rstrip_with]. cbn [rstrip_with] in IH. rewrite IH. reflexivity.
Qed.

Lemma rstrip_with_weaken_in {A : Type} (sp sp' : A -> bool) (l : list A) :
  (forall x, In x l -> sp' x = true -> sp x = true) ->
  rstrip_with sp l = l -> rstrip_with sp' l = l.
Proof.
  induction l as [|x l IH]; [reflexivity|].
  intros Himp H. pose proof (rstrip_with_tail sp x l H) as Hl.
  cbn [rstrip_with] in *.
  rewrite (IH (fun y Hy => Himp y (or_intror Hy)) Hl). rewrite Hl in H.
  destruct l; [|reflexivity].
  destruct (sp x) eqn:Ex; [discriminate|].
  destruct (sp' x) eqn:Ex'; [|reflexivity].
  rewrite (Himp x (or_introl eq_refl) Ex') in Ex. discriminate.
Qed.

Lemma rstrip_with_ext {A : Type} (sp sp' : A -> bool) (l : list A) :
  (forall x, In x l -> sp x = sp' x) ->
  rstrip_with sp l = rstrip_with sp' l.
Proof.
  induction l as [|x l IH]; intros H; [reflexivity|].
  cbn [rstrip_with]. rewrite IH by (intros y Hy; apply H; right; exact Hy).
  rewrite (H x (or_introl eq_refl)). reflexivity.
Qed.

Lemma rstrip_with_map {A B : Type} (f : A -> B) (sp : B -> bool) (l : list A) :
  rstrip_with sp (map f l) = map f (rstrip_with (fun x => sp (f x)) l).
Proof.
  induction l as [|x l IH]; [reflexivity|].
  cbn [map rstrip_with]. rewrite IH.
  destruct (rstrip_with (fun x => sp (f x)) l); cbn [map]; [|reflexivity].
  destruct (sp (f x)); reflexivity.
Qed.

Lemma rstrip_with_spaces {A : Type} (sp : A -> bool) (w : list A) :
  forallb sp w = true -> rstrip_with sp w = [].
Proof.
  induction w as [|x w IH]; [reflexivity|].
  cbn [forallb rstrip_with]. intros H. apply andb_prop in H as [Hx Hw].
  rewrite (IH Hw), Hx. reflexivity.
Qed.

Lemma rstrip_with_app_spaces {A : Type} (sp : A -> bool) (l w : list A) :
  forallb sp w = true -> rstrip_with sp (l ++ w) = rstrip_with sp l.
Proof.
  intros Hw. induction l as [|x l IH].
  - cbn [app]. rewrite rstrip_with_spaces by exact Hw. reflexivity.
  - cbn [app rstrip_with]. rewrite IH. reflexivity.
Qed.

Lemma lstrip_keeps_clean (sp : byte -> bool) (x : byte) (l : bytes) :
  rstrip_with sp l = l -> rstrip_with sp (lstrip x l) = lstrip x l.
Proof.
  induction l as [|y l IH]; [reflexivity|].
  intros H. cbn [lstrip]. destruct (Byte.eqb x y); [|exact H].
  apply IH. exact (rstrip_with_tail sp y l H).
Qed.

Lemma int_of_byte_of_ascii (c : ascii) :
  int_of_byte (byte_of_ascii c) = Z.of_N (N_of_ascii c).
Proof.
  unfold int_of_byte. f_equal. apply Byte.to_of_N.
  symmetry. apply byte_of_ascii_via_N.
Qed.

Lemma unicode_space_low (n : Z) :
  n < 256 -> unicode_space n = str_space n.
Proof.
  intros H. unfold unicode_space.
  repeat match goal with
  | |- context [?a =? ?b] =>
      lazymatch b with
      | 32 => fail | 133 => fail | 160 => fail
      | _ => destruct (Z.eqb_spec a b); [lia|]
      end
  end.
  destruct (Z.leb_spec 0x2000 n); [lia|].
  cbn [andb]. rewrite !orb_false_r. reflexivity.
Qed.

Lemma text_rstrip_of_string (s : string) :
  text_rstrip (text_of_string s) = text_of_string (str_rstrip s).
Proof.
  unfold text_rstrip, text_of_string, str_rstrip.
  rewrite list_ascii_of_string_of_list_ascii, rstrip_with_map. f_equal.
  apply rstrip_with_ext. intros c _. apply unicode_space_low.
  pose proof (N_ascii_bounded c). lia.
Qed.

Lemma byte_of_point_ascii (c : ascii) :
  byte_of_int (Z.of_N (N_of_ascii c)) = byte_of_ascii c.
Proof.
  rewrite <- int_of_byte_of_ascii. apply byte_of_int_of_byte.
Qed.

Lemma forallb_through_map {A B : Type} (f : B -> bool) (g : A -> B)
    (l : list A) :
  forallb f (map g l) = forallb (fun x => f (g x)) l.
Proof.
  induction l as [|x l IH]; [reflexivity|].
  cbn [map forallb]. rewrite IH. reflexivity.
Qed.

Lemma text_encode_ascii_of_string (s : string) :
  text_encode_ascii (text_of_string s) = encode_ascii s.
Proof.
  unfold text_encode_ascii, encode_ascii, text_of_string.
  rewrite forallb_through_map.
  destruct (forallb _ (list_ascii_of_string s)); [|reflexivity].
  f_equal. rewrite map_map. unfold list_byte_of_string.
  apply map_ext. exact byte_of_point_ascii.
Qed.

(** On a [string] the two models of [decode_base58] agree. *)
Lemma decode_base58_text_of_string (s : string) :
  decode_base58_text (text_of_string s) = decode_base58 s.
Proof.
  unfold decode_base58_text, decode_base58, Base58.b58decode_text,
    Base58.b58decode, Base58.scrub_text, Base58.scrub_input.
  cbv zeta. rewrite text_rstrip_of_string, text_encode_ascii_of_string.
  reflexivity.
Qed.

(** ** The decoding loop *)

Lemma members_ok : forallb member_ok Base58.alphabet = true.
Proof. vm_compute. reflexivity. Qed.

Lemma in_alphabet_In (c : byte) : in_alphabet c = true <-> In c Base58.alphabet.
Proof.
  unfold in_alphabet. rewrite existsb_exists. split.
  - intros (y & Hy & E). apply Byte.byte_dec_bl in E. subst. exact Hy.
  - intros H. exists c. split; [exact H | apply Byte.byte_dec_lb; reflexivity].
Qed.

Lemma index_of_none (c : byte) (l : bytes) :
  existsb (Byte.eqb c) l = false -> index_of Byte.eqb c l = None.
Proof.
  induction l as [|y l IH]; [reflexivity|].
  cbn [existsb index_of]. intros H. apply orb_false_elim in H as [Hy Hl].
  rewrite Hy, (IH Hl). reflexivity.
Qed.

Lemma decode_map_outside (c : byte) :
  in_alphabet c = false -> Base58.decode_map c = Raised ValueError.
Proof.
  intros H. unfold Base58.decode_map. rewrite index_of_none by exact H.
  reflexivity.
Qed.

Lemma decode_map_member (c : byte) :
  in_alphabet c = true ->
  exists d, Base58.decode_map c = Returned d /\ 0 <= d < 58 /\
            symbol d = [c] /\ (d = 0 -> c = "1"%byte).
Proof.
  intros H. apply in_alphabet_In in H.
  pose proof (proj1 (forallb_forall _ _) members_ok c H) as Hok.
  unfold member_ok in Hok.
  destruct (Base58.decode_map c) as [d|]; [|discriminate].
  exists d. apply andb_prop in Hok as [Hok H0].
  apply andb_prop in Hok as [Hok Hs]. apply andb_prop in Hok as [Hlo Hhi].
  apply Z.leb_le in Hlo. apply Z.ltb_lt in Hhi.
  split; [reflexivity|]. split; [lia|]. split.
  - destruct (symbol d) as [|c' [|? ?]]; try discriminate.
    apply Byte.byte_dec_bl in Hs. subst. reflexivity.
  - intros ->. cbn in H0. apply Byte.byte_dec_bl in H0. exact H0.
Qed.

Lemma b58decode_loop_app (a b : bytes) (d : Z) :
  Base58.b58decode_loop (a ++ b) d =
  match Base58.b58decode_loop a d with
  | Returned x => Base58.b58decode_loop b x
  | Raised e => Raised e
  end.
Proof.
  revert d. induction a as [|c a IH]; intros d; [reflexivity|].
  cbn [app Base58.b58decode_loop].
  destruct (Base58.decode_map c); [apply IH | reflexivity].
Qed.

Lemma b58decode_loop_members (v : bytes) (d : Z) :
  forallb in_alphabet v = true -> 0 <= d ->
  exists acc, Base58.b58decode_loop v d = Returned acc /\ 0 <= acc.
Proof.
  revert d. induction v as [|c v IH]; intros d Hall Hd.
  - exists d. auto.
  - cbn [forallb] in Hall. apply andb_prop in Hall as [Hc Hv].
    destruct (decode_map_member c Hc) as (x & Hx & Hr & _).
    cbn [Base58.b58decode_loop]. rewrite Hx, base_58.
    apply IH; [exact Hv | lia].
Qed.

Lemma b58decode_loop_outside (v : bytes) (d : Z) :
  forallb in_alphabet v = false ->
  Base58.b58decode_loop v d = Raised ValueError.
Proof.
  revert d. induction v as [|c v IH]; intros d Hall; [discriminate|].
  cbn [forallb] in Hall. cbn [Base58.b58decode_loop].
  destruct (in_alphabet c) eqn:Hc.
  - destruct (decode_map_member c Hc) as (x & -> & _). apply IH. exact Hall.
  - rewrite decode_map_outside by exact Hc. reflexivity.
Qed.

Lemma forallb_lstrip_one (v : bytes) :
  forallb in_alphabet (lstrip "1"%byte v) = forallb in_alphabet v.
Proof.
  induction v as [|c v IH]; [reflexivity|].
  cbn [lstrip]. destruct (Byte.eqb "1" c) eqn:E; [|reflexivity].
  apply Byte.byte_dec_bl in E. subst c. cbn [forallb]. rewrite IH.
  reflexivity.
Qed.

(** ** Code points of symbols *)

Lemma point_is_symbol_inv (c : N) :
  point_is_symbol c = true ->
  point_is_ascii c = true /\ in_alphabet (byte_of_point c) = true.
Proof.
  unfold point_is_symbol. rewrite existsb_exists.
  intros (n & Hn & E). apply N.eqb_eq in E. subst n.
  apply in_map_iff in Hn as (b & <- & Hb).
  pose proof (proj1 (forallb_forall _ _) alphabet_plain b Hb) as Hp.
  unfold plain in Hp. apply andb_prop in Hp as [_ Hp].
  rewrite <- int_of_byte_of_ascii, byte_of_ascii_of_byte in Hp.
  split; [exact Hp|].
  unfold byte_of_point. fold (int_of_byte b). rewrite byte_of_int_of_byte.
  apply in_alphabet_In. exact Hb.
Qed.

Lemma point_is_symbol_low (c : N) :
  point_is_ascii c = true ->
  point_is_symbol c = in_alphabet (byte_of_point c).
Proof.
  intros Ha. unfold point_is_ascii in Ha. apply Z.ltb_lt in Ha.
  assert (Hc : Byte.to_N (byte_of_point c) = c).
  { apply N2Z.inj. fold (int_of_byte (byte_of_point c)).
    unfold byte_of_point. rewrite int_of_byte_of_int. apply Z.mod_small. lia. }
  destruct (in_alphabet (byte_of_point c)) eqn:E.
  - apply in_alphabet_In in E. unfold point_is_symbol.
    apply existsb_exists. exists c. split; [|apply N.eqb_refl].
    apply in_map_iff. exists (byte_of_point c). split; assumption.
  - destruct (point_is_symbol c) eqn:E'; [|reflexivity].
    apply point_is_symbol_inv in E' as [_ E']. congruence.
Qed.

Lemma forallb_symbols_ascii (l : text) :
  forallb point_is_symbol l = true -> forallb point_is_ascii l = true.
Proof.
  intros H. apply forallb_forall. intros c Hc.
  exact (proj1 (point_is_symbol_inv c (proj1 (forallb_forall _ _) H c Hc))).
Qed.

Lemma forallb_symbols_bytes (l : text) :
  forallb point_is_ascii l = true ->
  forallb in_alphabet (map byte_of_point l) = forallb point_is_symbol l.
Proof.
  induction l as [|c l IH]; [reflexivity|].
  cbn [map forallb]. intros H. apply andb_prop in H as [Hc Hl].
  rewrite IH by exact Hl. rewrite point_is_symbol_low by exact Hc.
  reflexivity.
Qed.

(** ** What [b58decode] computes *)

Lemma text_bytes_clean (s : text) :
  forallb point_is_ascii (text_rstrip s) = true ->
  bytes_rstrip (map byte_of_point (text_rstrip s)) =
  map byte_of_point (text_rstrip s).
Proof.
  intros Ha. unfold bytes_rstrip. rewrite rstrip_with_map. f_equal.
  apply rstrip_with_weaken_in
    with (sp := fun c => unicode_space (Z.of_N c)).
  - intros c Hc. pose proof (proj1 (forallb_forall _ _) Ha c Hc) as H.
    unfold point_is_ascii in H. apply Z.ltb_lt in H.
    unfold byte_of_point. rewrite int_of_byte_of_int, Z.mod_small by lia.
    unfold unicode_space, str_space. intros ->. reflexivity.
  - apply rstrip_with_idem.
Qed.

Lemma b58decode_text_unfold (s : text) :
  forallb point_is_ascii (text_rstrip s) = true ->
  Base58.b58decode_text s = b58decode_bytes (map byte_of_point (text_rstrip s)).
Proof.
  intros Hascii.
  unfold Base58.b58decode_text, Base58.scrub_text, text_encode_ascii.
  cbv zeta. unfold point_is_ascii in Hascii. rewrite Hascii.
  cbn [lift bind].
  change (hd x00 (firstn 1 Base58.alphabet)) with "1"%byte.
  unfold Base58.b58decode_int.
  change (existsb (Byte.eqb " ") Base58.alphabet) with false. cbv iota.
  unfold bytes_rstrip at 1.
  rewrite lstrip_keeps_clean by (apply text_bytes_clean; exact Hascii).
  unfold b58decode_bytes.
  destruct (Base58.b58decode_loop _ 0) as [acc|e]; cbn [lift bind call];
    [|reflexivity].
  destruct (to_bytes_big acc _); reflexivity.
Qed.

Lemma to_bytes_big_fits (acc : Z) (k : nat) :
  0 <= acc ->
  to_bytes_big acc (Z.of_nat k + (bit_length acc + 7) / 8) =
  Returned (repeat x00 k ++
            be_digits (Z.to_nat ((bit_length acc + 7) / 8)) acc).
Proof.
  intros Hacc.
  assert (Hbl : 0 <= bit_length acc).
  { unfold bit_length. destruct (acc =? 0); [lia|].
    pose proof (Z.log2_nonneg (Z.abs acc)). lia. }
  set (m := (bit_length acc + 7) / 8).
  assert (Hm : 0 <= m /\ bit_length acc <= 8 * m).
  { unfold m. Z.div_mod_to_equations. lia. }
  assert (Hlt : acc < 256 ^ m).
  { pose proof (bit_length_bound acc Hacc) as Hb.
    rewrite Z2Nat.id in Hb by lia.
    change 256 with (2 ^ 8). rewrite <- Z.pow_mul_r by lia.
    eapply Z.lt_le_trans; [exact Hb|]. apply Z.pow_le_mono_r; lia. }
  assert (Hle : 256 ^ m <= 256 ^ (Z.of_nat k + m))
    by (apply Z.pow_le_mono_r; lia).
  unfold to_bytes_big.
  destruct (Z.of_nat k + m <? 0) eqn:E1; [apply Z.ltb_lt in E1; lia|].
  destruct (acc <? 0) eqn:E2; [apply Z.ltb_lt in E2; lia|].
  destruct (256 ^ (Z.of_nat k + m) <=? acc) eqn:E3;
    [apply Z.leb_le in E3; lia|].
  cbn [orb]. f_equal.
  replace (Z.to_nat (Z.of_nat k + m)) with (k + Z.to_nat m)%nat by lia.
  apply be_digits_pad. rewrite Z2Nat.id by lia. lia.
Qed.

Lemma b58decode_bytes_outside (v : bytes) :
  forallb in_alphabet v = false -> b58decode_bytes v = Raised ValueError.
Proof.
  intros H. unfold b58decode_bytes.
  rewrite b58decode_loop_outside; [reflexivity|].
  rewrite forallb_lstrip_one. exact H.
Qed.

(** X9. [decode_base58] ignores white space at the end of the text, any
    white space of Unicode: U+2003 and U+3000 as well as the blank and the
    line feed. *)
Theorem decode_base58_trailing_space (s w : text) :
  forallb (fun c => unicode_space (Z.of_N c)) w = true ->
  decode_base58_text (s ++ w) = decode_base58_text s.
Proof.
  intros Hw. unfold decode_base58_text, Base58.b58decode_text.
  assert (E : text_rstrip (s ++ w) = text_rstrip s).
  { unfold text_rstrip. apply rstrip_with_app_spaces. exact Hw. }
  cbv zeta. rewrite E. reflexivity.
Qed.

Lemma decode_base58_trailing_space_witness :
  decode_base58_text
    (text_of_string "1BgGZ9tcN4rm9KBzDn7KprQz87SZ26SAMH" ++
     [0x2003%N; 32%N; 0x3000%N; 10%N]) =
  decode_base58_text (text_of_string "1BgGZ9tcN4rm9KBzDn7KprQz87SZ26SAMH").
Proof.
  apply (decode_base58_trailing_space
           (text_of_string "1BgGZ9tcN4rm9KBzDn7KprQz87SZ26SAMH")
           [0x2003%N; 32%N; 0x3000%N; 10%N]).
  reflexivity.
Defined.

(** ** Canonical digits *)

Lemma b58encode_loop_zero (fuel : nat) (s : bytes) :
  Base58.b58encode_loop fuel 0 s = s.
Proof. destruct fuel; reflexivity. Qed.

Lemma lstrip_prefix (x : byte) (l m : bytes) :
  lstrip x (l ++ m) = l ++ m -> lstrip x l = l.
Proof.
  destruct l as [|y l]; [reflexivity|].
  cbn [app lstrip]. destruct (Byte.eqb x y); [|reflexivity].
  intros H. apply (f_equal (@length byte)) in H.
  destruct (lstrip_split x (l ++ m)) as (_ & Hlen & _).
  cbn [length] in H. lia.
Qed.

Lemma b58encode_loop_value (ds : bytes) :
  forallb in_alphabet ds = true ->
  lstrip "1"%byte ds = ds ->
  forall acc, Base58.b58decode_loop ds 0 = Returned acc ->
  forall fuel s, acc < 2 ^ Z.of_nat fuel ->
  Base58.b58encode_loop fuel acc s = ds ++ s.
Proof.
  induction ds as [|c ds IH] using rev_ind; intros Hall Hcan acc Hval fuel s Hf.
  - cbn in Hval. injection Hval as <-. apply b58encode_loop_zero.
  - rewrite forallb_app in Hall. apply andb_prop in Hall as [Hds Hc].
    cbn [forallb] in Hc. rewrite andb_true_r in Hc.
    pose proof (lstrip_prefix _ _ _ Hcan) as Hcan'.
    destruct (b58decode_loop_members ds 0 Hds ltac:(lia)) as (q & Hq & Hq0).
    destruct (decode_map_member c Hc) as (d & Hd & Hdr & Hsym & Hone).
    rewrite b58decode_loop_app, Hq in Hval.
    cbn [Base58.b58decode_loop] in Hval. rewrite Hd, base_58 in Hval.
    injection Hval as <-.
    specialize (IH Hds Hcan' q Hq).
    assert (Hpos : 0 < q * 58 + d).
    { destruct ds as [|y t].
      - cbn in Hq. injection Hq as <-.
        destruct (Z.eq_dec d 0) as [E|E]; [|lia].
        specialize (Hone E). subst c. cbn in Hcan. discriminate.
      - destruct (Z.eq_dec q 0) as [E|E]; [|lia].
        subst q. specialize (IH 0%nat [] ltac:(cbn; lia)).
        cbn in IH. discriminate. }
    destruct fuel as [|fuel]; [cbn in Hf; lia|].
    rewrite Nat2Z.inj_succ, Z.pow_succ_r in Hf by lia.
    cbn [Base58.b58encode_loop]. unfold truthy.
    destruct (q * 58 + d =? 0) eqn:E0; [apply Z.eqb_eq in E0; lia|].
    cbn [negb]. rewrite base_58.
    replace ((q * 58 + d) mod 58) with d
      by (rewrite Z.add_comm, Z.mod_add, Z.mod_small; lia).
    replace ((q * 58 + d) / 58) with q
      by (rewrite Z.div_add_l, Z.div_small; lia).
    fold (symbol d). rewrite Hsym, IH by lia.
    rewrite <- app_assoc. reflexivity.
Qed.

(** ** Minimal big-endian bytes *)

Lemma be_digits_length (len : nat) (n : Z) : length (be_digits len n) = len.
Proof.
  revert n. induction len as [|len IH]; intros n; [reflexivity|].
  cbn [be_digits]. rewrite length_app, IH. cbn. lia.
Qed.

Lemma from_bytes_be_digits (len : nat) (n : Z) :
  0 <= n < 256 ^ Z.of_nat len -> from_bytes_big (be_digits len n) = n.
Proof.
  revert n. induction len as [|len IH]; intros n Hn.
  - cbn in Hn. cbn. lia.
  - rewrite Nat2Z.inj_succ, Z.pow_succ_r in Hn by lia.
    cbn [be_digits]. rewrite from_bytes_big_snoc, int_of_byte_of_int, IH.
    + pose proof (Z.div_mod n 256). lia.
    + split; [apply Z.div_pos; lia | apply Z.div_lt_upper_bound; lia].
Qed.

Lemma be_digits_minimal (acc : Z) :
  0 <= acc ->
  let w := be_digits (Z.to_nat ((bit_length acc + 7) / 8)) acc in
  from_bytes_big w = acc /\ lstrip x00 w = w.
Proof.
  intros Hacc w.
  assert (Hbl : 0 <= bit_length acc).
  { unfold bit_length. destruct (acc =? 0); [lia|].
    pose proof (Z.log2_nonneg (Z.abs acc)). lia. }
  set (m := (bit_length acc + 7) / 8) in *.
  assert (Hm : 0 <= m /\ bit_length acc <= 8 * m /\ 8 * m <= bit_length acc + 7).
  { unfold m. Z.div_mod_to_equations. lia. }
  assert (Hlt : acc < 256 ^ m).
  { pose proof (bit_length_bound acc Hacc) as Hb.
    rewrite Z2Nat.id in Hb by lia.
    change 256 with (2 ^ 8). rewrite <- Z.pow_mul_r by lia.
    eapply Z.lt_le_trans; [exact Hb|]. apply Z.pow_le_mono_r; lia. }
  assert (Hw : from_bytes_big w = acc).
  { apply from_bytes_be_digits. rewrite Z2Nat.id by lia. lia. }
  split; [exact Hw|].
  destruct w as [|y t] eqn:Ew; [reflexivity|].
  cbn [lstrip]. destruct (Byte.eqb x00 y) eqn:E; [|reflexivity].
  exfalso. apply Byte.byte_dec_bl in E. subst y.
  pose proof (be_digits_length (Z.to_nat m) acc) as Hlen.
  fold w in Hlen. rewrite Ew in Hlen. cbn [length] in Hlen.
  pose proof (from_bytes_big_range t) as Ht.
  rewrite from_bytes_big_cons in Hw. change (int_of_byte x00) with 0 in Hw.
  assert (Hnz : acc <> 0).
  { intros ->. unfold m in Hlen. cbn in Hlen. discriminate. }
  assert (Hlow : 2 ^ (bit_length acc - 1) <= acc).
  { unfold bit_length. destruct (acc =? 0) eqn:E0;
      [apply Z.eqb_eq in E0; lia|].
    rewrite Z.abs_eq by lia.
    replace (Z.log2 acc + 1 - 1) with (Z.log2 acc) by lia.
    apply Z.log2_spec. lia. }
  assert (Hge : 256 ^ Z.of_nat (length t) <= 2 ^ (bit_length acc - 1)).
  { change 256 with (2 ^ 8). rewrite <- Z.pow_mul_r by lia.
    apply Z.pow_le_mono_r; lia. }
  lia.
Qed.

Lemma b58decode_bytes_canonical (v : bytes) :
  forallb in_alphabet v = true ->
  exists b, b58decode_bytes v = Returned b /\ Base58.b58encode b = v.
Proof.
  intros Hs. unfold b58decode_bytes.
  set (v1 := lstrip "1"%byte v).
  assert (Hv1 : forallb in_alphabet v1 = true).
  { unfold v1. rewrite forallb_lstrip_one. exact Hs. }
  destruct (b58decode_loop_members _ 0 Hv1 ltac:(lia)) as (acc & Hval & Hacc).
  rewrite Hval.
  destruct (lstrip_split "1"%byte v) as (Hv & Hlen & Hhd). fold v1 in Hv, Hlen, Hhd.
  set (k := (length v - length v1)%nat) in *.
  replace (Z.of_nat (length v) - Z.of_nat (length v1)) with (Z.of_nat k) by lia.
  rewrite to_bytes_big_fits by exact Hacc.
  eexists. split; [reflexivity|].
  destruct (be_digits_minimal acc Hacc) as [Hw Hstrip].
  set (w := be_digits (Z.to_nat ((bit_length acc + 7) / 8)) acc) in *.
  assert (Hcan : lstrip "1"%byte v1 = v1).
  { destruct v1 as [|y t] eqn:E1; [reflexivity|].
    cbn [lstrip]. destruct (Byte.eqb "1" y) eqn:E; [|reflexivity].
    apply Byte.byte_dec_bl in E. exfalso.
    exact (Hhd y t eq_refl (eq_sym E)). }
  unfold Base58.b58encode.
  rewrite lstrip_repeat by exact Hstrip.
  rewrite Hw, length_app, repeat_length.
  change (firstn 1 Base58.alphabet) with ["1"%byte].
  rewrite times_single.
  replace (Z.to_nat (Z.of_nat (k + length w) - Z.of_nat (length w))) with k by lia.
  unfold Base58.b58encode_int. rewrite andb_false_r.
  rewrite (b58encode_loop_value v1 Hv1 Hcan acc Hval)
    by (apply bit_length_bound; exact Hacc).
  rewrite app_nil_r, <- Hv. reflexivity.
Qed.

Lemma text_of_ascii_bytes (l : text) :
  forallb point_is_ascii l = true ->
  text_of_string (str_of_ascii_bytes (map byte_of_point l)) = l.
Proof.
  intros Ha. unfold text_of_string. rewrite list_ascii_of_bytes, !map_map.
  rewrite <- (map_id l) at 2. apply map_ext_in. intros c Hc.
  pose proof (proj1 (forallb_forall _ _) Ha c Hc) as H.
  unfold point_is_ascii in H. apply Z.ltb_lt in H.
  apply N2Z.inj. rewrite <- int_of_byte_of_ascii, byte_of_ascii_of_byte.
  unfold byte_of_point. rewrite int_of_byte_of_int. apply Z.mod_small. lia.
Qed.

(** X8. [decode_base58] fails exactly on the texts that, trailing white
    space apart, hold a character outside the base-58 alphabet: with
    UnicodeEncodeError when a code point is not ASCII, with ValueError
    otherwise; every other text is decoded.  The text is any [str], a list
    of Unicode code points. *)
Theorem decode_base58_outcome (s : text) :
  (forallb point_is_ascii (text_rstrip s) = false ->
   decode_base58_text s = Raised UnicodeEncodeError) /\
  (forallb point_is_ascii (text_rstrip s) = true ->
   forallb point_is_symbol (text_rstrip s) = false ->
   decode_base58_text s = Raised ValueError) /\
  (forallb point_is_symbol (text_rstrip s) = true ->
   exists b, decode_base58_text s = Returned b).
Proof.
  split; [|split].
  - intros H. unfold decode_base58_text, Base58.b58decode_text,
      Base58.scrub_text, text_encode_ascii.
    cbv zeta. unfold point_is_ascii in H. rewrite H. reflexivity.
  - intros Ha Hs. unfold decode_base58_text.
    rewrite b58decode_text_unfold by exact Ha.
    apply b58decode_bytes_outside.
    rewrite forallb_symbols_bytes by exact Ha. exact Hs.
  - intros Hs. pose proof (forallb_symbols_ascii _ Hs) as Ha.
    unfold decode_base58_text. rewrite b58decode_text_unfold by exact Ha.
    destruct (b58decode_bytes_canonical (map byte_of_point (text_rstrip s)))
      as (b & Hb & _).
    { rewrite forallb_symbols_bytes by exact Ha. exact Hs. }
    exists b. exact Hb.
Qed.

Lemma decode_base58_outcome_witness :
  decode_base58_text
    (text_of_string "1BgGZ9tcN4rm9KBzDn7KprQz87SZ26SAM" ++ [0x20ac%N]) =
    Raised UnicodeEncodeError /\
  decode_base58_text
    (text_of_string "1BgGZ9tcN4rm9KBzDn7KprQz87SZ26SAM H" ++ [0x2003%N]) =
    Raised ValueError /\
  exists b,
    decode_base58_text
      (text_of_string "1BgGZ9tcN4rm9KBzDn7KprQz87SZ26SAMH" ++ [0x2003%N]) =
    Returned b.
Proof.
  split; [|split].
  - pose proof (decode_base58_outcome
      (text_of_string "1BgGZ9tcN4rm9KBzDn7KprQz87SZ26SAM" ++ [0x20ac%N])) as H.
    destruct H as (H & _ & _). apply H. vm_compute. reflexivity.
  - pose proof (decode_base58_outcome
      (text_of_string "1BgGZ9tcN4rm9KBzDn7KprQz87SZ26SAM H" ++ [0x2003%N])) as H.
    destruct H as (_ & H & _). apply H; vm_compute; reflexivity.
  - pose proof (decode_base58_outcome
      (text_of_string "1BgGZ9tcN4rm9KBzDn7KprQz87SZ26SAMH" ++ [0x2003%N])) as H.
    destruct H as (_ & _ & H). apply H. vm_compute. reflexivity.
Defined.

(** X10. A text over the base-58 alphabet is the only text of the bytes
    [decode_base58] returns for it: encoding those bytes gives the text back,
    its trailing white space dropped.  The text is any [str]. *)
Theorem decode_base58_canonical (s : text) :
  forallb point_is_symbol (text_rstrip s) = true ->
  exists b,
    decode_base58_text s = Returned b /\
    text_of_string (str_of_ascii_bytes (Base58.b58encode b)) = text_rstrip s.
Proof.
  intros Hs. pose proof (forallb_symbols_ascii _ Hs) as Ha.
  unfold decode_base58_text. rewrite b58decode_text_unfold by exact Ha.
  destruct (b58decode_bytes_canonical (map byte_of_point (text_rstrip s)))
    as (b & Hb & Henc).
  { rewrite forallb_symbols_bytes by exact Ha. exact Hs. }
  exists b. split; [exact Hb|].
  rewrite Henc. apply text_of_ascii_bytes. exact Ha.
Qed.

Lemma decode_base58_canonical_witness :
  exists b,
    decode_base58_text
      (text_of_string "1BgGZ9tcN4rm9KBzDn7KprQz87SZ26SAMH" ++ [0x2003%N]) =
    Returned b /\
    text_of_string (str_of_ascii_bytes (Base58.b58encode b)) =
    text_rstrip
      (text_of_string "1BgGZ9tcN4rm9KBzDn7KprQz87SZ26SAMH" ++ [0x2003%N]).
Proof.
  apply (decode_base58_canonical
           (text_of_string "1BgGZ9tcN4rm9KBzDn7KprQz87SZ26SAMH" ++ [0x2003%N])).
  vm_compute. reflexivity.
Defined.

(* ===================================================================== *)
(** * The base-58 encoding of the specification                         *)
(* ===================================================================== *)

Lemma byte_of_ascii_eqb (c d : ascii) :
  Byte.eqb (byte_of_ascii c) (byte_of_ascii d) = Ascii.eqb c d.
Proof.
  destruct (Ascii.eqb_spec c d) as [-> | Hne].
  - apply Byte.byte_dec_lb. reflexivity.
  - destruct (Byte.eqb _ _) eqn:E; [|reflexivity].
    apply Byte.byte_dec_bl in E. exfalso. apply Hne.
    rewrite <- (ascii_of_byte_of_ascii c), <- (ascii_of_byte_of_ascii d), E.
    reflexivity.
Qed.

Lemma index_of_bytes (c : ascii) (l : list ascii) :
  index_of Byte.eqb (byte_of_ascii c) (map byte_of_ascii l) =
  index_of Ascii.eqb c l.
Proof.
  induction l as [|y l IH]; [reflexivity|].
  cbn [map index_of]. rewrite byte_of_ascii_eqb, IH. reflexivity.
Qed.

Lemma spec_base58_digit_map (c : ascii) :
  spec_base58_digit c =
  match Base58.decode_map (byte_of_ascii c) with
  | Returned d => Some d
  | Raised _ => None
  end.
Proof.
  unfold spec_base58_digit, Base58.decode_map.
  change Base58.alphabet
    with (map byte_of_ascii (list_ascii_of_string spec_base58_alphabet)).
  rewrite index_of_bytes.
  destruct (index_of Ascii.eqb c _); reflexivity.
Qed.

Lemma spec_base58_number_loop (t : list ascii) (acc : Z) :
  spec_base58_number t acc =
  match Base58.b58decode_loop (map byte_of_ascii t) acc with
  | Returned n => Some n
  | Raised _ => None
  end.
Proof.
  revert acc. induction t as [|c t IH]; intros acc; [reflexivity|].
  cbn [map spec_base58_number Base58.b58decode_loop].
  rewrite spec_base58_digit_map, base_58.
  destruct (Base58.decode_map (byte_of_ascii c)); [apply IH | reflexivity].
Qed.

Lemma leading_bytes (c : ascii) (l : list ascii) :
  leading Byte.eqb (byte_of_ascii c) (map byte_of_ascii l) =
  leading Ascii.eqb c l.
Proof.
  induction l as [|y l IH]; [reflexivity|].
  cbn [map leading]. rewrite byte_of_ascii_eqb, IH. reflexivity.
Qed.

Lemma leading_lstrip (x : byte) (l : bytes) :
  l = repeat x (leading Byte.eqb x l) ++ lstrip x l /\
  lstrip x (lstrip x l) = lstrip x l.
Proof.
  induction l as [|y l [IH1 IH2]]; [split; reflexivity|].
  cbn [leading lstrip]. destruct (Byte.eqb x y) eqn:E.
  - apply Byte.byte_dec_bl in E. subst y. cbn [repeat app].
    split; [f_equal; exact IH1 | exact IH2].
  - split; [reflexivity|]. cbn [lstrip]. rewrite E. reflexivity.
Qed.

Lemma leading_repeat (x : byte) (k : nat) (l : bytes) :
  lstrip x l = l -> leading Byte.eqb x (repeat x k ++ l) = k.
Proof.
  intros Hl. induction k as [|k IH].
  - cbn [repeat app]. destruct l as [|y l]; [reflexivity|].
    cbn [leading lstrip] in *. destruct (Byte.eqb x y); [|reflexivity].
    exfalso. apply (f_equal (@length byte)) in Hl.
    destruct (lstrip_split x l) as (_ & Hlen & _). cbn [length] in Hl. lia.
  - cbn [repeat app leading]. rewrite (Byte.byte_dec_lb eq_refl), IH.
    reflexivity.
Qed.

Lemma lstrip_head (x : byte) (l : bytes) :
  (forall y rest, l = y :: rest -> y <> x) -> lstrip x l = l.
Proof.
  intros H. destruct l as [|y l]; [reflexivity|].
  cbn [lstrip]. destruct (Byte.eqb x y) eqn:E; [|reflexivity].
  apply Byte.byte_dec_bl in E. exfalso. exact (H y l eq_refl (eq_sym E)).
Qed.

Lemma b58decode_loop_ones (k : nat) (ds : bytes) :
  Base58.b58decode_loop (repeat "1"%byte k ++ ds) 0 =
  Base58.b58decode_loop ds 0.
Proof.
  induction k as [|k IH]; [reflexivity|].
  cbn [repeat app Base58.b58decode_loop].
  change (Base58.decode_map "1") with (@Returned Z 0). exact IH.
Qed.

Lemma b58decode_loop_returned (v : bytes) (d n : Z) :
  Base58.b58decode_loop v d = Returned n -> forallb in_alphabet v = true.
Proof.
  intros H. destruct (forallb in_alphabet v) eqn:E; [reflexivity|].
  rewrite (b58decode_loop_outside v d E) in H. discriminate.
Qed.

Lemma b58encode_leading_value (v : bytes) :
  Base58.b58encode v =
  repeat "1"%byte (leading Byte.eqb x00 v) ++
  Base58.b58encode_int (from_bytes_big v) false.
Proof.
  destruct (leading_lstrip x00 v) as [Hv _].
  unfold Base58.b58encode.
  change (firstn 1 Base58.alphabet) with ["1"%byte].
  rewrite times_single. f_equal.
  - f_equal. rewrite Hv at 1. rewrite length_app, repeat_length. lia.
  - f_equal. rewrite Hv at 2. rewrite from_bytes_big_zeros. reflexivity.
Qed.

Lemma spec_base58_encoding_b58encode (v : bytes) :
  spec_base58_encoding v (str_of_ascii_bytes (Base58.b58encode v)) = true.
Proof.
  unfold spec_base58_encoding. cbv zeta. rewrite list_ascii_of_bytes.
  rewrite spec_base58_number_loop, <- (leading_bytes "1"%char).
  rewrite map_map.
  rewrite (map_ext _ (fun b => b)) by (intros b; apply byte_of_ascii_of_byte).
  rewrite map_id.
  change (byte_of_ascii "1") with "1"%byte.
  rewrite b58encode_leading_value.
  pose proof (from_bytes_big_range v) as Hr.
  destruct (b58encode_int_inv (from_bytes_big v) ltac:(lia))
    as (ds & -> & _ & Hcan & Hval).
  rewrite leading_repeat by exact Hcan. rewrite Nat.eqb_refl.
  rewrite b58decode_loop_ones, Hval, Z.eqb_refl. reflexivity.
Qed.

Lemma spec_base58_encoding_unique (v : bytes) (t : string) :
  spec_base58_encoding v t = true ->
  t = str_of_ascii_bytes (Base58.b58encode v).
Proof.
  unfold spec_base58_encoding. cbv zeta.
  rewrite spec_base58_number_loop, <- (leading_bytes "1"%char).
  change (byte_of_ascii "1") with "1"%byte.
  set (w := map byte_of_ascii (list_ascii_of_string t)).
  intros H. apply andb_prop in H as [Hk Hn]. apply Nat.eqb_eq in Hk.
  destruct (Base58.b58decode_loop w 0) as [n|] eqn:Hw; [|discriminate].
  apply Z.eqb_eq in Hn. subst n.
  destruct (leading_lstrip "1"%byte w) as [Hsplit Hcan].
  rewrite Hsplit, b58decode_loop_ones in Hw.
  pose proof (b58decode_loop_returned _ _ _ Hw) as Hall.
  pose proof (from_bytes_big_range v) as Hr.
  rewrite b58encode_leading_value, <- Hk.
  unfold Base58.b58encode_int. rewrite andb_false_r.
  rewrite (b58encode_loop_value _ Hall Hcan _ Hw)
    by (apply bit_length_bound; lia).
  rewrite app_nil_r, <- Hsplit. unfold w, str_of_ascii_bytes.
  symmetry. apply string_of_list_byte_of_string.
Qed.

(** ** Known vectors of the checksum *)

Example hash256_hello :
  hex (hash256 (bytes_of_string "hello")) =
  "9595c9df90075148eb06860365df33584b75bff782a510c6cd4883a419833d50"%string.
Proof. vm_compute. reflexivity. Qed.

Example checksum_vector :
  hex (firstn 4 (hash256 (unhex "00f54a5851e9372b87810a8e60cdd2e7cfd80b6e31"))) =
  "c7f18fe8"%string /\
  encode_base58_checksum (unhex "00f54a5851e9372b87810a8e60cdd2e7cfd80b6e31") =
  "1PMycacnJaSqwwJqjawXBErnLsZ7RkXUAs"%string.
Proof. vm_compute. split; reflexivity. Qed.

(** C8. [encode_base58_checksum b] is the base-58 encoding of [b] followed
    by the first four bytes of the double SHA-256 of [b]: it is the one text
    that writes the big-endian number of those bytes over the standard
    alphabet, with one 1 for each leading zero byte.  The known vectors fix
    the digest: the double SHA-256 of hello, and the checksum c7f18fe8 and
    address of a version-0 payload. *)
Theorem encode_base58_checksum_spec :
  (forall b : bytes,
      let checksum := firstn 4 (Hashlib.sha256 (Hashlib.sha256 b)) in
      hash256 b = Hashlib.sha256 (Hashlib.sha256 b) /\
      length (hash256 b) = 32%nat /\
      length checksum = 4%nat /\
      spec_base58_encoding (b ++ checksum) (encode_base58_checksum b) = true /\
      (forall t : string,
          spec_base58_encoding (b ++ checksum) t = true <->
          t = encode_base58_checksum b)) /\
  hex (hash256 (bytes_of_string "hello")) =
    "9595c9df90075148eb06860365df33584b75bff782a510c6cd4883a419833d50"%string /\
  hex (firstn 4 (hash256 (unhex "00f54a5851e9372b87810a8e60cdd2e7cfd80b6e31"))) =
    "c7f18fe8"%string /\
  encode_base58_checksum (unhex "00f54a5851e9372b87810a8e60cdd2e7cfd80b6e31") =
    "1PMycacnJaSqwwJqjawXBErnLsZ7RkXUAs"%string.
Proof.
  split; [|split; [exact hash256_hello | exact checksum_vector]].
  intros b. cbv zeta. split; [reflexivity|]. split; [apply hash256_length|].
  split; [apply checksum_length|]. split.
  - apply spec_base58_encoding_b58encode.
  - intros t. split.
    + apply spec_base58_encoding_unique.
    + intros ->. apply spec_base58_encoding_b58encode.
Qed.

(* ===================================================================== *)
(** * Converting between groups of bits                                 *)
(* ===================================================================== *)

(** ** Bits *)

Lemma low_bits_false (v f n : Z) :
  0 <= v < 2 ^ f -> f <= n -> Z.testbit v n = false.
Proof.
  intros Hv Hn. destruct (Z.eq_dec v 0) as [->|Hnz]; [apply Z.bits_0|].
  apply Z.bits_above_log2; [lia|].
  assert (0 <= f).
  { destruct (Z_lt_le_dec f 0) as [Hneg|]; [|lia].
    rewrite Z.pow_neg_r in Hv by lia. lia. }
  assert (Z.log2 v < f) by (apply Z.log2_lt_pow2; lia). lia.
Qed.

Lemma land_shiftl_low (a v f : Z) :
  0 <= v < 2 ^ f -> Z.land (Z.shiftl a f) v = 0.
Proof.
  intros Hv. apply Z.bits_inj'. intros n Hn.
  rewrite Z.land_spec, Z.bits_0.
  destruct (Z_lt_le_dec n f) as [Hlt|Hge].
  - rewrite Z.shiftl_spec_low by lia. reflexivity.
  - rewrite (low_bits_false v f n) by lia. apply andb_false_r.
Qed.

Lemma lor_shiftl_low (a v f : Z) :
  0 <= f -> 0 <= v < 2 ^ f -> Z.lor (Z.shiftl a f) v = a * 2 ^ f + v.
Proof.
  intros Hf Hv.
  rewrite <- Z.lxor_lor, <- Z.add_nocarry_lxor by (apply land_shiftl_low; lia).
  rewrite Z.shiftl_mul_pow2 by lia. reflexivity.
Qed.

Lemma lxor_shiftl_low (a v f : Z) :
  0 <= f -> 0 <= v < 2 ^ f -> Z.lxor (Z.shiftl a f) v = a * 2 ^ f + v.
Proof.
  intros Hf Hv.
  rewrite <- Z.add_nocarry_lxor by (apply land_shiftl_low; lia).
  rewrite Z.shiftl_mul_pow2 by lia. reflexivity.
Qed.

Lemma mask_ones (n : Z) : Z.shiftl 1 n - 1 = Z.ones n.
Proof. unfold Z.ones. lia. Qed.

(** A window of [t] bits at position [b] reads the same in two integers
    that agree modulo [2 ^ m], when the window lies below [m]. *)
Lemma window_mod (a V b t m : Z) :
  0 <= b -> 0 <= t -> b + t <= m ->
  a mod 2 ^ m = V mod 2 ^ m ->
  (a / 2 ^ b) mod 2 ^ t = (V / 2 ^ b) mod 2 ^ t.
Proof.
  intros Hb Ht Hm E.
  assert (W : forall x, (x / 2 ^ b) mod 2 ^ t = ((x mod 2 ^ m) / 2 ^ b) mod 2 ^ t).
  { intros x.
    rewrite <- !Z.shiftr_div_pow2, <- !Z.land_ones by lia.
    apply Z.bits_inj'. intros n Hn.
    rewrite !Z.land_spec, !Z.shiftr_spec, ?Z.land_spec by lia.
    rewrite !Z.testbit_ones_nonneg by lia.
    destruct (Z.ltb_spec n t) as [Hlt|Hge];
      [|rewrite !andb_false_r; reflexivity].
    destruct (Z.ltb_spec (n + b) m); [|lia].
    rewrite !andb_true_r. reflexivity. }
  rewrite (W a), (W V), E. reflexivity.
Qed.

(** ** Groups *)

Lemma groups_value_fold (w : Z) (l : list Z) (a : Z) :
  fold_left (fun a v => a * 2 ^ w + v) l a =
  a * 2 ^ (w * Z.of_nat (length l)) + groups_value w l.
Proof.
  unfold groups_value. revert a.
  induction l as [|x l IH]; intros a.
  - cbn. rewrite Z.mul_0_r. cbn. lia.
  - cbn [fold_left length]. rewrite IH, (IH (0 * 2 ^ w + x)).
    destruct (Z_lt_le_dec w 0) as [Hneg|Hw].
    + rewrite (Z.pow_neg_r 2 w) by lia.
      rewrite (Z.pow_neg_r 2 (w * Z.of_nat (S (length l)))) by nia.
      lia.
    + rewrite Nat2Z.inj_succ.
      replace (w * Z.succ (Z.of_nat (length l)))
        with (w + w * Z.of_nat (length l)) by lia.
      rewrite Z.pow_add_r by nia. ring.
Qed.

Lemma groups_value_cons (w x : Z) (l : list Z) :
  groups_value w (x :: l) =
  x * 2 ^ (w * Z.of_nat (length l)) + groups_value w l.
Proof.
  unfold groups_value at 1. cbn [fold_left].
  rewrite groups_value_fold. ring.
Qed.

Lemma groups_value_snoc (w x : Z) (l : list Z) :
  groups_value w (l ++ [x]) = groups_value w l * 2 ^ w + x.
Proof. unfold groups_value. rewrite fold_left_app. reflexivity. Qed.

Lemma groups_value_app (w : Z) (l m : list Z) :
  groups_value w (l ++ m) =
  groups_value w l * 2 ^ (w * Z.of_nat (length m)) + groups_value w m.
Proof.
  unfold groups_value at 1. rewrite fold_left_app.
  fold (groups_value w l). apply groups_value_fold.
Qed.

Lemma groups_value_range (w : Z) (l : list Z) :
  0 <= w -> groups_ok w l ->
  0 <= groups_value w l < 2 ^ (w * Z.of_nat (length l)).
Proof.
  intros Hw Hl. induction Hl as [|x l Hx Hl IH].
  - cbn. rewrite Z.mul_0_r. cbn. lia.
  - rewrite groups_value_cons. cbn [length]. rewrite Nat2Z.inj_succ.
    replace (w * Z.succ (Z.of_nat (length l)))
      with (w + w * Z.of_nat (length l)) by lia.
    rewrite Z.pow_add_r by nia.
    assert (0 < 2 ^ (w * Z.of_nat (length l))) by (apply Z.pow_pos_nonneg; nia).
    nia.
Qed.

Lemma groups_value_inj (w : Z) (l m : list Z) :
  0 <= w -> groups_ok w l -> groups_ok w m ->
  length l = length m ->
  groups_value w l = groups_value w m -> l = m.
Proof.
  intros Hw Hl. revert m. induction Hl as [|x l Hx Hl IH]; intros m Hm Hlen E.
  - destruct m; [reflexivity|discriminate].
  - destruct m as [|y m]; [discriminate|].
    inversion Hm as [|? ? Hy Hm']; subst.
    injection Hlen as Hlen.
    rewrite !groups_value_cons, <- Hlen in E.
    pose proof (groups_value_range w l Hw Hl) as Rl.
    pose proof (groups_value_range w m Hw Hm') as Rm.
    rewrite <- Hlen in Rm.
    assert (0 < 2 ^ (w * Z.of_nat (length l))) by (apply Z.pow_pos_nonneg; nia).
    assert (x = y) by nia. subst y.
    f_equal. apply IH; [exact Hm' | exact Hlen | lia].
Qed.

Section ConvertBits.

Variables f t : Z.
Hypothesis Hf : 0 < f.
Hypothesis Ht : 0 < t.

Let m : Z := f + t - 1.

Lemma drain_spec (fuel : nat) :
  forall (acc V bits : Z) (ret : list Z),
    acc mod 2 ^ m = V mod 2 ^ m ->
    0 <= bits <= m -> bits <= Z.of_nat fuel ->
    groups_ok t ret -> groups_value t ret = V / 2 ^ bits ->
    exists bits' ret',
      Bech32.drain fuel t (Z.shiftl 1 t - 1) acc bits ret = (bits', ret') /\
      0 <= bits' < t /\
      groups_ok t ret' /\
      groups_value t ret' = V / 2 ^ bits' /\
      Z.of_nat (length ret') * t + bits' = Z.of_nat (length ret) * t + bits.
Proof.
  induction fuel as [|fuel IH]; intros acc V bits ret Hacc Hb Hfuel Hok Hval.
  - exists bits, ret. cbn [Bech32.drain]. repeat split; auto; lia.
  - cbn [Bech32.drain]. destruct (t <=? bits) eqn:E.
    + apply Z.leb_le in E.
      set (x := Z.land (Z.shiftr acc (bits - t)) (Z.shiftl 1 t - 1)).
      assert (Hx : x = (V / 2 ^ (bits - t)) mod 2 ^ t).
      { unfold x. rewrite mask_ones, Z.land_ones, Z.shiftr_div_pow2 by lia.
        apply window_mod with (m := m); lia. }
      assert (Hp : 0 < 2 ^ t) by (apply Z.pow_pos_nonneg; lia).
      destruct (IH acc V (bits - t) (ret ++ [x]) Hacc ltac:(lia) ltac:(lia))
        as (bits' & ret' & Hd & Hr & Hok' & Hval' & Hlen).
      * apply Forall_app. split; [exact Hok|]. constructor; [|constructor].
        rewrite Hx. apply Z.mod_pos_bound. exact Hp.
      * rewrite groups_value_snoc, Hval, Hx.
        replace (2 ^ bits) with (2 ^ (bits - t) * 2 ^ t)
          by (rewrite <- Z.pow_add_r by lia; f_equal; lia).
        rewrite <- Z.div_div by (try apply Z.pow_pos_nonneg; lia).
        pose proof (Z.div_mod (V / 2 ^ (bits - t)) (2 ^ t) ltac:(lia)). lia.
      * exists bits', ret'. repeat split; auto; try lia.
        rewrite Hlen, length_app. cbn [length]. lia.
    + apply Z.leb_gt in E. exists bits, ret. repeat split; auto; lia.
Qed.

Lemma convert_loop_spec (data : list Z) :
  forall (acc V bits : Z) (ret : list Z),
    groups_ok f data ->
    acc mod 2 ^ m = V mod 2 ^ m ->
    0 <= bits < t ->
    groups_ok t ret -> groups_value t ret = V / 2 ^ bits ->
    exists acc' bits' ret',
      Bech32.convert_loop f t data acc bits ret = Some (acc', bits', ret') /\
      acc' mod 2 ^ m =
        (V * 2 ^ (f * Z.of_nat (length data)) + groups_value f data) mod 2 ^ m /\
      0 <= bits' < t /\
      groups_ok t ret' /\
      groups_value t ret' =
        (V * 2 ^ (f * Z.of_nat (length data)) + groups_value f data) / 2 ^ bits' /\
      Z.of_nat (length ret') * t + bits' =
        Z.of_nat (length ret) * t + bits + f * Z.of_nat (length data).
Proof.
  induction data as [|v data IH]; intros acc V bits ret Hdata Hacc Hb Hok Hval.
  - exists acc, bits, ret. cbn [Bech32.convert_loop length].
    rewrite Z.mul_0_r. cbn [Z.pow groups_value fold_left].
    rewrite Z.mul_1_r, Z.add_0_r. repeat split; auto; lia.
  - inversion Hdata as [|? ? Hv Hdata']; subst.
    assert (Hpf : 0 < 2 ^ f) by (apply Z.pow_pos_nonneg; lia).
    cbn [Bech32.convert_loop].
    destruct (v <? 0) eqn:E1; [apply Z.ltb_lt in E1; lia|].
    rewrite Z.shiftr_div_pow2, Z.div_small by lia.
    unfold truthy at 1. cbn [Z.eqb negb orb].
    fold m.
    set (acc1 := Z.land (Z.lor (Z.shiftl acc f) v) (Z.shiftl 1 m - 1)).
    set (V1 := V * 2 ^ f + v).
    assert (Hacc1 : acc1 mod 2 ^ m = V1 mod 2 ^ m).
    { unfold acc1, V1. rewrite mask_ones, Z.land_ones by (unfold m; lia).
      rewrite Z.mod_mod by (apply Z.pow_nonzero; unfold m; lia).
      rewrite lor_shiftl_low by lia.
      rewrite <- Z.add_mod_idemp_l, <- Z.mul_mod_idemp_l, Hacc
        by (apply Z.pow_nonzero; unfold m; lia).
      rewrite Z.mul_mod_idemp_l, Z.add_mod_idemp_l
        by (apply Z.pow_nonzero; unfold m; lia).
      reflexivity. }
    assert (Hval1 : groups_value t ret = V1 / 2 ^ (bits + f)).
    { rewrite Hval. unfold V1.
      replace (2 ^ (bits + f)) with (2 ^ f * 2 ^ bits)
        by (rewrite <- Z.pow_add_r by lia; f_equal; lia).
      rewrite <- Z.div_div by (try apply Z.pow_pos_nonneg; lia).
      rewrite Z.div_add_l, (Z.div_small v) by lia.
      rewrite Z.add_0_r. reflexivity. }
    destruct (drain_spec (Z.to_nat (bits + f)) acc1 V1 (bits + f) ret Hacc1
                ltac:(unfold m; lia) ltac:(lia) Hok Hval1)
      as (bits2 & ret2 & Hd & Hb2 & Hok2 & Hval2 & Hlen2).
    rewrite Hd.
    destruct (IH acc1 V1 bits2 ret2 Hdata' Hacc1 Hb2 Hok2 Hval2)
      as (acc' & bits' & ret' & Hloop & Hacc' & Hb' & Hok' & Hval' & Hlen').
    exists acc', bits', ret'.
    assert (EV : V1 * 2 ^ (f * Z.of_nat (length data)) + groups_value f data =
                 V * 2 ^ (f * Z.of_nat (length (v :: data))) +
                 groups_value f (v :: data)).
    { unfold V1. rewrite groups_value_cons. cbn [length].
      rewrite Nat2Z.inj_succ.
      replace (f * Z.succ (Z.of_nat (length data)))
        with (f + f * Z.of_nat (length data)) by lia.
      rewrite Z.pow_add_r by nia. ring. }
    rewrite <- EV. repeat split; auto; try lia.
    rewrite Hlen', Hlen2. cbn [length]. lia.
Qed.

(** With padding: every list of [f]-bit groups is converted; the output
    writes the same integer followed by [p] zero bits. *)
Lemma convertbits_pad (data : list Z) :
  groups_ok f data ->
  exists out p,
    Bech32.convertbits data f t true = Some out /\
    groups_ok t out /\
    0 <= p < t /\
    groups_value t out = groups_value f data * 2 ^ p /\
    Z.of_nat (length out) * t = f * Z.of_nat (length data) + p.
Proof.
  intros Hdata.
  destruct (convert_loop_spec data 0 0 0 [] Hdata eq_refl ltac:(lia)
              (Forall_nil _) eq_refl)
    as (acc & bits & ret & Hloop & Hacc & Hb & Hok & Hval & Hlen).
  cbn [Z.mul Z.add length Z.of_nat] in *.
  set (V := groups_value f data) in *.
  unfold Bech32.convertbits. rewrite Hloop. unfold truthy.
  destruct (bits =? 0) eqn:E; cbn [negb].
  - apply Z.eqb_eq in E. subst bits. exists ret, 0.
    cbn [Z.pow] in *. rewrite Z.div_1_r in Hval. rewrite Z.mul_1_r.
    repeat split; auto; lia.
  - apply Z.eqb_neq in E.
    set (x := Z.land (Z.shiftl acc (t - bits)) (Z.shiftl 1 t - 1)).
    assert (Hpb : 0 < 2 ^ bits) by (apply Z.pow_pos_nonneg; lia).
    assert (Hpp : 0 < 2 ^ (t - bits)) by (apply Z.pow_pos_nonneg; lia).
    assert (Hx : x = (V mod 2 ^ bits) * 2 ^ (t - bits)).
    { unfold x. rewrite mask_ones, Z.land_ones, Z.shiftl_mul_pow2 by lia.
      replace (2 ^ t) with (2 ^ bits * 2 ^ (t - bits))
        by (rewrite <- Z.pow_add_r by lia; f_equal; lia).
      rewrite Z.mul_mod_distr_r by lia. f_equal.
      pose proof (window_mod acc V 0 bits m ltac:(lia) ltac:(lia)
                    ltac:(unfold m; lia) Hacc) as W.
      cbn [Z.pow] in W. rewrite !Z.div_1_r in W. exact W. }
    exists (ret ++ [x]), (t - bits). repeat split; try lia.
    + apply Forall_app. split; [exact Hok|]. constructor; [|constructor].
      rewrite Hx. pose proof (Z.mod_pos_bound V (2 ^ bits) Hpb).
      replace (2 ^ t) with (2 ^ bits * 2 ^ (t - bits))
        by (rewrite <- Z.pow_add_r by lia; f_equal; lia).
      nia.
    + rewrite groups_value_snoc, Hval, Hx.
      replace (2 ^ t) with (2 ^ bits * 2 ^ (t - bits))
        by (rewrite <- Z.pow_add_r by lia; f_equal; lia).
      pose proof (Z.div_mod V (2 ^ bits) ltac:(lia)). nia.
    + rewrite length_app. cbn [length]. lia.
Qed.

End ConvertBits.

Section ConvertBack.

Variables f t : Z.
Hypothesis Hf : 0 < f.
Hypothesis Ht : 0 < t.

(** Without padding, in the other direction: groups that write the
    integer of [data] followed by [p] zero bits are converted back to
    [data]. *)
Lemma convertbits_unpad (data out : list Z) (p : Z) :
  groups_ok f data -> groups_ok t out ->
  0 <= p < f -> p < t ->
  groups_value t out = groups_value f data * 2 ^ p ->
  Z.of_nat (length out) * t = f * Z.of_nat (length data) + p ->
  Bech32.convertbits out t f false = Some data.
Proof.
  intros Hdata Hout Hp Hpt Hval Hlen.
  destruct (convert_loop_spec t f Ht Hf out 0 0 0 [] Hout eq_refl ltac:(lia)
              (Forall_nil _) eq_refl)
    as (acc & bits & ret & Hloop & Hacc & Hb & Hok & Hval' & Hlen').
  cbn [Z.mul Z.add length Z.of_nat] in *.
  rewrite Hval in *.
  set (V := groups_value f data) in *.
  assert (Hbits : bits = p /\ length ret = length data).
  { assert (E : Z.of_nat (length ret) * f + bits =
                Z.of_nat (length data) * f + p) by lia.
    destruct (Z.lt_trichotomy (Z.of_nat (length ret)) (Z.of_nat (length data)))
      as [Hlt | [Heq | Hgt]]; [nia | split; nia | nia]. }
  destruct Hbits as [-> Hlr].
  assert (Hpp : 0 < 2 ^ p) by (apply Z.pow_pos_nonneg; lia).
  rewrite Z.div_mul in Hval' by lia.
  assert (ret = data).
  { apply (groups_value_inj f); auto; lia. }
  subst ret.
  unfold Bech32.convertbits. rewrite Hloop.
  destruct (t <=? p) eqn:E; [apply Z.leb_le in E; lia|].
  cbn [orb].
  assert (Hx : Z.land (Z.shiftl acc (f - p)) (Z.shiftl 1 f - 1) = 0).
  { rewrite mask_ones, Z.land_ones, Z.shiftl_mul_pow2 by lia.
    replace (2 ^ f) with (2 ^ p * 2 ^ (f - p))
      by (rewrite <- Z.pow_add_r by lia; f_equal; lia).
    assert (0 < 2 ^ (f - p)) by (apply Z.pow_pos_nonneg; lia).
    rewrite Z.mul_mod_distr_r by lia.
    pose proof (window_mod acc (V * 2 ^ p) 0 p (t + f - 1) ltac:(lia) ltac:(lia)
                  ltac:(lia) Hacc) as W.
    cbn [Z.pow] in W. rewrite !Z.div_1_r in W.
    rewrite W, Z.mod_mul by lia. reflexivity. }
  rewrite Hx. reflexivity.
Qed.

End ConvertBack.

(* ===================================================================== *)
(** * The bech32 checksum                                               *)
(* ===================================================================== *)

(** ** Exclusive or *)

Lemma lxor_swap (a b c d : Z) :
  Z.lxor (Z.lxor a b) (Z.lxor c d) = Z.lxor (Z.lxor a c) (Z.lxor b d).
Proof.
  rewrite !Z.lxor_assoc. f_equal.
  rewrite <- !Z.lxor_assoc. f_equal. apply Z.lxor_comm.
Qed.

Lemma lxor_range (n a b : Z) :
  0 <= n -> 0 <= a < 2 ^ n -> 0 <= b < 2 ^ n -> 0 <= Z.lxor a b < 2 ^ n.
Proof.
  intros Hn Ha Hb.
  assert (H0 : 0 <= Z.lxor a b) by (apply Z.lxor_nonneg; lia).
  split; [exact H0|].
  destruct (Z.eq_dec (Z.lxor a b) 0) as [->|Hnz];
    [apply Z.pow_pos_nonneg; lia|].
  apply Z.log2_lt_pow2; [lia|].
  pose proof (Z.log2_lxor a b ltac:(lia) ltac:(lia)) as Hl.
  assert (Hpos : 0 < n).
  { destruct (Z.eq_dec n 0) as [->|]; [|lia].
    cbn in Ha, Hb. assert (a = 0) by lia. assert (b = 0) by lia. subst.
    cbn in Hnz. congruence. }
  assert (La : Z.log2 a < n).
  { destruct (Z.eq_dec a 0) as [->|]; [cbn; lia|].
    apply Z.log2_lt_pow2; lia. }
  assert (Lb : Z.log2 b < n).
  { destruct (Z.eq_dec b 0) as [->|]; [cbn; lia|].
    apply Z.log2_lt_pow2; lia. }
  lia.
Qed.

Lemma bit_select (top : Z) (i : nat) :
  truthy (Z.land (Z.shiftr top (Z.of_nat i)) 1) = Z.testbit top (Z.of_nat i).
Proof.
  change 1 with (Z.ones 1). rewrite Z.land_ones by lia.
  change (2 ^ 1) with 2.
  rewrite <- Z.bit0_mod, Z.shiftr_spec by lia. cbn [Z.add].
  unfold truthy. destruct (Z.testbit top (Z.of_nat i)); reflexivity.
Qed.

(** ** One step is linear over exclusive or *)

Lemma select_fold_linear (l : list nat) (a b c1 c2 : Z) :
  fold_left
    (fun chk i =>
       Z.lxor chk
         (if truthy (Z.land (Z.shiftr (Z.lxor a b) (Z.of_nat i)) 1)
          then nth i Bech32.generator 0 else 0))
    l (Z.lxor c1 c2) =
  Z.lxor
    (fold_left
       (fun chk i =>
          Z.lxor chk
            (if truthy (Z.land (Z.shiftr a (Z.of_nat i)) 1)
             then nth i Bech32.generator 0 else 0)) l c1)
    (fold_left
       (fun chk i =>
          Z.lxor chk
            (if truthy (Z.land (Z.shiftr b (Z.of_nat i)) 1)
             then nth i Bech32.generator 0 else 0)) l c2).
Proof.
  revert c1 c2. induction l as [|i l IH]; intros c1 c2; [reflexivity|].
  cbn [fold_left]. rewrite <- IH. f_equal.
  rewrite !bit_select, Z.lxor_spec.
  destruct (Z.testbit a (Z.of_nat i)), (Z.testbit b (Z.of_nat i));
    cbn [xorb]; rewrite lxor_swap;
    rewrite ?Z.lxor_nilpotent, ?Z.lxor_0_r, ?Z.lxor_0_l; reflexivity.
Qed.

Lemma select_fold_start (l : list nat) (top c : Z) :
  fold_left
    (fun chk i =>
       Z.lxor chk
         (if truthy (Z.land (Z.shiftr top (Z.of_nat i)) 1)
          then nth i Bech32.generator 0 else 0)) l c =
  Z.lxor c
    (fold_left
       (fun chk i =>
          Z.lxor chk
            (if truthy (Z.land (Z.shiftr top (Z.of_nat i)) 1)
             then nth i Bech32.generator 0 else 0)) l 0).
Proof.
  revert c. induction l as [|i l IH]; intros c.
  - cbn. rewrite Z.lxor_0_r. reflexivity.
  - cbn [fold_left]. rewrite IH, (IH (Z.lxor 0 _)).
    rewrite Z.lxor_0_l, Z.lxor_assoc. reflexivity.
Qed.

Lemma polymod_step_eq (chk value : Z) :
  Bech32.polymod_step chk value =
  Z.lxor (Z.lxor (Z.shiftl (Z.land chk 0x1ffffff) 5) value)
    (selected (Z.shiftr chk 25)).
Proof. unfold Bech32.polymod_step, selected. apply select_fold_start. Qed.

Lemma selected_linear (a b : Z) :
  selected (Z.lxor a b) = Z.lxor (selected a) (selected b).
Proof.
  unfold selected. rewrite <- select_fold_linear.
  rewrite Z.lxor_0_l. reflexivity.
Qed.

Lemma land_lxor_l (a b c : Z) :
  Z.land (Z.lxor a b) c = Z.lxor (Z.land a c) (Z.land b c).
Proof.
  apply Z.bits_inj'. intros n Hn.
  rewrite !Z.lxor_spec, !Z.land_spec, Z.lxor_spec.
  destruct (Z.testbit a n), (Z.testbit b n), (Z.testbit c n); reflexivity.
Qed.

Lemma polymod_step_linear (a b v w : Z) :
  Bech32.polymod_step (Z.lxor a b) (Z.lxor v w) =
  Z.lxor (Bech32.polymod_step a v) (Bech32.polymod_step b w).
Proof.
  rewrite !polymod_step_eq.
  rewrite land_lxor_l, Z.shiftl_lxor, Z.shiftr_lxor, selected_linear.
  rewrite (lxor_swap (Z.shiftl (Z.land a 33554431) 5)).
  apply lxor_swap.
Qed.

Lemma polymod_fold_split (cs : list Z) (a b : Z) :
  fold_left Bech32.polymod_step cs (Z.lxor a b) =
  Z.lxor (fold_left Bech32.polymod_step (map (fun _ => 0) cs) a)
         (fold_left Bech32.polymod_step cs b).
Proof.
  revert a b. induction cs as [|c cs IH]; intros a b; [reflexivity|].
  cbn [map fold_left]. rewrite <- IH. f_equal.
  rewrite <- polymod_step_linear, Z.lxor_0_l. reflexivity.
Qed.

(** ** The state stays below 2^30 *)

Lemma selected_range (top : Z) : 0 <= selected top < 2 ^ 30.
Proof.
  unfold selected. cbn [fold_left seq].
  repeat (apply lxor_range; [lia| |]);
    try (destruct (truthy _); cbn; lia); cbn; lia.
Qed.

Lemma polymod_step_range (chk value : Z) :
  0 <= value < 2 ^ 30 -> 0 <= Bech32.polymod_step chk value < 2 ^ 30.
Proof.
  intros Hv. rewrite polymod_step_eq.
  apply lxor_range; [lia| |apply selected_range].
  apply lxor_range; [lia| |exact Hv].
  change 33554431 with (Z.ones 25).
  rewrite Z.land_ones, Z.shiftl_mul_pow2 by lia.
  pose proof (Z.mod_pos_bound chk (2 ^ 25) ltac:(lia)).
  change (2 ^ 30) with (2 ^ 25 * 2 ^ 5). lia.
Qed.

Lemma polymod_fold_range (vs : list Z) (s : Z) :
  0 <= s < 2 ^ 30 -> groups_ok 5 vs ->
  0 <= fold_left Bech32.polymod_step vs s < 2 ^ 30.
Proof.
  intros Hs Hvs. revert s Hs. induction Hvs as [|v vs Hv Hvs IH]; intros s Hs.
  - exact Hs.
  - cbn [fold_left]. apply IH. apply polymod_step_range.
    change (2 ^ 5) with 32 in Hv. lia.
Qed.

(** ** Feeding six groups to the zero state writes them *)

Lemma polymod_step_small (x v : Z) :
  0 <= x < 2 ^ 25 -> 0 <= v < 2 ^ 5 ->
  Bech32.polymod_step x v = x * 32 + v.
Proof.
  intros Hx Hv. rewrite polymod_step_eq.
  rewrite Z.shiftr_div_pow2, Z.div_small by lia.
  change (selected 0) with 0. rewrite Z.lxor_0_r.
  change 33554431 with (Z.ones 25).
  rewrite Z.land_ones, Z.mod_small by lia.
  rewrite lxor_shiftl_low by lia. reflexivity.
Qed.

Lemma polymod_write (q : Z) :
  0 <= q < 2 ^ 30 ->
  fold_left Bech32.polymod_step
    (map (fun i => Z.land (Z.shiftr q (5 * (5 - Z.of_nat i))) 31) (seq 0 6)) 0
  = q.
Proof.
  intros Hq. cbn [seq map fold_left].
  change 31 with (Z.ones 5).
  rewrite !Z.land_ones, !Z.shiftr_div_pow2 by lia.
  cbn [Z.of_nat Pos.of_succ_nat Pos.succ Z.sub Z.opp Z.add Z.pos_sub Z.mul
         Pos.mul Pos.add Z.succ_double Z.pred_double Z.double Pos.pred_double].
  change (2 ^ 25) with 33554432. change (2 ^ 20) with 1048576.
  change (2 ^ 15) with 32768. change (2 ^ 10) with 1024.
  change (2 ^ 5) with 32. change (2 ^ 0) with 1.
  change (2 ^ 30) with 1073741824 in Hq.
  rewrite Z.div_1_r.
  set (c0 := (q / 33554432) mod 32). set (c1 := (q / 1048576) mod 32).
  set (c2 := (q / 32768) mod 32). set (c3 := (q / 1024) mod 32).
  set (c4 := (q / 32) mod 32). set (c5 := q mod 32).
  assert (H0 : 0 <= c0 < 32) by (apply Z.mod_pos_bound; lia).
  assert (H1 : 0 <= c1 < 32) by (apply Z.mod_pos_bound; lia).
  assert (H2 : 0 <= c2 < 32) by (apply Z.mod_pos_bound; lia).
  assert (H3 : 0 <= c3 < 32) by (apply Z.mod_pos_bound; lia).
  assert (H4 : 0 <= c4 < 32) by (apply Z.mod_pos_bound; lia).
  assert (H5 : 0 <= c5 < 32) by (apply Z.mod_pos_bound; lia).
  rewrite (polymod_step_small 0 c0) by (cbn; lia).
  rewrite (polymod_step_small _ c1) by (change (2 ^ 25) with 33554432; cbn; lia).
  rewrite (polymod_step_small _ c2) by (change (2 ^ 25) with 33554432; cbn; lia).
  rewrite (polymod_step_small _ c3) by (change (2 ^ 25) with 33554432; cbn; lia).
  rewrite (polymod_step_small _ c4) by (change (2 ^ 25) with 33554432; cbn; lia).
  rewrite (polymod_step_small _ c5) by (change (2 ^ 25) with 33554432; cbn; lia).
  unfold c0, c1, c2, c3, c4, c5. Z.div_mod_to_equations. lia.
Qed.

(** ** The checksum verifies *)

Lemma hrp_expand_ok (hrp : string) : groups_ok 5 (Bech32.bech32_hrp_expand hrp).
Proof.
  unfold Bech32.bech32_hrp_expand, groups_ok.
  assert (Hord : forall x, 0 <= Bech32.ord x < 256).
  { intros x. unfold Bech32.ord. pose proof (N_ascii_bounded x). lia. }
  apply Forall_app. split; [|apply Forall_app; split].
  - apply Forall_forall. intros v Hv. apply in_map_iff in Hv as (x & <- & _).
    rewrite Z.shiftr_div_pow2 by lia. specialize (Hord x).
    change (2 ^ 5) with 32.
    split; [apply Z.div_pos; lia | apply Z.div_lt_upper_bound; lia].
  - repeat constructor; cbn; lia.
  - apply Forall_forall. intros v Hv. apply in_map_iff in Hv as (x & <- & _).
    change 31 with (Z.ones 5). rewrite Z.land_ones by lia.
    apply Z.mod_pos_bound. lia.
Qed.

Lemma create_checksum_ok (hrp : string) (data : list Z) :
  groups_ok 5 (Bech32.bech32_create_checksum hrp data) /\
  length (Bech32.bech32_create_checksum hrp data) = 6%nat.
Proof.
  unfold Bech32.bech32_create_checksum. split.
  - apply Forall_forall. intros v Hv. apply in_map_iff in Hv as (i & <- & _).
    change 31 with (Z.ones 5). rewrite Z.land_ones by lia.
    apply Z.mod_pos_bound. lia.
  - rewrite length_map. reflexivity.
Qed.

Lemma checksum_verifies (hrp : string) (data : list Z) :
  groups_ok 5 data ->
  Bech32.bech32_verify_checksum hrp
    (data ++ Bech32.bech32_create_checksum hrp data) = true.
Proof.
  intros Hdata. unfold Bech32.bech32_verify_checksum, Bech32.bech32_polymod.
  rewrite app_assoc, fold_left_app.
  set (values := Bech32.bech32_hrp_expand hrp ++ data).
  set (s := fold_left Bech32.polymod_step values 1).
  assert (Hs : 0 <= s < 2 ^ 30).
  { apply polymod_fold_range; [cbn; lia|].
    apply Forall_app. split; [apply hrp_expand_ok | exact Hdata]. }
  unfold Bech32.bech32_create_checksum. fold values.
  unfold Bech32.bech32_polymod. rewrite fold_left_app. fold s.
  set (p := fold_left Bech32.polymod_step [0; 0; 0; 0; 0; 0] s).
  assert (Hp : 0 <= p < 2 ^ 30).
  { apply polymod_fold_range; [exact Hs|]. repeat constructor; cbn; lia. }
  assert (Hq : 0 <= Z.lxor p 1 < 2 ^ 30)
    by (apply lxor_range; [lia | exact Hp | cbn; lia]).
  rewrite <- (Z.lxor_0_r s) at 1.
  rewrite polymod_fold_split, polymod_write by exact Hq.
  cbn [seq map]. fold p.
  rewrite <- Z.lxor_assoc, Z.lxor_nilpotent, Z.lxor_0_l. reflexivity.
Qed.

(* ===================================================================== *)
(** * Native segwit addresses                                           *)
(* ===================================================================== *)

(** ** The character set *)

Lemma groups_checked : forallb group_ok (map Z.of_nat (seq 0 32)) = true.
Proof. vm_compute. reflexivity. Qed.

Lemma group_inv (d : Z) :
  0 <= d < 2 ^ 5 ->
  Bech32.charset_find (charset_char d) = d /\
  ((Bech32.ord (charset_char d) <? 33) || (126 <? Bech32.ord (charset_char d)))
    = false /\
  Bech32.lower (charset_char d) = charset_char d /\
  charset_char d <> "1"%char.
Proof.
  intros Hd. change (2 ^ 5) with 32 in Hd.
  assert (Hin : In d (map Z.of_nat (seq 0 32))).
  { apply in_map_iff. exists (Z.to_nat d). split; [lia|]. apply in_seq. lia. }
  pose proof (proj1 (forallb_forall _ _) groups_checked d Hin) as H.
  unfold group_ok in H. cbv zeta in H.
  apply andb_prop in H as [H H4]. apply andb_prop in H as [H H3].
  apply andb_prop in H as [H1 H2].
  apply Z.eqb_eq in H1. apply negb_true_iff in H2, H4.
  apply Ascii.eqb_eq in H3. apply Ascii.eqb_neq in H4. auto.
Qed.

Lemma getitem_charset (d : Z) :
  0 <= d < 2 ^ 5 ->
  getitem (list_ascii_of_string Bech32.CHARSET) d = Returned (charset_char d).
Proof.
  intros Hd. change (2 ^ 5) with 32 in Hd. unfold getitem.
  change (Z.of_nat (length (list_ascii_of_string Bech32.CHARSET))) with 32.
  destruct (d <? 0) eqn:E1; [apply Z.ltb_lt in E1; lia|].
  destruct (0 <=? d) eqn:E2; [|apply Z.leb_gt in E2; lia].
  destruct (d <? 32) eqn:E3; [|apply Z.ltb_ge in E3; lia].
  cbn [andb]. unfold charset_char.
  rewrite (nth_error_nth' _ "q"%char); [reflexivity|].
  change (length (list_ascii_of_string Bech32.CHARSET)) with 32%nat. lia.
Qed.

Lemma charset_of_groups (l : list Z) :
  groups_ok 5 l -> Bech32.charset_of l = Returned (map charset_char l).
Proof.
  intros Hl. induction Hl as [|d l Hd Hl IH]; [reflexivity|].
  cbn [Bech32.charset_of map]. rewrite getitem_charset, IH by exact Hd.
  reflexivity.
Qed.

Lemma charset_find_chars (l : list Z) :
  groups_ok 5 l -> map Bech32.charset_find (map charset_char l) = l.
Proof.
  intros Hl. induction Hl as [|d l Hd Hl IH]; [reflexivity|].
  cbn [map]. rewrite IH. f_equal. apply (group_inv d Hd).
Qed.

Lemma chars_printable (l : list Z) :
  groups_ok 5 l ->
  existsb (fun x => (Bech32.ord x <? 33) || (126 <? Bech32.ord x))
    (map charset_char l) = false.
Proof.
  intros Hl. induction Hl as [|d l Hd Hl IH]; [reflexivity|].
  cbn [map existsb]. rewrite IH.
  destruct (group_inv d Hd) as (_ & -> & _). reflexivity.
Qed.

Lemma chars_lower (l : list Z) :
  groups_ok 5 l ->
  map Bech32.lower (map charset_char l) = map charset_char l.
Proof.
  intros Hl. induction Hl as [|d l Hd Hl IH]; [reflexivity|].
  cbn [map]. rewrite IH. f_equal. apply (group_inv d Hd).
Qed.

Lemma chars_in_charset (l : list Z) :
  groups_ok 5 l ->
  forallb (fun x => 0 <=? Bech32.charset_find x) (map charset_char l) = true.
Proof.
  intros Hl. induction Hl as [|d l Hd Hl IH]; [reflexivity|].
  cbn [map forallb]. rewrite IH.
  destruct (group_inv d Hd) as (-> & _).
  destruct (0 <=? d) eqn:E; [reflexivity|]. apply Z.leb_gt in E. lia.
Qed.

(** ** Finding the separator *)

Lemma rfind_absent (c : ascii) (l : list ascii) :
  ~ In c l -> Bech32.rfind c l = -1.
Proof.
  induction l as [|x l IH]; [reflexivity|].
  intros H. cbn [Bech32.rfind]. rewrite IH by (intros ?; apply H; right; auto).
  cbn. destruct (Ascii.eqb_spec x c); [|reflexivity].
  exfalso. apply H. left. assumption.
Qed.

Lemma rfind_last (c : ascii) (l m : list ascii) :
  ~ In c m -> Bech32.rfind c (l ++ c :: m) = Z.of_nat (length l).
Proof.
  intros Hm. induction l as [|x l IH].
  - cbn [app Bech32.rfind length]. rewrite rfind_absent by exact Hm.
    cbn. rewrite Ascii.eqb_refl. reflexivity.
  - cbn [app Bech32.rfind length]. rewrite IH.
    destruct (0 <=? Z.of_nat (length l)) eqn:E; [lia|].
    apply Z.leb_gt in E. lia.
Qed.

Lemma chars_no_separator (l : list Z) :
  groups_ok 5 l -> ~ In "1"%char (map charset_char l).
Proof.
  intros Hl H. apply in_map_iff in H as (d & Hd & Hin).
  unfold groups_ok in Hl. rewrite Forall_forall in Hl.
  exact (proj2 (proj2 (proj2 (group_inv d (Hl d Hin)))) Hd).
Qed.

(** ** Decoding what [bech32_encode] writes *)

Lemma ascii_list_eqb_refl (l : list ascii) : Bech32.ascii_list_eqb l l = true.
Proof. apply String.eqb_refl. Qed.

Lemma bech32_decode_encoded (hrp : string) (data : list Z) :
  hrp_ok hrp = true ->
  groups_ok 5 data ->
  Bech32.bech32_decode
    (hrp ++ "1" ++ string_of_list_ascii
       (map charset_char (data ++ Bech32.bech32_create_checksum hrp data)))
  = Some (hrp, data).
Proof.
  intros Hhrp Hdata.
  destruct (create_checksum_ok hrp data) as [Hck Hck6].
  set (ck := Bech32.bech32_create_checksum hrp data) in *.
  assert (Hall : groups_ok 5 (data ++ ck))
    by (apply Forall_app; split; assumption).
  set (cs := map charset_char (data ++ ck)).
  set (h := list_ascii_of_string hrp).
  assert (Hh : String.length hrp = length h).
  { unfold h. clear. induction hrp; cbn; congruence. }
  unfold hrp_ok in Hhrp. fold h in Hhrp.
  apply andb_prop in Hhrp as [Hhrp Hlow].
  apply andb_prop in Hhrp as [Hne Hpr].
  assert (Hhlen : (1 <= length h)%nat).
  { destruct h; [discriminate|cbn; lia]. }
  assert (Hb : list_ascii_of_string (hrp ++ "1" ++ string_of_list_ascii cs) =
               h ++ "1"%char :: cs).
  { rewrite list_ascii_of_string_app. cbn [append list_ascii_of_string].
    rewrite list_ascii_of_string_of_list_ascii. reflexivity. }
  assert (Hcslen : length cs = (length data + 6)%nat).
  { unfold cs. rewrite length_map, length_app, Hck6. reflexivity. }
  unfold Bech32.bech32_decode. rewrite Hb.
  assert (Hprint :
    existsb (fun x => (Bech32.ord x <? 33) || (126 <? Bech32.ord x))
      (h ++ "1"%char :: cs) = false).
  { rewrite existsb_app. cbn [existsb].
    unfold cs. rewrite chars_printable by exact Hall.
    replace (existsb _ h) with false; [reflexivity|].
    symmetry. apply not_true_is_false. intros E.
    apply existsb_exists in E as (x & Hx & Ex).
    pose proof (proj1 (forallb_forall _ _) Hpr x Hx) as Hx'.
    cbv beta in Hx', Ex. rewrite Ex in Hx'. discriminate. }
  rewrite Hprint.
  assert (Hlower : map Bech32.lower (h ++ "1"%char :: cs) = h ++ "1"%char :: cs).
  { rewrite map_app. cbn [map]. unfold cs. rewrite chars_lower by exact Hall.
    f_equal. clear - Hlow. induction h as [|x h IH]; [reflexivity|].
    cbn [forallb] in Hlow. apply andb_prop in Hlow as [Hx Hh].
    apply Ascii.eqb_eq in Hx. cbn [map]. rewrite Hx, (IH Hh). reflexivity. }
  rewrite Hlower, ascii_list_eqb_refl. cbn [negb andb].
  rewrite rfind_last by (apply chars_no_separator; exact Hall).
  rewrite length_app. cbn [length]. rewrite Hcslen.
  destruct (Z.of_nat (length h) <? 1) eqn:E1; [apply Z.ltb_lt in E1; lia|].
  destruct (Z.of_nat (length h + S (length data + 6)) <? Z.of_nat (length h) + 7)
    eqn:E2; [apply Z.ltb_lt in E2; lia|].
  cbn [orb].
  replace (Z.to_nat (Z.of_nat (length h) + 1)) with (length h + 1)%nat by lia.
  rewrite Nat2Z.id.
  replace (skipn (length h + 1) (h ++ "1"%char :: cs)) with cs.
  2:{ rewrite skipn_app.
      rewrite skipn_all2 by lia.
      replace (length h + 1 - length h)%nat with 1%nat by lia. reflexivity. }
  unfold cs at 1. rewrite chars_in_charset by exact Hall. cbn [negb].
  rewrite firstn_app, firstn_all, Nat.sub_diag. cbn [firstn].
  rewrite app_nil_r.
  replace (string_of_list_ascii h) with hrp
    by (unfold h; symmetry; apply string_of_list_ascii_of_string).
  unfold cs. rewrite charset_find_chars by exact Hall.
  unfold ck. rewrite checksum_verifies by exact Hdata. cbn [negb].
  fold ck. rewrite length_app, Hck6.
  replace (length data + 6 - 6)%nat with (length data) by lia.
  rewrite firstn_app, firstn_all, Nat.sub_diag. cbn [firstn].
  rewrite app_nil_r. reflexivity.
Qed.

(** ** Version-0 programs of 20 and 32 bytes *)

Lemma bytes_groups (b : bytes) : groups_ok 8 (map int_of_byte b).
Proof.
  apply Forall_forall. intros v Hv. apply in_map_iff in Hv as (x & <- & _).
  pose proof (int_of_byte_range x). change (2 ^ 8) with 256. lia.
Qed.

Lemma map_int_of_byte_inj (a b : bytes) :
  map int_of_byte a = map int_of_byte b -> a = b.
Proof.
  revert b. induction a as [|x a IH]; intros [|y b] E; try discriminate.
  - reflexivity.
  - cbn [map] in E. injection E as Hxy E. f_equal; [|apply IH; exact E].
    rewrite <- (byte_of_int_of_byte x), <- (byte_of_int_of_byte y), Hxy.
    reflexivity.
Qed.

Lemma string_length_of_list (l : list ascii) :
  String.length (string_of_list_ascii l) = length l.
Proof. induction l as [|c l IH]; cbn; congruence. Qed.

Lemma encode_version0 (hrp : string) (prog : bytes) :
  hrp_ok hrp = true ->
  length prog = 20%nat \/ length prog = 32%nat ->
  exists body,
    Bech32.encode hrp 0 prog = Returned (Some (hrp ++ "1q" ++ body)%string) /\
    String.length body = (if Nat.eqb (length prog) 20 then 38 else 58)%nat /\
    Bech32.decode hrp (hrp ++ "1q" ++ body) =
      Returned (Some (0, map int_of_byte prog)).
Proof.
  intros Hhrp Hprog.
  pose proof (bytes_groups prog) as H8.
  destruct (convertbits_pad 8 5 ltac:(lia) ltac:(lia) _ H8)
    as (conv & p & Hconv & H5 & Hp & Hval & Hlen).
  rewrite length_map in Hlen.
  assert (Hd : groups_ok 5 (0 :: conv))
    by (constructor; [cbn; lia | exact H5]).
  set (ck := Bech32.bech32_create_checksum hrp (0 :: conv)).
  destruct (create_checksum_ok hrp (0 :: conv)) as [Hck Hck6]. fold ck in Hck, Hck6.
  set (body := string_of_list_ascii (map charset_char (conv ++ ck))).
  assert (Hret :
    Bech32.bech32_encode hrp ([0] ++ conv) =
    Returned (hrp ++ "1q" ++ body)%string).
  { unfold Bech32.bech32_encode. cbn [app]. fold ck.
    rewrite (charset_of_groups (0 :: conv ++ ck))
      by (constructor; [cbn; lia | apply Forall_app; split; assumption]).
    reflexivity. }
  assert (Hdec :
    Bech32.decode hrp (hrp ++ "1q" ++ body) =
    Returned (Some (0, map int_of_byte prog))).
  { unfold Bech32.decode.
    change (hrp ++ "1q" ++ body)%string
      with (hrp ++ "1" ++ string_of_list_ascii
              (map charset_char ((0 :: conv) ++ ck)))%string.
    unfold ck. rewrite bech32_decode_encoded; [|exact Hhrp|exact Hd].
    rewrite String.eqb_refl. cbn [negb skipn].
    rewrite (convertbits_unpad 8 5 ltac:(lia) ltac:(lia) (map int_of_byte prog)
               conv p H8 H5 ltac:(lia) ltac:(lia) Hval)
      by (rewrite length_map; exact Hlen).
    rewrite length_map, getitem_head. cbn [lift bind].
    destruct Hprog as [-> | ->]; reflexivity. }
  exists body. split; [|split; [|exact Hdec]].
  - unfold Bech32.encode. rewrite Hconv. cbn [bind]. rewrite Hret.
    cbn [lift bind]. rewrite Hdec. reflexivity.
  - unfold body. rewrite string_length_of_list, length_map, length_app, Hck6.
    destruct Hprog as [E | E]; rewrite E in *; cbn [Nat.eqb]; lia.
Qed.

Lemma segwit_hrp_ok (network : string) :
  hrp_ok (segwit_hrp network) = true.
Proof.
  unfold segwit_hrp. destruct (network =? "regtest")%string; reflexivity.
Qed.

Lemma select_hrp_segwit (network : string) :
  network = "regtest"%string \/ network = "mainnet"%string ->
  select_hrp network = Next (segwit_hrp network).
Proof. intros [-> | ->]; reflexivity. Qed.

Lemma pk_to_p2wpkh_encoded (compressed : bytes) (network : string) :
  segwit_network network ->
  exists body,
    pk_to_p2wpkh compressed network =
      Returned (Some (segwit_hrp network ++ "1q" ++ body)%string) /\
    String.length body = 38%nat /\
    Bech32.decode (segwit_hrp network) (segwit_hrp network ++ "1q" ++ body) =
      Returned (Some (0, map int_of_byte (hash160 compressed))).
Proof.
  intros Hn.
  pose proof (segwit_hrp_ok network) as Hok.
  destruct (encode_version0 (segwit_hrp network) (hash160 compressed) Hok
              (or_introl (hash160_length compressed)))
    as (body & Henc & Hbody & Hdec).
  exists body. split; [|split; [exact Hbody | exact Hdec]].
  unfold pk_to_p2wpkh.
  rewrite pk_to_p2wpkh_args_cases, select_hrp_segwit by exact Hn.
  cbn [bind arg_hrp arg_witver arg_witprog]. rewrite Henc. reflexivity.
Qed.

Lemma script_to_p2wsh_encoded (redeemScript : bytes) (network : string) :
  segwit_network network ->
  exists body,
    script_to_p2wsh redeemScript network =
      Returned (Some (segwit_hrp network ++ "1q" ++ body)%string) /\
    String.length body = 58%nat /\
    Bech32.decode (segwit_hrp network) (segwit_hrp network ++ "1q" ++ body) =
      Returned (Some (0, map int_of_byte (Hashlib.sha256 redeemScript))).
Proof.
  intros Hn.
  pose proof (segwit_hrp_ok network) as Hok.
  destruct (encode_version0 (segwit_hrp network) (Hashlib.sha256 redeemScript)
              Hok (or_intror (sha256_length redeemScript)))
    as (body & Henc & Hbody & Hdec).
  exists body. split; [|split; [exact Hbody | exact Hdec]].
  unfold script_to_p2wsh.
  rewrite script_to_p2wsh_args_cases, select_hrp_segwit by exact Hn.
  cbn [bind arg_hrp arg_witver arg_witprog]. rewrite Henc. reflexivity.
Qed.

(** X11. On regtest and mainnet [pk_to_p2wpkh] always returns an address,
    never [None] and never an exception: the human-readable part, the
    separator 1, q for witness version 0 and 38 more characters; and
    [bech32.decode] reads version 0 and HASH160 of the key back from it. *)
Theorem p2wpkh_address (compressed : bytes) (network : string) :
  network = "regtest"%string \/ network = "mainnet"%string ->
  exists body,
    pk_to_p2wpkh compressed network =
      Returned (Some (segwit_hrp network ++ "1q" ++ body)%string) /\
    String.length body = 38%nat /\
    Bech32.decode (segwit_hrp network) (segwit_hrp network ++ "1q" ++ body) =
      Returned (Some (0, map int_of_byte (hash160 compressed))).
Proof. apply pk_to_p2wpkh_encoded. Qed.

Lemma p2wpkh_address_witness :
  exists body,
    pk_to_p2wpkh generator_pubkey "mainnet" =
      Returned (Some ("bc" ++ "1q" ++ body)%string) /\
    String.length body = 38%nat.
Proof.
  pose proof (p2wpkh_address generator_pubkey "mainnet" (or_intror eq_refl))
    as H.
  destruct H as (body & H1 & H2 & _). exists body. split; assumption.
Defined.

(** X12. On regtest and mainnet [script_to_p2wsh] always returns an
    address: the human-readable part, 1, q and 58 more characters; and
    [bech32.decode] reads version 0 and the SHA-256 of the script back. *)
Theorem p2wsh_address (redeemScript : bytes) (network : string) :
  network = "regtest"%string \/ network = "mainnet"%string ->
  exists body,
    script_to_p2wsh redeemScript network =
      Returned (Some (segwit_hrp network ++ "1q" ++ body)%string) /\
    String.length body = 58%nat /\
    Bech32.decode (segwit_hrp network) (segwit_hrp network ++ "1q" ++ body) =
      Returned (Some (0, map int_of_byte (Hashlib.sha256 redeemScript))).
Proof. apply script_to_p2wsh_encoded. Qed.

Lemma p2wsh_address_witness :
  exists body,
    script_to_p2wsh generator_pubkey "regtest" =
      Returned (Some ("bcrt" ++ "1q" ++ body)%string) /\
    String.length body = 58%nat.
Proof.
  pose proof (p2wsh_address generator_pubkey "regtest" (or_introl eq_refl))
    as H.
  destruct H as (body & H1 & H2 & _). exists body. split; assumption.
Defined.

Lemma Some_inj {A : Type} (a b : A) : Some a = Some b -> a = b.
Proof. intros H. inversion H. reflexivity. Qed.

Lemma pair_snd_inj {A B : Type} (a a' : A) (b b' : B) :
  (a, b) = (a', b') -> b = b'.
Proof. intros H. inversion H. reflexivity. Qed.




(** X13. On regtest and mainnet a native segwit address determines the
    hash it was built from: two keys share a P2WPKH address exactly when
    they share their HASH160, two scripts a P2WSH address exactly when they
    share their SHA-256. *)
Theorem segwit_address_determines_program (a b : bytes) (network : string) :
  segwit_network network ->
  (pk_to_p2wpkh a network = pk_to_p2wpkh b network <->
   hash160 a = hash160 b) /\
  (script_to_p2wsh a network = script_to_p2wsh b network <->
   Hashlib.sha256 a = Hashlib.sha256 b).
Proof.
  intros Hn. split; split.
  - destruct (pk_to_p2wpkh_encoded a network Hn) as (x & -> & _ & Dx).
    destruct (pk_to_p2wpkh_encoded b network Hn) as (y & -> & _ & Dy).
    intros E. apply Returned_inj, Some_inj in E. rewrite E, Dy in Dx.
    apply Returned_inj, Some_inj, pair_snd_inj, map_int_of_byte_inj in Dx.
    symmetry. exact Dx.
  - intros E. unfold pk_to_p2wpkh. rewrite !pk_to_p2wpkh_args_cases, E.
    reflexivity.
  - destruct (script_to_p2wsh_encoded a network Hn) as (x & -> & _ & Dx).
    destruct (script_to_p2wsh_encoded b network Hn) as (y & -> & _ & Dy).
    intros E. apply Returned_inj, Some_inj in E. rewrite E, Dy in Dx.
    apply Returned_inj, Some_inj, pair_snd_inj, map_int_of_byte_inj in Dx.
    symmetry. exact Dx.
  - intros E. unfold script_to_p2wsh. rewrite !script_to_p2wsh_args_cases, E.
    reflexivity.
Qed.

Lemma segwit_address_determines_program_witness :
  pk_to_p2wpkh generator_pubkey "mainnet" = pk_to_p2wpkh generator_pubkey "mainnet"
  <-> hash160 generator_pubkey = hash160 generator_pubkey.
Proof.
  pose proof (segwit_address_determines_program generator_pubkey
                generator_pubkey "mainnet" (or_intror eq_refl)) as H.
  destruct H as [H _]. exact H.
Defined.

Lemma segwit_head (network : string) (body : string) :
  segwit_network network ->
  exists rest,
    (segwit_hrp network ++ "1q" ++ body)%string = String "b" (String "c" rest) /\
    (network = "mainnet"%string -> exists r, rest = String "1" r) /\
    (network = "regtest"%string -> exists r, rest = String "r" r).
Proof.
  intros [-> | ->]; eexists; (split; [reflexivity|]);
    split; intros E; try discriminate E; eexists; reflexivity.
Qed.

Lemma String_head_inj (c d : ascii) (s u : string) :
  String c s = String d u -> c = d /\ s = u.
Proof. intros H. inversion H. auto. Qed.

(** X14. The native segwit addresses of the two networks never coincide,
    whatever the keys or scripts: a mainnet address starts with bc1, a
    regtest address with bcr. *)
Theorem segwit_networks_distinct (a b : bytes) :
  pk_to_p2wpkh a "mainnet" <> pk_to_p2wpkh b "regtest" /\
  script_to_p2wsh a "mainnet" <> script_to_p2wsh b "regtest" /\
  pk_to_p2wpkh a "mainnet" <> script_to_p2wsh b "regtest" /\
  script_to_p2wsh a "mainnet" <> pk_to_p2wpkh b "regtest".
Proof.
  assert (Hm : segwit_network "mainnet") by (right; reflexivity).
  assert (Hr : segwit_network "regtest") by (left; reflexivity).
  destruct (pk_to_p2wpkh_encoded a _ Hm) as (x1 & -> & _ & _).
  destruct (pk_to_p2wpkh_encoded b _ Hr) as (x2 & -> & _ & _).
  destruct (script_to_p2wsh_encoded a _ Hm) as (x3 & -> & _ & _).
  destruct (script_to_p2wsh_encoded b _ Hr) as (x4 & -> & _ & _).
  change (segwit_hrp "mainnet") with "bc"%string.
  change (segwit_hrp "regtest") with "bcrt"%string.
  repeat split; intros E; apply Returned_inj, Some_inj in E;
    cbn [append] in E;
    apply String_head_inj in E as [_ E]; apply String_head_inj in E as [_ E];
    apply String_head_inj in E as [E _]; discriminate E.
Qed.

Lemma legacy_head (pk rs : bytes) (network : string) :
  known_network network ->
  exists c1 r1 c2 r2 c3 r3,
    pk_to_p2pkh pk network = Returned (String c1 r1) /\
    script_to_p2sh rs network = Returned (String c2 r2) /\
    pk_to_p2sh_p2wpkh pk network = Returned (String c3 r3) /\
    c1 <> "b"%char /\ c2 <> "b"%char /\ c3 <> "b"%char.
Proof.
  intros Hk.
  rewrite (pk_to_p2pkh_known pk _ Hk), (script_to_p2sh_known rs _ Hk),
    (pk_to_p2sh_p2wpkh_known pk _ Hk).
  destruct Hk as [-> | Hk].
  - change (p2pkh_version "mainnet") with x00.
    change (p2sh_version "mainnet") with x05.
    destruct (p2pkh_mainnet_shape (hash160 pk)) as (r1 & ->).
    destruct (p2sh_mainnet_shape (hash160 rs) (hash160_length _))
      as (r2 & -> & _).
    destruct (p2sh_mainnet_shape _ (hash160_length (x00 :: x14 :: hash160 pk)))
      as (r3 & -> & _).
    exists "1"%char, r1, "3"%char, r2, "3"%char, r3.
    repeat split; discriminate.
  - assert (E1 : p2pkh_version network = x6f)
      by (destruct Hk as [-> | ->]; reflexivity).
    assert (E2 : p2sh_version network = xc4)
      by (destruct Hk as [-> | ->]; reflexivity).
    rewrite E1, E2.
    destruct (p2pkh_testnet_shape (hash160 pk) (hash160_length _))
      as (c1 & r1 & -> & Hc1 & _).
    destruct (p2sh_testnet_shape (hash160 rs) (hash160_length _))
      as (r2 & -> & _).
    destruct (p2sh_testnet_shape _ (hash160_length (x00 :: x14 :: hash160 pk)))
      as (r3 & -> & _).
    exists c1, r1, "2"%char, r2, "2"%char, r3.
    repeat split; try discriminate.
    destruct Hc1 as [-> | ->]; discriminate.
Qed.

(** X15. A native segwit address is never a legacy address: whatever the
    keys, scripts and networks, the string returned by [pk_to_p2wpkh] or
    [script_to_p2wsh] on regtest or mainnet differs from every string the
    three Base58Check builders return on a known network. *)
Theorem segwit_never_legacy
    (k1 k2 s1 s2 : bytes) (n1 n2 : string) (addr : string) :
  segwit_network n1 -> known_network n2 ->
  pk_to_p2wpkh k1 n1 = Returned (Some addr) \/
  script_to_p2wsh s1 n1 = Returned (Some addr) ->
  pk_to_p2pkh k2 n2 <> Returned addr /\
  script_to_p2sh s2 n2 <> Returned addr /\
  pk_to_p2sh_p2wpkh k2 n2 <> Returned addr.
Proof.
  intros H1 H2 Hs.
  assert (Hb : exists rest, addr = String "b" rest).
  { destruct Hs as [Hs | Hs].
    - destruct (pk_to_p2wpkh_encoded k1 n1 H1) as (body & E & _ & _).
      rewrite E in Hs. apply Returned_inj, Some_inj in Hs. subst addr.
      destruct (segwit_head n1 body H1) as (rest & -> & _). eauto.
    - destruct (script_to_p2wsh_encoded s1 n1 H1) as (body & E & _ & _).
      rewrite E in Hs. apply Returned_inj, Some_inj in Hs. subst addr.
      destruct (segwit_head n1 body H1) as (rest & -> & _). eauto. }
  destruct Hb as (rest & ->).
  destruct (legacy_head k2 s2 n2 H2)
    as (c1 & r1 & c2 & r2 & c3 & r3 & -> & -> & -> & N1 & N2 & N3).
  repeat split; intros E; apply Returned_inj, String_head_inj in E as [E _];
    congruence.
Qed.

Lemma segwit_never_legacy_witness :
  pk_to_p2pkh generator_pubkey "mainnet" <>
  Returned "bc1qw508d6qejxtdg4y5r3zarvary0c5xw7kv8f3t4"%string.
Proof.
  assert (H1 : segwit_network "mainnet") by (right; reflexivity).
  assert (E : pk_to_p2wpkh generator_pubkey "mainnet" =
              Returned (Some "bc1qw508d6qejxtdg4y5r3zarvary0c5xw7kv8f3t4"%string))
    by (vm_compute; reflexivity).
  pose proof (segwit_never_legacy generator_pubkey generator_pubkey [] []
                "mainnet" "mainnet" _ H1 known_mainnet (or_introl E)) as H.
  destruct H as [H _]. exact H.
Defined.

(* ===================================================================== *)
(** * What the builders always do                                       *)
(* ===================================================================== *)

(** X16. No builder ever raises or returns [None]: whatever the bytes and
    whatever the network string, each of the five returns a string. *)
Theorem builders_always_return (pk rs : bytes) (network : string) :
  (exists s, pk_to_p2pkh pk network = Returned s) /\
  (exists s, script_to_p2sh rs network = Returned s) /\
  (exists s, pk_to_p2wpkh pk network = Returned (Some s)) /\
  (exists s, script_to_p2wsh rs network = Returned (Some s)) /\
  (exists s, pk_to_p2sh_p2wpkh pk network = Returned s).
Proof.
  rewrite pk_to_p2pkh_cases, script_to_p2sh_cases, pk_to_p2sh_p2wpkh_cases.
  assert (Hseg :
    (exists s, pk_to_p2wpkh pk network = Returned (Some s)) /\
    (exists s, script_to_p2wsh rs network = Returned (Some s))).
  { destruct (String.eqb_spec network "regtest") as [Hr | Hr].
    - assert (Hn : segwit_network network) by (left; exact Hr).
      destruct (pk_to_p2wpkh_encoded pk network Hn) as (x & -> & _).
      destruct (script_to_p2wsh_encoded rs network Hn) as (y & -> & _).
      eauto.
    - destruct (String.eqb_spec network "mainnet") as [Hm | Hm].
      + assert (Hn : segwit_network network) by (right; exact Hm).
        destruct (pk_to_p2wpkh_encoded pk network Hn) as (x & -> & _).
        destruct (script_to_p2wsh_encoded rs network Hn) as (y & -> & _).
        eauto.
      + rewrite pk_to_p2wpkh_else, script_to_p2wsh_else by assumption.
        eauto. }
  destruct Hseg as [H3 H4].
  destruct ((network =? "regtest")%string || (network =? "testnet")%string);
    [repeat split; eauto|].
  destruct (network =? "mainnet")%string; repeat split; eauto.
Qed.

(** X17. [privkey_to_pubkey] validates nothing itself: an exception of the
    key provider is passed on as it is, and a raw key of any length is
    compressed to the parity byte of what follows its first 32 bytes, then
    those first bytes; with at most 32 bytes the parity byte is 0x02. *)
Theorem privkey_to_pubkey_outcome
    (verifying_key_string : bytes -> outcome bytes) (privkey : bytes) :
  (forall e, verifying_key_string privkey = Raised e ->
             privkey_to_pubkey verifying_key_string privkey = Raised e) /\
  (forall raw, verifying_key_string privkey = Returned raw ->
     privkey_to_pubkey verifying_key_string privkey =
       Returned ((if Z.even (from_bytes_big (skipn 32 raw)) then x02 else x03)
                 :: firstn 32 raw) /\
     ((length raw <= 32)%nat ->
      privkey_to_pubkey verifying_key_string privkey = Returned (x02 :: raw))).
Proof.
  split.
  - intros e He. unfold privkey_to_pubkey. rewrite He. reflexivity.
  - intros raw Hraw.
    assert (E : privkey_to_pubkey verifying_key_string privkey =
                Returned ((if Z.even (from_bytes_big (skipn 32 raw))
                           then x02 else x03) :: firstn 32 raw)).
    { unfold privkey_to_pubkey, compress_pubkey.
      rewrite Hraw. cbn [lift bind]. rewrite fromhex_hex. cbn [lift bind].
      rewrite from_bytes_big_signed_parity, Zmod_even.
      destruct (Z.even (from_bytes_big (skipn 32 raw))); reflexivity. }
    split; [exact E|].
    intros Hlen. rewrite E, skipn_all2, firstn_all2 by exact Hlen.
    reflexivity.
Qed.

Lemma privkey_to_pubkey_outcome_witness :
  privkey_to_pubkey (fun _ => Raised ValueError) [] = Raised ValueError /\
  privkey_to_pubkey (fun _ => Returned [x07]) [] = Returned [x02; x07].
Proof.
  split.
  - pose proof (privkey_to_pubkey_outcome (fun _ => Raised ValueError) [])
      as H.
    destruct H as [H _]. exact (H ValueError eq_refl).
  - pose proof (privkey_to_pubkey_outcome (fun _ => Returned [x07]) [])
      as H.
    destruct H as [_ H]. destruct (H [x07] eq_refl) as [_ H'].
    apply H'. cbn. lia.
Defined.

(** X18. On a known network [decode_base58] reads a legacy address back
    into its 25 bytes: the version byte of the network and format, the 20
    bytes of HASH160 and the 4 checksum bytes. *)
Theorem legacy_address_decodes (pk rs : bytes) (network : string) :
  known_network network ->
  (exists addr,
      pk_to_p2pkh pk network = Returned addr /\
      decode_base58 addr =
        Returned ((p2pkh_version network :: hash160 pk) ++
                  firstn 4 (hash256 (p2pkh_version network :: hash160 pk)))) /\
  (exists addr,
      script_to_p2sh rs network = Returned addr /\
      decode_base58 addr =
        Returned ((p2sh_version network :: hash160 rs) ++
                  firstn 4 (hash256 (p2sh_version network :: hash160 rs)))) /\
  (exists addr,
      pk_to_p2sh_p2wpkh pk network = Returned addr /\
      decode_base58 addr =
        Returned ((p2sh_version network :: hash160 (x00 :: x14 :: hash160 pk)) ++
                  firstn 4 (hash256 (p2sh_version network ::
                                     hash160 (x00 :: x14 :: hash160 pk))))) /\
  length ((p2pkh_version network :: hash160 pk) ++
          firstn 4 (hash256 (p2pkh_version network :: hash160 pk))) = 25%nat.
Proof.
  intros Hk.
  rewrite (pk_to_p2pkh_known pk _ Hk), (script_to_p2sh_known rs _ Hk),
    (pk_to_p2sh_p2wpkh_known pk _ Hk).
  repeat split; try (eexists; split; [reflexivity|]);
    try apply b58decode_b58encode.
Qed.

Lemma legacy_address_decodes_witness :
  exists addr,
    pk_to_p2pkh generator_pubkey "mainnet" = Returned addr /\
    decode_base58 addr =
      Returned ((x00 :: hash160 generator_pubkey) ++
                firstn 4 (hash256 (x00 :: hash160 generator_pubkey))).
Proof.
  pose proof (legacy_address_decodes generator_pubkey [] "mainnet"
                known_mainnet) as H.
  destruct H as [H _]. exact H.
Defined.
